(** * Battle Engine V2: a shallow embedding of [battle_engine_v2.py]

    The engine is a Python class that mutates a [BattleState] held in
    [self.active_battles].  It is embedded here with explicit state passing:
    every method takes the battle it works on and returns the battle it
    leaves behind.  A Python exception (an [IndexError] on an empty active
    list, an [AttributeError] on a missing move descriptor, ...) is the
    result [None].

    Conventions:
    - a reference to a combatant object is the pair of its side and its
      position in that side's party; the two parties hold distinct objects;
    - a Python float is a binary64 number and float arithmetic rounds to the
      nearest one, ties to even; [round] is round-half-to-even and [int]
      truncates; a number of the data files is an [int] or a [float]; a
      number that is only compared (a random draw, an activation chance,
      the calculator's effectiveness) is the rational it stands for;
    - where Python raises on a conversion that leaves the doubles (an
      integer of 1024 bits or more turned into a float, an infinite float
      turned into an integer), far beyond the engine's HP, damage and speed
      values, the model goes on with the value the primitive documents;
    - a string is the sequence of its code points, all below 256;
    - the process-wide random source is a stream [nat -> Q] read through a
      cursor that each draw advances;
    - narration strings are values of the type [Msg], one constructor per
      message template of the source. *)

From Stdlib Require Import Ascii String QArith Qround Qabs Qreduction Sorted.
From stdpp Require Import gmap strings list fin_maps.

Local Open Scope Z_scope.

(** ** Python primitives *)

(** *** Floats

    A Python float is an IEEE 754 binary64 number.  A finite one is the
    rational it stands for, in lowest terms; the sign of a zero is never
    observed by the engine and is not kept. *)
Inductive pyfloat := F_finite (q : Q) | F_inf (negative : bool) | F_nan.

(** Nearest integer, ties to the even one. *)
Definition Qround_half_even (q : Q) : Z :=
  let f := Qfloor q in
  match Qcompare (q - inject_Z f) (1 # 2) with
  | Lt => f
  | Gt => f + 1
  | Eq => if Z.even f then f else f + 1
  end.

(** [2^e] *)
Definition Qpow2 (e : Z) : Q :=
  if 0 <=? e then inject_Z (2 ^ e) else 1 # Z.to_pos (2 ^ (- e)).

(** The exponent [e] with [2^e <= q < 2^(e+1)], for a positive [q]. *)
Definition Qlog2 (q : Q) : Z :=
  let e := Z.log2 (Qnum q) - Z.log2 (Z.pos (Qden q)) in
  if Qle_bool (Qpow2 e) q then e else e - 1.

(** The double nearest to a real number, ties to the even significand: 53
    bits of significand, exponents from -1022 (below which the spacing stays
    that of the subnormals) to 1023 (above which the result is infinite). *)
Definition round64 (q : Q) : pyfloat :=
  let c := Qred q in
  if Qeq_bool c 0 then F_finite 0
  else
    let a := Qabs c in
    let ulp := Qpow2 (Z.max (Qlog2 a) (-1022) - 52) in
    let r := (inject_Z (Qround_half_even (a / ulp)) * ulp)%Q in
    if Qle_bool (Qpow2 1024) r then F_inf (Qnum c <? 0)
    else F_finite (Qred (if Qnum c <? 0 then - r else r)).

(** A float literal of the source, and a number of the data files that
    Python read as a float. *)
Definition fl (q : Q) : pyfloat := round64 q.

(** [float(z)].  Python raises [OverflowError] for an integer beyond the
    range of the doubles; here the result is then infinite. *)
Definition float_of_Z (z : Z) : pyfloat := round64 (inject_Z z).

(** [x * y] on floats. *)
Definition fmul (x y : pyfloat) : pyfloat :=
  match x, y with
  | F_nan, _ | _, F_nan => F_nan
  | F_finite a, F_finite b => round64 (a * b)
  | F_inf s, F_finite a | F_finite a, F_inf s =>
      if Qeq_bool a 0 then F_nan else F_inf (xorb s (Qnum a <? 0))
  | F_inf s, F_inf t => F_inf (xorb s t)
  end.

(** [x / y] on floats; the engine never divides by zero (Python raises
    [ZeroDivisionError]; here the result is then not a number). *)
Definition fdiv (x y : pyfloat) : pyfloat :=
  match x, y with
  | F_nan, _ | _, F_nan => F_nan
  | F_finite a, F_finite b => if Qeq_bool b 0 then F_nan else round64 (a / b)
  | F_finite _, F_inf _ => F_finite 0
  | F_inf s, F_finite b => F_inf (xorb s (Qnum b <? 0))
  | F_inf _, F_inf _ => F_nan
  end.

(** [x < y] on floats. *)
Definition fltb (x y : pyfloat) : bool :=
  match x, y with
  | F_nan, _ | _, F_nan => false
  | F_finite a, F_finite b => negb (Qle_bool b a)
  | F_finite _, F_inf s => negb s
  | F_inf s, F_finite _ => s
  | F_inf s, F_inf t => s && negb t
  end.

(** Truthiness of a float. *)
Definition float_truthy (x : pyfloat) : bool :=
  match x with F_finite q => negb (Qeq_bool q 0) | _ => true end.

(** The real number a finite float stands for.  Python raises
    [OverflowError] or [ValueError] when an infinite float or a
    not-a-number is converted to an integer; the conversions below then
    yield 0. *)
Definition float_value (x : pyfloat) : Q :=
  match x with F_finite q => q | _ => 0%Q end.

(** [int(x)] on a float: truncation towards zero. *)
Definition py_int (x : pyfloat) : Z :=
  let q := float_value x in
  if Qle_bool 0 q then Qfloor q else Qceiling q.

(** [math.ceil(x)]. *)
Definition py_ceil (x : pyfloat) : Z := Qceiling (float_value x).

(** *** Numbers

    A number of the item data or of the type chart is an [int] or a
    [float], as the data file spells it. *)
Inductive pynum := P_int (z : Z) | P_float (x : pyfloat).

(** The float an arithmetic operation with a float converts its other
    operand to. *)
Definition to_float (n : pynum) : pyfloat :=
  match n with P_int z => float_of_Z z | P_float x => x end.

(** [a * b]: exact on two integers, a float product otherwise. *)
Definition py_mul (a b : pynum) : pynum :=
  match a, b with
  | P_int x, P_int y => P_int (x * y)
  | _, _ => P_float (fmul (to_float a) (to_float b))
  end.

(** [a / b]: the double nearest to the quotient of two integers, a float
    quotient otherwise. *)
Definition py_truediv (a b : pynum) : pyfloat :=
  match a, b with
  | P_int x, P_int y =>
      if y =? 0 then F_nan else round64 (inject_Z x / inject_Z y)
  | _, _ => fdiv (to_float a) (to_float b)
  end.

(** [a > z] for an integer literal [z]. *)
Definition py_gtb (a : pynum) (z : Z) : bool :=
  match a with
  | P_int x => z <? x
  | P_float x => fltb (float_of_Z z) x
  end.

(** Truthiness of a number. *)
Definition num_truthy (a : pynum) : bool :=
  match a with
  | P_int x => negb (x =? 0)
  | P_float x => float_truthy x
  end.

(** [int(round(a))]: an integer is its own rounding; a float goes to the
    nearest integer, ties to the even one. *)
Definition py_round (a : pynum) : Z :=
  match a with
  | P_int x => x
  | P_float x => Qround_half_even (float_value x)
  end.

(** *** Strings

    A Python string is the [string] of its code points, all below 256: the
    model covers Latin-1 text. *)

(** The code points with a lowercase form: A-Z and the accented capitals. *)
Definition is_upper_code (n : nat) : bool :=
  (((65 <=? n) && (n <=? 90))
   || ((192 <=? n) && (n <=? 222) && negb (n =? 215)))%nat.

(** The code points whose uppercase form is 32 below them. *)
Definition is_lower_code (n : nat) : bool :=
  (((97 <=? n) && (n <=? 122))
   || ((224 <=? n) && (n <=? 254) && negb (n =? 247)))%nat.

Definition ascii_lower (c : ascii) : ascii :=
  let n := nat_of_ascii c in
  if is_upper_code n then ascii_of_nat (n + 32) else c.

(** [s.lower()] *)
Fixpoint lower (s : string) : string :=
  match s with
  | EmptyString => EmptyString
  | String c r => String (ascii_lower c) (lower r)
  end.

(** The cased characters: the letters, the two ordinal indicators, the
    micro sign, the sharp s and the y with diaeresis. *)
Definition is_cased (c : ascii) : bool :=
  let n := nat_of_ascii c in
  (is_upper_code n || is_lower_code n
   || (n =? 170) || (n =? 181) || (n =? 186) || (n =? 223) || (n =? 255))%nat.

(** The titlecase form of a character, as code points: three of them leave
    Latin-1 or take two characters. *)
Definition title_char (c : ascii) : list N :=
  let n := nat_of_ascii c in
  if is_lower_code n then [N.of_nat (n - 32)]
  else if (n =? 181)%nat then [924%N]
  else if (n =? 223)%nat then [83%N; 115%N]
  else if (n =? 255)%nat then [376%N]
  else [N.of_nat n].

Fixpoint title_from (previous_is_cased : bool) (s : string) : list N :=
  match s with
  | EmptyString => []
  | String c r =>
      (if previous_is_cased then [N_of_ascii (ascii_lower c)] else title_char c)
      ++ title_from (is_cased c) r
  end.

(** [s.title()], as code points: a character that follows a cased one is
    lowered, any other is put in titlecase. *)
Definition title (s : string) : list N := title_from false s.

(** The code points of a string. *)
Definition code_points (s : string) : list N :=
  map N_of_ascii (list_ascii_of_string s).

(** The characters [str.strip()] removes. *)
Definition is_space (c : ascii) : bool :=
  let n := nat_of_ascii c in
  (((9 <=? n) && (n <=? 13)) || ((28 <=? n) && (n <=? 32))
   || (n =? 133) || (n =? 160))%nat.

Fixpoint lstrip (l : list ascii) : list ascii :=
  match l with
  | c :: r => if is_space c then lstrip r else l
  | [] => []
  end.

(** [s.strip()] *)
Definition strip (s : string) : string :=
  string_of_list_ascii
    (rev (lstrip (rev (lstrip (list_ascii_of_string s))))).

(** Truthiness of a string and of an optional string. *)
Definition truthy_str (s : string) : bool := negb (String.eqb s "").

Definition truthy_opt (o : option string) : bool :=
  match o with Some s => truthy_str s | None => false end.

(** [a or b] on optional strings. *)
Definition py_or (a b : option string) : option string :=
  if truthy_opt a then a else b.

(** [str(x)] of an optional string ([None] prints as the text None). *)
Definition py_str (o : option string) : string :=
  match o with Some s => s | None => "None" end.

(** Position denoted by the Python index [i] in a list of length [len]:
    negative indices count from the end, anything else out of range raises. *)
Definition norm_index (len : nat) (i : Z) : option nat :=
  if 0 <=? i then
    if i <? Z.of_nat len then Some (Z.to_nat i) else None
  else if - Z.of_nat len <=? i then Some (Z.to_nat (Z.of_nat len + i))
  else None.

(** [l[i]]. *)
Definition py_index {A} (l : list A) (i : Z) : option A :=
  n ← norm_index (length l) i; l !! n.

(** A [dict] whose insertion order is observed: assignment to a present key
    keeps the key's place, assignment to a new key appends. *)
Fixpoint dict_set {V} (k : Z) (v : V) (d : list (Z * V)) : list (Z * V) :=
  match d with
  | [] => [(k, v)]
  | (k', v') :: r => if k' =? k then (k, v) :: r else (k', v') :: dict_set k v r
  end.

Definition dict_mem {V} (k : Z) (d : list (Z * V)) : bool :=
  existsb (fun kv => fst kv =? k) d.

Definition dict_pop {V} (k : Z) (d : list (Z * V)) : list (Z * V) :=
  filter (fun kv => fst kv ≠ k) d.

Definition dict_values {V} (d : list (Z * V)) : list V := map snd d.

(** ** Data model *)

Inductive BattleType := WILD | TRAINER | PVP.
Inductive BattleFormat := SINGLES | DOUBLES | MULTI.

(** The values the source gives to [BattleState.phase]. *)
Inductive Phase :=
  START | WAITING_ACTIONS | RESOLVING | FORCED_SWITCH | DAZED | END_PHASE.

Inductive Winner := W_trainer | W_opponent | W_draw.

Inductive Side := Trainer | Opponent.

Definition other_side (s : Side) : Side :=
  match s with Trainer => Opponent | Opponent => Trainer end.

#[global] Instance BattleType_eq_dec : EqDecision BattleType.
Proof. solve_decision. Defined.
#[global] Instance BattleFormat_eq_dec : EqDecision BattleFormat.
Proof. solve_decision. Defined.
#[global] Instance Phase_eq_dec : EqDecision Phase.
Proof. solve_decision. Defined.
#[global] Instance Side_eq_dec : EqDecision Side.
Proof. solve_decision. Defined.
#[global] Instance Winner_eq_dec : EqDecision Winner.
Proof. solve_decision. Defined.

(** One entry of [pokemon.moves]: [{'move_id': ..., 'pp': ...}]. *)
Record MoveSlot := { move_id : string; pp : Z }.

(** The status manager attached to a combatant ([pokemon.status_manager]);
    its methods are collaborators of the engine, see [BattleEngine]. *)
Record StatusManager := {
  major_status : option string;
  volatile_statuses : list string
}.

(** A combatant.  [species_data] is [Some types] when the attribute exists,
    [stat_stages] holds the speed stage when the attribute exists. *)
Record Pokemon := {
  species_name : string;
  current_hp : Z;
  max_hp : Z;
  speed : Z;
  moves : list MoveSlot;
  held_item : option string;
  _consumed_items : gset string;
  _choice_locked_move : option string;
  species_data : option (list string);
  ability : option string;
  ability_name : option string;
  status_manager : option StatusManager;
  stat_stages : option Z
}.

Definition set_current_hp (p : Pokemon) (h : Z) : Pokemon :=
  {| species_name := species_name p; current_hp := h; max_hp := max_hp p;
     speed := speed p; moves := moves p; held_item := held_item p;
     _consumed_items := _consumed_items p;
     _choice_locked_move := _choice_locked_move p;
     species_data := species_data p; ability := ability p;
     ability_name := ability_name p; status_manager := status_manager p;
     stat_stages := stat_stages p |}.

Definition set_moves (p : Pokemon) (m : list MoveSlot) : Pokemon :=
  {| species_name := species_name p; current_hp := current_hp p;
     max_hp := max_hp p; speed := speed p; moves := m;
     held_item := held_item p; _consumed_items := _consumed_items p;
     _choice_locked_move := _choice_locked_move p;
     species_data := species_data p; ability := ability p;
     ability_name := ability_name p; status_manager := status_manager p;
     stat_stages := stat_stages p |}.

Definition set_consumed_items (p : Pokemon) (c : gset string) : Pokemon :=
  {| species_name := species_name p; current_hp := current_hp p;
     max_hp := max_hp p; speed := speed p; moves := moves p;
     held_item := held_item p; _consumed_items := c;
     _choice_locked_move := _choice_locked_move p;
     species_data := species_data p; ability := ability p;
     ability_name := ability_name p; status_manager := status_manager p;
     stat_stages := stat_stages p |}.

Definition set_choice_locked_move (p : Pokemon) (l : option string) : Pokemon :=
  {| species_name := species_name p; current_hp := current_hp p;
     max_hp := max_hp p; speed := speed p; moves := moves p;
     held_item := held_item p; _consumed_items := _consumed_items p;
     _choice_locked_move := l;
     species_data := species_data p; ability := ability p;
     ability_name := ability_name p; status_manager := status_manager p;
     stat_stages := stat_stages p |}.

Definition set_stat_stages (p : Pokemon) (s : option Z) : Pokemon :=
  {| species_name := species_name p; current_hp := current_hp p;
     max_hp := max_hp p; speed := speed p; moves := moves p;
     held_item := held_item p; _consumed_items := _consumed_items p;
     _choice_locked_move := _choice_locked_move p;
     species_data := species_data p; ability := ability p;
     ability_name := ability_name p; status_manager := status_manager p;
     stat_stages := s |}.

(** An item's [effect_data]; a field the dictionary lacks is [false] or
    [None]. *)
Record EffectData := {
  blocks_status_moves : bool;
  locks_move : bool;
  effect_type : option string;
  power_multiplier : option pynum;
  stat : option string;
  multiplier : option pynum;
  prevents_ko : bool;
  requires_full_hp : bool;
  activation_chance : option Q;
  one_time_use : bool;
  recoil_percent : option pynum;
  heal_percent : option pynum
}.

Record Item := {
  item_id : string;
  item_name : option string;
  trigger : option string;
  effect_data : EffectData
}.

(** [item.get('name', item['id'])]. *)
Definition item_display_name (it : Item) : string :=
  default (item_id it) (item_name it).

(** A move descriptor of the moves database. *)
Record MoveData := {
  md_id : option string;
  md_name : string;
  md_type : option string;
  md_category : option string;
  md_priority : option Z
}.

Inductive EffText := Eff_none | Eff_super | Eff_not_very | Eff_no_effect.

(** Narration: one constructor per message template. *)
Inductive Msg :=
| M_text (s : string)
| M_cant_use_status (species item : string)
| M_locked_into (species : string) (move : list N) (item : string)
| M_hung_on (species item : string)
| M_recoil (species item : string) (amount : Z)
| M_restored (species item : string) (amount : Z)
| M_unknown_move (species : string)
| M_banned (species move reason : string)
| M_used (species move : string) (dealt : option (Z * bool * EffText))
| M_endured (species : string)
| M_dazed (species : string)
| M_fainted (species : string)
| M_must_send_out
| M_stealth_rock (species : string) (amount : Z)
| M_spikes (species : string) (amount : Z)
| M_absorbed (species : string)
| M_status (species text : string)
| M_speed_fell (species : string)
| M_sent_out (battler species : string)
| M_withdrew (battler species : string)
| M_go (species : string)
| M_used_item (item : option string)
| M_cant_flee_trainer
| M_got_away
| M_cant_escape
| M_weather_subsided (weather : string)
| M_terrain_faded (terrain : string).

(** ** The process-wide random source *)

Section Random.
Variable random_source : nat -> Q.

(** [random.random()]: the draw and the advanced cursor. *)
Definition random (g : nat) : Q * nat := (random_source g, S g).

(** [random.choice(l)] for a non-empty [l]: a position below [n]. *)
Definition random_below (n : Z) (g : nat) : Z * nat :=
  (Qfloor (random_source g * inject_Z n) `mod` n, S g).
End Random.

(** ** HeldItemManager *)

Definition ItemsDB := string -> option Item.

Module HeldItemManager.
Section Manager.
(** [self.items_db]; [None] is a falsy database. *)
Variable items_db : option ItemsDB.
Variable random_source : nat -> Q.

Definition _is_consumed (pokemon : Pokemon) (item : string) : bool :=
  bool_decide (item ∈ _consumed_items pokemon).

Definition _consume (pokemon : Pokemon) (item : string) : Pokemon :=
  set_consumed_items pokemon (_consumed_items pokemon ∪ {[ item ]}).

Definition _get_item (pokemon : Pokemon) : option Item :=
  match items_db with
  | None => None
  | Some db =>
      match held_item pokemon with
      | None => None
      | Some held =>
          if negb (truthy_str held) then None
          else if _is_consumed pokemon held then None
          else db held
      end
  end.

Definition check_move_restrictions (pokemon : Pokemon) (move_data : MoveData)
  : option Msg :=
  match _get_item pokemon with
  | None => None
  | Some item =>
      let effect := effect_data item in
      if blocks_status_moves effect
         && bool_decide (md_category move_data = Some "status")
      then Some (M_cant_use_status (species_name pokemon) (item_display_name item))
      else if locks_move effect then
        match _choice_locked_move pokemon, md_id move_data with
        | Some locked, Some mv =>
            if truthy_str locked && truthy_str mv && negb (String.eqb mv locked)
            then Some (M_locked_into (species_name pokemon) (title (md_name move_data))
                                     (item_display_name item))
            else None
        | _, _ => None
        end
      else None
  end.

Definition register_move_use (pokemon : Pokemon) (move_data : MoveData) : Pokemon :=
  match _get_item pokemon with
  | None => pokemon
  | Some item =>
      if locks_move (effect_data item)
      then set_choice_locked_move pokemon (md_id move_data)
      else pokemon
  end.

Definition clear_choice_lock (pokemon : Pokemon) : Pokemon :=
  set_choice_locked_move pokemon None.

Definition _power_multiplier (pokemon : Pokemon) (move_data : MoveData)
  : pyfloat :=
  match _get_item pokemon with
  | None => fl 1
  | Some item =>
      let effect := effect_data item in
      let move_type := lower (default "" (md_type move_data)) in
      let power := to_float (default (P_float (fl 1)) (power_multiplier effect)) in
      let m1 :=
        if truthy_opt (effect_type effect) then
          if String.eqb move_type (lower (default "" (effect_type effect)))
          then fmul (fl 1) power else fl 1
        else if bool_decide (is_Some (power_multiplier effect))
        then fmul (fl 1) power else fl 1 in
      let stat_mult := to_float (default (P_float (fl 1)) (multiplier effect)) in
      if bool_decide (stat effect = Some "attack")
         && bool_decide (md_category move_data = Some "physical")
      then fmul m1 stat_mult
      else if bool_decide (stat effect = Some "sp_attack")
              && bool_decide (md_category move_data = Some "special")
      then fmul m1 stat_mult
      else m1
  end.

Definition _defense_multiplier (pokemon : Pokemon) (move_data : MoveData)
  : pynum :=
  match _get_item pokemon with
  | None => P_float (fl 1)
  | Some item =>
      let effect := effect_data item in
      if bool_decide (stat effect = Some "sp_defense")
         && bool_decide (md_category move_data = Some "special")
      then default (P_float (fl 1)) (multiplier effect) else P_float (fl 1)
  end.

(** Returns the damage, the message, the defender as the call leaves it
    and the random cursor. *)
Definition _try_focus_items (defender : Pokemon) (damage : Z) (g : nat)
  : Z * option Msg * Pokemon * nat :=
  if (damage <? current_hp defender) || (current_hp defender <=? 0)
  then (damage, None, defender, g)
  else
    match _get_item defender with
    | None => (damage, None, defender, g)
    | Some item =>
        let effect := effect_data item in
        if truthy_opt (trigger item)
           && negb (bool_decide (trigger item = Some "before_damage"))
        then (damage, None, defender, g)
        else if negb (prevents_ko effect || requires_full_hp effect
                      || bool_decide (is_Some (activation_chance effect)))
        then (damage, None, defender, g)
        else if requires_full_hp effect && (current_hp defender <? max_hp defender)
        then (damage, None, defender, g)
        else
          let '(failed, g1) :=
            match activation_chance effect with
            | Some activation =>
                let '(r, g') := random random_source g in
                (negb (Qle_bool r activation), g')
            | None => (false, g)
            end in
          if failed then (damage, None, defender, g1)
          else if current_hp defender <=? 1 then (damage, None, defender, g1)
          else
            let message := M_hung_on (species_name defender) (item_display_name item) in
            let defender' :=
              if one_time_use effect then _consume defender (item_id item)
              else defender in
            (current_hp defender - 1, Some message, defender', g1)
    end.

Definition modify_damage (attacker defender : Pokemon) (move_data : MoveData)
    (damage : Z) (g : nat) : Z * list Msg * Pokemon * nat :=
  if damage <=? 0 then (damage, [], defender, g)
  else
    let damage1 :=
      py_round (P_float (fmul (float_of_Z damage)
                              (_power_multiplier attacker move_data))) in
    let defense_mult := _defense_multiplier defender move_data in
    let damage2 :=
      if py_gtb defense_mult 1
      then Z.max 1 (py_ceil (py_truediv (P_int damage1) defense_mult))
      else damage1 in
    let '(damage3, survival_msg, defender', g') :=
      _try_focus_items defender damage2 g in
    (damage3, option_list survival_msg, defender', g').

Definition apply_after_damage (attacker : Pokemon) (move_data : MoveData)
    (dealt_damage : Z) : list Msg * Pokemon :=
  match _get_item attacker with
  | None => ([], attacker)
  | Some item =>
      let attacker1 := register_move_use attacker move_data in
      if dealt_damage <=? 0 then ([], attacker1)
      else
        match recoil_percent (effect_data item) with
        | Some percent =>
            if negb (num_truthy percent) then ([], attacker1)
            else
              let recoil :=
                Z.max 1 (py_round
                           (P_float (fmul (float_of_Z (max_hp attacker1))
                                          (fdiv (to_float percent) (fl 100))))) in
              ([M_recoil (species_name attacker1) (item_display_name item) recoil],
               set_current_hp attacker1 (Z.max 0 (current_hp attacker1 - recoil)))
        | None => ([], attacker1)
        end
  end.

Definition process_end_of_turn (pokemon : Pokemon) : list Msg * Pokemon :=
  match _get_item pokemon with
  | None => ([], pokemon)
  | Some item =>
      match heal_percent (effect_data item) with
      | None => ([], pokemon)
      | Some percent =>
          if negb (num_truthy percent) || (current_hp pokemon <=? 0)
             || (max_hp pokemon <=? current_hp pokemon)
          then ([], pokemon)
          else
            let heal :=
              Z.max 1 (py_round
                         (P_float (fmul (float_of_Z (max_hp pokemon))
                                        (fdiv (to_float percent) (fl 100))))) in
            ([M_restored (species_name pokemon) (item_display_name item) heal],
             set_current_hp pokemon (Z.min (max_hp pokemon) (current_hp pokemon + heal)))
      end
  end.

Definition get_speed_multiplier (pokemon : Pokemon) : pynum :=
  match _get_item pokemon with
  | None => P_float (fl 1)
  | Some item =>
      if bool_decide (stat (effect_data item) = Some "speed")
      then default (P_float (fl 1)) (multiplier (effect_data item))
      else P_float (fl 1)
  end.
End Manager.
End HeldItemManager.
(** One side of a battle. *)
Record Battler := {
  battler_id : Z;
  battler_name : string;
  party : list Pokemon;
  active_positions : list Z;
  is_ai : bool;
  can_switch : bool;
  can_use_items : bool;
  can_flee : bool;
  trainer_class : option string;
  prize_money : Z
}.

Definition set_party (x : Battler) (v : list Pokemon) : Battler :=
  {| battler_id := battler_id x; battler_name := battler_name x; party :=
     v; active_positions := active_positions x; is_ai := is_ai x;
     can_switch := can_switch x; can_use_items := can_use_items x;
     can_flee := can_flee x; trainer_class := trainer_class x; prize_money
     := prize_money x |}.

Definition set_active_positions (x : Battler) (v : list Z) : Battler :=
  {| battler_id := battler_id x; battler_name := battler_name x; party :=
     party x; active_positions := v; is_ai := is_ai x; can_switch :=
     can_switch x; can_use_items := can_use_items x; can_flee := can_flee
     x; trainer_class := trainer_class x; prize_money := prize_money x |}.

Inductive ActionType := A_move | A_switch | A_item | A_flee.

#[global] Instance ActionType_eq_dec : EqDecision ActionType.
Proof. solve_decision. Defined.

(** A single action taken by a battler. *)
Record BattleAction := {
  action_type : ActionType;
  action_battler_id : Z;
  action_move_id : option string;
  target_position : option Z;
  mega_evolve : bool;
  switch_to_position : option Z;
  action_item_id : option string;
  item_target_position : option Z;
  action_priority : Z;
  action_speed : Z
}.

(** [BattleAction(action_type=..., battler_id=..., ...)] with the dataclass
    defaults for the fields not given. *)
Definition mk_action (ty : ActionType) (bid : Z) (mv : option string)
    (target switch_to : option Z) : BattleAction :=
  {| action_type := ty; action_battler_id := bid; action_move_id := mv;
     target_position := target; mega_evolve := false;
     switch_to_position := switch_to; action_item_id := None;
     item_target_position := None; action_priority := 0; action_speed := 0 |}.

(** Complete state of an ongoing battle.  [battle_id] is the key under which
    the engine stores the battle; [ruleset] and [entry_messages] are the
    attributes [start_battle] attaches; [pending_actions] is keyed by
    [str(battler_id)], written here as the integer itself. *)
Record BattleState := {
  battle_type : BattleType;
  battle_format : BattleFormat;
  trainer : Battler;
  opponent : Battler;
  turn_number : Z;
  phase : Phase;
  forced_switch_battler_id : option Z;
  is_over : bool;
  winner : option Winner;
  fled : bool;
  weather : option string;
  weather_turns : Z;
  terrain : option string;
  terrain_turns : Z;
  trainer_hazards : gmap string Z;
  opponent_hazards : gmap string Z;
  trainer_screens : gmap string Z;
  opponent_screens : gmap string Z;
  pending_actions : list (Z * BattleAction);
  battle_log : list Msg;
  turn_log : list Msg;
  pending_ai_switch_index : option Z;
  catch_attempted : bool;
  wild_dazed : bool;
  is_ranked : bool;
  ruleset : option string;
  entry_messages : list Msg
}.

Definition set_trainer (x : BattleState) (v : Battler) : BattleState :=
  {| battle_type := battle_type x; battle_format := battle_format x;
     trainer := v; opponent := opponent x; turn_number := turn_number x;
     phase := phase x; forced_switch_battler_id :=
     forced_switch_battler_id x; is_over := is_over x; winner := winner x;
     fled := fled x; weather := weather x; weather_turns := weather_turns
     x; terrain := terrain x; terrain_turns := terrain_turns x;
     trainer_hazards := trainer_hazards x; opponent_hazards :=
     opponent_hazards x; trainer_screens := trainer_screens x;
     opponent_screens := opponent_screens x; pending_actions :=
     pending_actions x; battle_log := battle_log x; turn_log := turn_log
     x; pending_ai_switch_index := pending_ai_switch_index x;
     catch_attempted := catch_attempted x; wild_dazed := wild_dazed x;
     is_ranked := is_ranked x; ruleset := ruleset x; entry_messages :=
     entry_messages x |}.

Definition set_opponent (x : BattleState) (v : Battler) : BattleState :=
  {| battle_type := battle_type x; battle_format := battle_format x;
     trainer := trainer x; opponent := v; turn_number := turn_number x;
     phase := phase x; forced_switch_battler_id :=
     forced_switch_battler_id x; is_over := is_over x; winner := winner x;
     fled := fled x; weather := weather x; weather_turns := weather_turns
     x; terrain := terrain x; terrain_turns := terrain_turns x;
     trainer_hazards := trainer_hazards x; opponent_hazards :=
     opponent_hazards x; trainer_screens := trainer_screens x;
     opponent_screens := opponent_screens x; pending_actions :=
     pending_actions x; battle_log := battle_log x; turn_log := turn_log
     x; pending_ai_switch_index := pending_ai_switch_index x;
     catch_attempted := catch_attempted x; wild_dazed := wild_dazed x;
     is_ranked := is_ranked x; ruleset := ruleset x; entry_messages :=
     entry_messages x |}.

Definition set_turn_number (x : BattleState) (v : Z) : BattleState :=
  {| battle_type := battle_type x; battle_format := battle_format x;
     trainer := trainer x; opponent := opponent x; turn_number := v; phase
     := phase x; forced_switch_battler_id := forced_switch_battler_id x;
     is_over := is_over x; winner := winner x; fled := fled x; weather :=
     weather x; weather_turns := weather_turns x; terrain := terrain x;
     terrain_turns := terrain_turns x; trainer_hazards := trainer_hazards
     x; opponent_hazards := opponent_hazards x; trainer_screens :=
     trainer_screens x; opponent_screens := opponent_screens x;
     pending_actions := pending_actions x; battle_log := battle_log x;
     turn_log := turn_log x; pending_ai_switch_index :=
     pending_ai_switch_index x; catch_attempted := catch_attempted x;
     wild_dazed := wild_dazed x; is_ranked := is_ranked x; ruleset :=
     ruleset x; entry_messages := entry_messages x |}.

Definition set_phase (x : BattleState) (v : Phase) : BattleState :=
  {| battle_type := battle_type x; battle_format := battle_format x;
     trainer := trainer x; opponent := opponent x; turn_number :=
     turn_number x; phase := v; forced_switch_battler_id :=
     forced_switch_battler_id x; is_over := is_over x; winner := winner x;
     fled := fled x; weather := weather x; weather_turns := weather_turns
     x; terrain := terrain x; terrain_turns := terrain_turns x;
     trainer_hazards := trainer_hazards x; opponent_hazards :=
     opponent_hazards x; trainer_screens := trainer_screens x;
     opponent_screens := opponent_screens x; pending_actions :=
     pending_actions x; battle_log := battle_log x; turn_log := turn_log
     x; pending_ai_switch_index := pending_ai_switch_index x;
     catch_attempted := catch_attempted x; wild_dazed := wild_dazed x;
     is_ranked := is_ranked x; ruleset := ruleset x; entry_messages :=
     entry_messages x |}.

Definition set_forced_switch_battler_id (x : BattleState) (v : option Z) : BattleState :=
  {| battle_type := battle_type x; battle_format := battle_format x;
     trainer := trainer x; opponent := opponent x; turn_number :=
     turn_number x; phase := phase x; forced_switch_battler_id := v;
     is_over := is_over x; winner := winner x; fled := fled x; weather :=
     weather x; weather_turns := weather_turns x; terrain := terrain x;
     terrain_turns := terrain_turns x; trainer_hazards := trainer_hazards
     x; opponent_hazards := opponent_hazards x; trainer_screens :=
     trainer_screens x; opponent_screens := opponent_screens x;
     pending_actions := pending_actions x; battle_log := battle_log x;
     turn_log := turn_log x; pending_ai_switch_index :=
     pending_ai_switch_index x; catch_attempted := catch_attempted x;
     wild_dazed := wild_dazed x; is_ranked := is_ranked x; ruleset :=
     ruleset x; entry_messages := entry_messages x |}.

Definition set_is_over (x : BattleState) (v : bool) : BattleState :=
  {| battle_type := battle_type x; battle_format := battle_format x;
     trainer := trainer x; opponent := opponent x; turn_number :=
     turn_number x; phase := phase x; forced_switch_battler_id :=
     forced_switch_battler_id x; is_over := v; winner := winner x; fled :=
     fled x; weather := weather x; weather_turns := weather_turns x;
     terrain := terrain x; terrain_turns := terrain_turns x;
     trainer_hazards := trainer_hazards x; opponent_hazards :=
     opponent_hazards x; trainer_screens := trainer_screens x;
     opponent_screens := opponent_screens x; pending_actions :=
     pending_actions x; battle_log := battle_log x; turn_log := turn_log
     x; pending_ai_switch_index := pending_ai_switch_index x;
     catch_attempted := catch_attempted x; wild_dazed := wild_dazed x;
     is_ranked := is_ranked x; ruleset := ruleset x; entry_messages :=
     entry_messages x |}.

Definition set_winner (x : BattleState) (v : option Winner) : BattleState :=
  {| battle_type := battle_type x; battle_format := battle_format x;
     trainer := trainer x; opponent := opponent x; turn_number :=
     turn_number x; phase := phase x; forced_switch_battler_id :=
     forced_switch_battler_id x; is_over := is_over x; winner := v; fled
     := fled x; weather := weather x; weather_turns := weather_turns x;
     terrain := terrain x; terrain_turns := terrain_turns x;
     trainer_hazards := trainer_hazards x; opponent_hazards :=
     opponent_hazards x; trainer_screens := trainer_screens x;
     opponent_screens := opponent_screens x; pending_actions :=
     pending_actions x; battle_log := battle_log x; turn_log := turn_log
     x; pending_ai_switch_index := pending_ai_switch_index x;
     catch_attempted := catch_attempted x; wild_dazed := wild_dazed x;
     is_ranked := is_ranked x; ruleset := ruleset x; entry_messages :=
     entry_messages x |}.

Definition set_fled (x : BattleState) (v : bool) : BattleState :=
  {| battle_type := battle_type x; battle_format := battle_format x;
     trainer := trainer x; opponent := opponent x; turn_number :=
     turn_number x; phase := phase x; forced_switch_battler_id :=
     forced_switch_battler_id x; is_over := is_over x; winner := winner x;
     fled := v; weather := weather x; weather_turns := weather_turns x;
     terrain := terrain x; terrain_turns := terrain_turns x;
     trainer_hazards := trainer_hazards x; opponent_hazards :=
     opponent_hazards x; trainer_screens := trainer_screens x;
     opponent_screens := opponent_screens x; pending_actions :=
     pending_actions x; battle_log := battle_log x; turn_log := turn_log
     x; pending_ai_switch_index := pending_ai_switch_index x;
     catch_attempted := catch_attempted x; wild_dazed := wild_dazed x;
     is_ranked := is_ranked x; ruleset := ruleset x; entry_messages :=
     entry_messages x |}.

Definition set_weather (x : BattleState) (v : option string) : BattleState :=
  {| battle_type := battle_type x; battle_format := battle_format x;
     trainer := trainer x; opponent := opponent x; turn_number :=
     turn_number x; phase := phase x; forced_switch_battler_id :=
     forced_switch_battler_id x; is_over := is_over x; winner := winner x;
     fled := fled x; weather := v; weather_turns := weather_turns x;
     terrain := terrain x; terrain_turns := terrain_turns x;
     trainer_hazards := trainer_hazards x; opponent_hazards :=
     opponent_hazards x; trainer_screens := trainer_screens x;
     opponent_screens := opponent_screens x; pending_actions :=
     pending_actions x; battle_log := battle_log x; turn_log := turn_log
     x; pending_ai_switch_index := pending_ai_switch_index x;
     catch_attempted := catch_attempted x; wild_dazed := wild_dazed x;
     is_ranked := is_ranked x; ruleset := ruleset x; entry_messages :=
     entry_messages x |}.

Definition set_weather_turns (x : BattleState) (v : Z) : BattleState :=
  {| battle_type := battle_type x; battle_format := battle_format x;
     trainer := trainer x; opponent := opponent x; turn_number :=
     turn_number x; phase := phase x; forced_switch_battler_id :=
     forced_switch_battler_id x; is_over := is_over x; winner := winner x;
     fled := fled x; weather := weather x; weather_turns := v; terrain :=
     terrain x; terrain_turns := terrain_turns x; trainer_hazards :=
     trainer_hazards x; opponent_hazards := opponent_hazards x;
     trainer_screens := trainer_screens x; opponent_screens :=
     opponent_screens x; pending_actions := pending_actions x; battle_log
     := battle_log x; turn_log := turn_log x; pending_ai_switch_index :=
     pending_ai_switch_index x; catch_attempted := catch_attempted x;
     wild_dazed := wild_dazed x; is_ranked := is_ranked x; ruleset :=
     ruleset x; entry_messages := entry_messages x |}.

Definition set_terrain (x : BattleState) (v : option string) : BattleState :=
  {| battle_type := battle_type x; battle_format := battle_format x;
     trainer := trainer x; opponent := opponent x; turn_number :=
     turn_number x; phase := phase x; forced_switch_battler_id :=
     forced_switch_battler_id x; is_over := is_over x; winner := winner x;
     fled := fled x; weather := weather x; weather_turns := weather_turns
     x; terrain := v; terrain_turns := terrain_turns x; trainer_hazards :=
     trainer_hazards x; opponent_hazards := opponent_hazards x;
     trainer_screens := trainer_screens x; opponent_screens :=
     opponent_screens x; pending_actions := pending_actions x; battle_log
     := battle_log x; turn_log := turn_log x; pending_ai_switch_index :=
     pending_ai_switch_index x; catch_attempted := catch_attempted x;
     wild_dazed := wild_dazed x; is_ranked := is_ranked x; ruleset :=
     ruleset x; entry_messages := entry_messages x |}.

Definition set_terrain_turns (x : BattleState) (v : Z) : BattleState :=
  {| battle_type := battle_type x; battle_format := battle_format x;
     trainer := trainer x; opponent := opponent x; turn_number :=
     turn_number x; phase := phase x; forced_switch_battler_id :=
     forced_switch_battler_id x; is_over := is_over x; winner := winner x;
     fled := fled x; weather := weather x; weather_turns := weather_turns
     x; terrain := terrain x; terrain_turns := v; trainer_hazards :=
     trainer_hazards x; opponent_hazards := opponent_hazards x;
     trainer_screens := trainer_screens x; opponent_screens :=
     opponent_screens x; pending_actions := pending_actions x; battle_log
     := battle_log x; turn_log := turn_log x; pending_ai_switch_index :=
     pending_ai_switch_index x; catch_attempted := catch_attempted x;
     wild_dazed := wild_dazed x; is_ranked := is_ranked x; ruleset :=
     ruleset x; entry_messages := entry_messages x |}.

Definition set_trainer_hazards (x : BattleState) (v : gmap string Z) : BattleState :=
  {| battle_type := battle_type x; battle_format := battle_format x;
     trainer := trainer x; opponent := opponent x; turn_number :=
     turn_number x; phase := phase x; forced_switch_battler_id :=
     forced_switch_battler_id x; is_over := is_over x; winner := winner x;
     fled := fled x; weather := weather x; weather_turns := weather_turns
     x; terrain := terrain x; terrain_turns := terrain_turns x;
     trainer_hazards := v; opponent_hazards := opponent_hazards x;
     trainer_screens := trainer_screens x; opponent_screens :=
     opponent_screens x; pending_actions := pending_actions x; battle_log
     := battle_log x; turn_log := turn_log x; pending_ai_switch_index :=
     pending_ai_switch_index x; catch_attempted := catch_attempted x;
     wild_dazed := wild_dazed x; is_ranked := is_ranked x; ruleset :=
     ruleset x; entry_messages := entry_messages x |}.

Definition set_opponent_hazards (x : BattleState) (v : gmap string Z) : BattleState :=
  {| battle_type := battle_type x; battle_format := battle_format x;
     trainer := trainer x; opponent := opponent x; turn_number :=
     turn_number x; phase := phase x; forced_switch_battler_id :=
     forced_switch_battler_id x; is_over := is_over x; winner := winner x;
     fled := fled x; weather := weather x; weather_turns := weather_turns
     x; terrain := terrain x; terrain_turns := terrain_turns x;
     trainer_hazards := trainer_hazards x; opponent_hazards := v;
     trainer_screens := trainer_screens x; opponent_screens :=
     opponent_screens x; pending_actions := pending_actions x; battle_log
     := battle_log x; turn_log := turn_log x; pending_ai_switch_index :=
     pending_ai_switch_index x; catch_attempted := catch_attempted x;
     wild_dazed := wild_dazed x; is_ranked := is_ranked x; ruleset :=
     ruleset x; entry_messages := entry_messages x |}.

Definition set_pending_actions (x : BattleState) (v : list (Z * BattleAction)) : BattleState :=
  {| battle_type := battle_type x; battle_format := battle_format x;
     trainer := trainer x; opponent := opponent x; turn_number :=
     turn_number x; phase := phase x; forced_switch_battler_id :=
     forced_switch_battler_id x; is_over := is_over x; winner := winner x;
     fled := fled x; weather := weather x; weather_turns := weather_turns
     x; terrain := terrain x; terrain_turns := terrain_turns x;
     trainer_hazards := trainer_hazards x; opponent_hazards :=
     opponent_hazards x; trainer_screens := trainer_screens x;
     opponent_screens := opponent_screens x; pending_actions := v;
     battle_log := battle_log x; turn_log := turn_log x;
     pending_ai_switch_index := pending_ai_switch_index x; catch_attempted
     := catch_attempted x; wild_dazed := wild_dazed x; is_ranked :=
     is_ranked x; ruleset := ruleset x; entry_messages := entry_messages x |}.

Definition set_turn_log (x : BattleState) (v : list Msg) : BattleState :=
  {| battle_type := battle_type x; battle_format := battle_format x;
     trainer := trainer x; opponent := opponent x; turn_number :=
     turn_number x; phase := phase x; forced_switch_battler_id :=
     forced_switch_battler_id x; is_over := is_over x; winner := winner x;
     fled := fled x; weather := weather x; weather_turns := weather_turns
     x; terrain := terrain x; terrain_turns := terrain_turns x;
     trainer_hazards := trainer_hazards x; opponent_hazards :=
     opponent_hazards x; trainer_screens := trainer_screens x;
     opponent_screens := opponent_screens x; pending_actions :=
     pending_actions x; battle_log := battle_log x; turn_log := v;
     pending_ai_switch_index := pending_ai_switch_index x; catch_attempted
     := catch_attempted x; wild_dazed := wild_dazed x; is_ranked :=
     is_ranked x; ruleset := ruleset x; entry_messages := entry_messages x |}.

Definition set_pending_ai_switch_index (x : BattleState) (v : option Z) : BattleState :=
  {| battle_type := battle_type x; battle_format := battle_format x;
     trainer := trainer x; opponent := opponent x; turn_number :=
     turn_number x; phase := phase x; forced_switch_battler_id :=
     forced_switch_battler_id x; is_over := is_over x; winner := winner x;
     fled := fled x; weather := weather x; weather_turns := weather_turns
     x; terrain := terrain x; terrain_turns := terrain_turns x;
     trainer_hazards := trainer_hazards x; opponent_hazards :=
     opponent_hazards x; trainer_screens := trainer_screens x;
     opponent_screens := opponent_screens x; pending_actions :=
     pending_actions x; battle_log := battle_log x; turn_log := turn_log
     x; pending_ai_switch_index := v; catch_attempted := catch_attempted
     x; wild_dazed := wild_dazed x; is_ranked := is_ranked x; ruleset :=
     ruleset x; entry_messages := entry_messages x |}.

Definition set_wild_dazed (x : BattleState) (v : bool) : BattleState :=
  {| battle_type := battle_type x; battle_format := battle_format x;
     trainer := trainer x; opponent := opponent x; turn_number :=
     turn_number x; phase := phase x; forced_switch_battler_id :=
     forced_switch_battler_id x; is_over := is_over x; winner := winner x;
     fled := fled x; weather := weather x; weather_turns := weather_turns
     x; terrain := terrain x; terrain_turns := terrain_turns x;
     trainer_hazards := trainer_hazards x; opponent_hazards :=
     opponent_hazards x; trainer_screens := trainer_screens x;
     opponent_screens := opponent_screens x; pending_actions :=
     pending_actions x; battle_log := battle_log x; turn_log := turn_log
     x; pending_ai_switch_index := pending_ai_switch_index x;
     catch_attempted := catch_attempted x; wild_dazed := v; is_ranked :=
     is_ranked x; ruleset := ruleset x; entry_messages := entry_messages x |}.

Definition set_ruleset (x : BattleState) (v : option string) : BattleState :=
  {| battle_type := battle_type x; battle_format := battle_format x;
     trainer := trainer x; opponent := opponent x; turn_number :=
     turn_number x; phase := phase x; forced_switch_battler_id :=
     forced_switch_battler_id x; is_over := is_over x; winner := winner x;
     fled := fled x; weather := weather x; weather_turns := weather_turns
     x; terrain := terrain x; terrain_turns := terrain_turns x;
     trainer_hazards := trainer_hazards x; opponent_hazards :=
     opponent_hazards x; trainer_screens := trainer_screens x;
     opponent_screens := opponent_screens x; pending_actions :=
     pending_actions x; battle_log := battle_log x; turn_log := turn_log
     x; pending_ai_switch_index := pending_ai_switch_index x;
     catch_attempted := catch_attempted x; wild_dazed := wild_dazed x;
     is_ranked := is_ranked x; ruleset := v; entry_messages :=
     entry_messages x |}.

Definition set_entry_messages (x : BattleState) (v : list Msg) : BattleState :=
  {| battle_type := battle_type x; battle_format := battle_format x;
     trainer := trainer x; opponent := opponent x; turn_number :=
     turn_number x; phase := phase x; forced_switch_battler_id :=
     forced_switch_battler_id x; is_over := is_over x; winner := winner x;
     fled := fled x; weather := weather x; weather_turns := weather_turns
     x; terrain := terrain x; terrain_turns := terrain_turns x;
     trainer_hazards := trainer_hazards x; opponent_hazards :=
     opponent_hazards x; trainer_screens := trainer_screens x;
     opponent_screens := opponent_screens x; pending_actions :=
     pending_actions x; battle_log := battle_log x; turn_log := turn_log
     x; pending_ai_switch_index := pending_ai_switch_index x;
     catch_attempted := catch_attempted x; wild_dazed := wild_dazed x;
     is_ranked := is_ranked x; ruleset := ruleset x; entry_messages := v |}.

(** ** The engine and its collaborators

    [BattleEngine] holds what [BattleEngine.__init__] stores on [self], and
    the injected or optional subsystems the methods call.  The subsystems
    are not part of this repository's source; each is taken with the
    signature of its interface: a method that changes a combatant returns
    the combatant it leaves, the on-entry hook returns the field and
    combatant changes it makes. *)

Record EntryEffects := {
  ee_messages : list string;
  ee_weather : option string -> option string;
  ee_weather_turns : Z -> Z;
  ee_terrain : option string -> option string;
  ee_terrain_turns : Z -> Z;
  ee_trainer : nat -> Pokemon -> Pokemon;
  ee_opponent : nat -> Pokemon -> Pokemon
}.

Record BattleEngine := {
  (** [moves_db.get_move] *)
  get_move : option string -> option MoveData;
  (** [type_chart], or its [chart] attribute *)
  type_chart : gmap string (gmap string pynum);
  items_db : option ItemsDB;
  (** [ruleset_handler] *)
  resolve_default_ruleset : string -> option string;
  is_move_allowed : option string -> string -> bool * string;
  ENHANCED_SYSTEMS_AVAILABLE : bool;
  (** [calculator] *)
  calculate_damage_with_effects :
    Pokemon -> Pokemon -> option string -> BattleState -> Z * bool * Q * list string;
  get_speed : Pokemon -> option Z;
  (** [pokemon.status_manager] *)
  can_move : Pokemon -> bool * string;
  can_apply_status : Pokemon -> string -> bool;
  apply_status : Pokemon -> string -> bool * string * Pokemon;
  apply_end_of_turn_effects : Pokemon -> list string * Pokemon;
  (** [ability_handler] *)
  trigger_on_entry : Pokemon -> BattleState -> EntryEffects;
  apply_weather_damage : Pokemon -> string -> option string * Pokemon;
  apply_weather_healing : Pokemon -> string -> option string * Pokemon;
  (** the [random] module *)
  random_source : nat -> Q
}.

(** [self.held_item_manager = HeldItemManager(items_db) if items_db else None] *)
Definition held_item_manager (E : BattleEngine) : bool :=
  bool_decide (is_Some (items_db E)).

(** ** Battler *)

(** [Battler.get_active_pokemon], as the party positions of the combatants
    it lists: the active positions below [len(party)], each read as a Python
    index. *)
Fixpoint active_indices (len : nat) (positions : list Z) : option (list nat) :=
  match positions with
  | [] => Some []
  | i :: r =>
      if i <? Z.of_nat len
      then n ← norm_index len i; ns ← active_indices len r; Some (n :: ns)
      else active_indices len r
  end.

Definition get_active_pokemon (x : Battler) : option (list nat) :=
  active_indices (length (party x)) (active_positions x).

Definition has_usable_pokemon (x : Battler) : bool :=
  existsb (fun p => 0 <? current_hp p) (party x).

(** ** Access to the two sides *)

Definition battler (b : BattleState) (s : Side) : Battler :=
  match s with Trainer => trainer b | Opponent => opponent b end.

Definition set_battler (b : BattleState) (s : Side) (x : Battler) : BattleState :=
  match s with Trainer => set_trainer b x | Opponent => set_opponent b x end.

(** [battle.trainer if id == battle.trainer.battler_id else battle.opponent] *)
Definition side_of (b : BattleState) (id : Z) : Side :=
  if id =? battler_id (trainer b) then Trainer else Opponent.

Definition get_pokemon (b : BattleState) (s : Side) (n : nat) : option Pokemon :=
  party (battler b s) !! n.

(** In-place mutation of the combatant at position [n] of side [s]. *)
Definition put_pokemon (b : BattleState) (s : Side) (n : nat) (p : Pokemon)
  : BattleState :=
  set_battler b s (set_party (battler b s) (<[n := p]> (party (battler b s)))).

Definition hazards_of (b : BattleState) (s : Side) : gmap string Z :=
  match s with Opponent => opponent_hazards b | Trainer => trainer_hazards b end.

Definition set_hazards_of (b : BattleState) (s : Side) (h : gmap string Z)
  : BattleState :=
  match s with
  | Opponent => set_opponent_hazards b h
  | Trainer => set_trainer_hazards b h
  end.

(** ** Terminal check *)

Definition _check_battle_end (b : BattleState) : BattleState :=
  let trainer_has_pokemon := has_usable_pokemon (trainer b) in
  let opponent_has_pokemon := has_usable_pokemon (opponent b) in
  if negb trainer_has_pokemon && negb opponent_has_pokemon
  then set_winner (set_is_over b true) (Some W_draw)
  else if negb trainer_has_pokemon
  then set_winner (set_is_over b true) (Some W_opponent)
  else if negb opponent_has_pokemon
  then set_winner (set_is_over b true) (Some W_trainer)
  else b.

(** ** Action scheduler *)

Definition _get_effective_speed (E : BattleEngine) (pokemon : Pokemon) : Z :=
  let speed0 := speed pokemon in
  let speed1 :=
    if ENHANCED_SYSTEMS_AVAILABLE E
    then default speed0 (get_speed E pokemon) else speed0 in
  if held_item_manager E
  then py_round (py_mul (P_int speed1)
                   (HeldItemManager.get_speed_multiplier (items_db E) pokemon))
  else speed1.

(** The sort key of [_sort_actions]; it raises on a move the database does
    not know and on a side with no active combatant. *)
Definition get_action_priority (E : BattleEngine) (b : BattleState)
    (action : BattleAction) : option (Z * Z) :=
  match action_type action with
  | A_switch => Some (100, 999)
  | A_item => Some (90, 999)
  | A_move =>
      move_data ← get_move E (action_move_id action);
      let priority := default 0 (md_priority move_data) in
      let x := battler b (side_of b (action_battler_id action)) in
      actives ← get_active_pokemon x;
      n ← actives !! 0%nat;
      pokemon ← party x !! n;
      Some (priority, _get_effective_speed E pokemon)
  | A_flee => Some (0, 0)
  end.

(** Tuple comparison [k1 > k2]. *)
Definition key_gtb (k1 k2 : Z * Z) : bool :=
  (fst k2 <? fst k1) || ((fst k1 =? fst k2) && (snd k2 <? snd k1)).

(** [list.sort(key=..., reverse=True)] is a stable sort, here by insertion
    from the right: an element is put behind the elements that follow it in
    the input only where their key is strictly greater. *)
Fixpoint insert_desc {A} (x : (Z * Z) * A) (l : list ((Z * Z) * A))
  : list ((Z * Z) * A) :=
  match l with
  | [] => [x]
  | y :: r => if key_gtb (fst y) (fst x) then y :: insert_desc x r else x :: y :: r
  end.

Definition sort_desc {A} (l : list ((Z * Z) * A)) : list ((Z * Z) * A) :=
  foldr insert_desc [] l.

Definition _sort_actions (E : BattleEngine) (b : BattleState)
    (actions : list BattleAction) : option (list BattleAction) :=
  keyed ← mapM (fun a => k ← get_action_priority E b a; Some (k, a)) actions;
  Some (map snd (sort_desc keyed)).

(** ** Hazard engine *)

Definition pokemon_types (pokemon : Pokemon) : list string :=
  map lower (default [] (species_data pokemon)).

Definition has_type (pokemon : Pokemon) (t : string) : bool :=
  bool_decide (t ∈ pokemon_types pokemon).

Definition is_grounded (pokemon : Pokemon) : bool :=
  negb (has_type pokemon "flying")
  && negb (String.eqb
             (lower (py_str (py_or (ability pokemon) (ability_name pokemon))))
             "levitate").

(** [eff]: 1.0 multiplied in turn by [chart['rock'][t]] for the combatant's
    types that the row lists. *)
Definition rock_effectiveness (chart : gmap string (gmap string pynum))
    (types : list string) : pyfloat :=
  match chart !! "rock" with
  | Some row =>
      fold_left (fun eff t =>
                   match row !! t with
                   | Some m => fmul eff (to_float m)
                   | None => eff
                   end)
                types (fl 1)
  | None => fl 1
  end.

Definition stealth_rock_damage (hp_max : Z) (eff : pyfloat) : Z :=
  let base := Z.max 1 (hp_max / 8) in
  if fltb (fl 0) eff
  then Z.max 1 (py_int (fmul (float_of_Z base) eff)) else 0.

Definition spikes_damage (hp_max : Z) (stored_layers : Z) : Z :=
  let layers := Z.min 3 stored_layers in
  let frac_den := if layers =? 1 then 8 else if layers =? 2 then 6 else 4 in
  Z.max 1 ((hp_max * 1) / frac_den).

Definition stealth_rock_step (E : BattleEngine) (hazards : gmap string Z)
    (pokemon : Pokemon) : list Msg * Pokemon :=
  if bool_decide (is_Some (hazards !! "stealth_rock"))
     && bool_decide (is_Some (species_data pokemon))
  then
    let eff := rock_effectiveness (type_chart E) (pokemon_types pokemon) in
    let dmg := stealth_rock_damage (max_hp pokemon) eff in
    if 0 <? dmg
    then ([M_stealth_rock (species_name pokemon) dmg],
          set_current_hp pokemon (Z.max 0 (current_hp pokemon - dmg)))
    else ([], pokemon)
  else ([], pokemon).

Definition spikes_step (hazards : gmap string Z) (pokemon : Pokemon)
  : list Msg * Pokemon :=
  match hazards !! "spikes" with
  | Some stored =>
      if is_grounded pokemon then
        let dmg := spikes_damage (max_hp pokemon) stored in
        ([M_spikes (species_name pokemon) dmg],
         set_current_hp pokemon (Z.max 0 (current_hp pokemon - dmg)))
      else ([], pokemon)
  | None => ([], pokemon)
  end.

(** The toxic-spikes block: the messages, the combatant as it is left and
    whether the entry is popped from the side's hazard map. *)
Definition toxic_spikes_step (E : BattleEngine) (hazards : gmap string Z)
    (pokemon : Pokemon) : list Msg * Pokemon * bool :=
  match hazards !! "toxic_spikes" with
  | Some stored =>
      if is_grounded pokemon then
        let layers := Z.min 2 stored in
        if has_type pokemon "poison"
        then ([M_absorbed (species_name pokemon)], pokemon, true)
        else if negb (has_type pokemon "steel") then
          match status_manager pokemon with
          | Some _ =>
              let status := if 2 <=? layers then "tox" else "psn" in
              if can_apply_status E pokemon status then
                let '(success, msg, pokemon') := apply_status E pokemon status in
                if success && truthy_str msg
                then ([M_status (species_name pokemon') msg], pokemon', false)
                else ([], pokemon', false)
              else ([], pokemon, false)
          | None => ([], pokemon, false)
          end
        else ([], pokemon, false)
      else ([], pokemon, false)
  | None => ([], pokemon, false)
  end.

(** The sticky-web block; [grounded] is the [is_grounded] computed when the
    combatant arrived. *)
Definition sticky_web_step (hazards : gmap string Z) (grounded : bool)
    (pokemon : Pokemon) : list Msg * Pokemon :=
  if bool_decide (is_Some (hazards !! "sticky_web")) && grounded
  then
    let stage := default 0 (stat_stages pokemon) in
    ([M_speed_fell (species_name pokemon)],
     set_stat_stages pokemon (Some (Z.max (-6) (stage - 1))))
  else ([], pokemon).

(** [_apply_entry_hazards(battle, battler, pokemon)] for the combatant at
    position [n] of side [s].  The source computes [types] and [is_grounded]
    once, on arrival; stealth rock and spikes only write the HP, so the
    spikes and toxic-spikes blocks read the same values from the combatant
    they are handed, and the sticky-web block, which runs after the status
    manager's [apply_status], is handed the value of the arrival. *)
Definition _apply_entry_hazards (E : BattleEngine) (b : BattleState) (s : Side)
    (n : nat) : option (list Msg * BattleState) :=
  let hazards := hazards_of b s in
  if bool_decide (hazards = ∅) then Some ([], b)
  else
    p0 ← get_pokemon b s n;
    let '(m1, p1) := stealth_rock_step E hazards p0 in
    let '(m2, p2) := spikes_step hazards p1 in
    let '(m3, p3, absorbed) := toxic_spikes_step E hazards p2 in
    let '(m4, p4) := sticky_web_step hazards (is_grounded p0) p3 in
    let b1 := put_pokemon b s n p4 in
    let b2 :=
      if absorbed then set_hazards_of b1 s (delete "toxic_spikes" (hazards_of b1 s))
      else b1 in
    Some (m1 ++ m2 ++ m3 ++ m4, b2).

(** ** Switching *)

(** The changes an on-entry ability makes to the field and the two parties. *)
Definition apply_entry_effects (b : BattleState) (e : EntryEffects) : BattleState :=
  let b1 := set_weather b (ee_weather e (weather b)) in
  let b2 := set_weather_turns b1 (ee_weather_turns e (weather_turns b1)) in
  let b3 := set_terrain b2 (ee_terrain e (terrain b2)) in
  let b4 := set_terrain_turns b3 (ee_terrain_turns e (terrain_turns b3)) in
  let b5 := set_trainer b4 (set_party (trainer b4) (imap (ee_trainer e) (party (trainer b4)))) in
  set_opponent b5 (set_party (opponent b5) (imap (ee_opponent e) (party (opponent b5)))).

Definition _execute_switch (E : BattleEngine) (b : BattleState)
    (action : BattleAction) (forced : bool) : option (list Msg * BattleState) :=
  let s := side_of b (action_battler_id action) in
  let x := battler b s in
  (* old_pokemon = battler.get_active_pokemon()[0] *)
  actives ← get_active_pokemon x;
  old_n ← actives !! 0%nat;
  old_pokemon ← party x !! old_n;
  (* new_pokemon = battler.party[action.switch_to_position] *)
  target ← switch_to_position action;
  new_n ← norm_index (length (party x)) target;
  _ ← party x !! new_n;
  (* battler.active_positions[0] = action.switch_to_position *)
  match active_positions x with
  | [] => None
  | _ :: others =>
      let b1 := set_battler b s (set_active_positions x (target :: others)) in
      let b2 :=
        if held_item_manager E
        then put_pokemon b1 s old_n (HeldItemManager.clear_choice_lock old_pokemon)
        else b1 in
      new_pokemon ← get_pokemon b2 s new_n;
      let '(ability_msgs, b3) :=
        if ENHANCED_SYSTEMS_AVAILABLE E then
          let e := trigger_on_entry E new_pokemon b2 in
          (map M_text (ee_messages e), apply_entry_effects b2 e)
        else ([], b2) in
      '(hazard_msgs, b4) ← _apply_entry_hazards E b3 s new_n;
      old_final ← get_pokemon b4 s old_n;
      new_final ← get_pokemon b4 s new_n;
      let lead_messages :=
        if forced
        then [M_sent_out (battler_name x) (species_name new_final)]
        else [M_withdrew (battler_name x) (species_name old_final);
              M_go (species_name new_final)] in
      Some (lead_messages ++ ability_msgs ++ hazard_msgs, b4)
  end.

(** The error replies of the registry. *)
Inductive Error :=
| Battle_not_found
| No_forced_switch_is_pending
| Invalid_party_slot
| That_Pokemon_cant_battle
| You_must_switch
| Waiting_for_opponent_to_switch
| Battle_is_already_over
| Invalid_battler_ID.

Inductive Reply := R_error (e : Error) | R_messages (m : list Msg).

(** The body of [force_switch] once the battle is found. *)
Definition force_switch_on (E : BattleEngine) (b : BattleState)
    (id : Z) (position : Z) : option (Reply * BattleState) :=
  if negb (bool_decide (phase b = FORCED_SWITCH))
     || negb (bool_decide (forced_switch_battler_id b = Some id))
  then Some (R_error No_forced_switch_is_pending, b)
  else
    let x := battler b (side_of b id) in
    if (position <? 0) || (Z.of_nat (length (party x)) <=? position)
    then Some (R_error Invalid_party_slot, b)
    else
      target ← party x !! Z.to_nat position;
      if current_hp target <=? 0
      then Some (R_error That_Pokemon_cant_battle, b)
      else
        let action := mk_action A_switch id None None (Some position) in
        '(msgs, b1) ← _execute_switch E b action true;
        let b2 := set_phase b1 WAITING_ACTIONS in
        let b3 := set_forced_switch_battler_id b2 None in
        let b4 := set_pending_ai_switch_index b3 None in
        let b5 := set_pending_actions b4 (dict_pop id (pending_actions b4)) in
        Some (R_messages msgs, b5).

(** First party position, other than the skipped one, whose combatant has
    HP left ([for idx, p in enumerate(party): ...]). *)
Fixpoint first_healthy (skip : nat -> bool) (i : nat) (l : list Pokemon)
  : option nat :=
  match l with
  | [] => None
  | p :: r =>
      if skip i then first_healthy skip (S i) r
      else if 0 <? current_hp p then Some i
      else first_healthy skip (S i) r
  end.

(** [self.force_switch(battle.battle_id, ...)] finds the battle it is called
    for: a battle is stored under its own id. *)
Definition auto_switch_if_forced_ai (E : BattleEngine) (b : BattleState)
  : option (list Msg * BattleState) :=
  match forced_switch_battler_id b with
  | None => Some ([], b)
  | Some fid =>
      if negb (bool_decide (phase b = FORCED_SWITCH)) then Some ([], b)
      else
        let x := battler b (side_of b fid) in
        if negb (is_ai x) then Some ([], b)
        else
          let idx :=
            match pending_ai_switch_index b with
            | Some i => Some i
            | None =>
                let current_idx := head (active_positions x) in
                Z.of_nat <$>
                  first_healthy
                    (fun i => bool_decide (Some (Z.of_nat i) = current_idx))
                    0 (party x)
            end in
          match idx with
          | None => Some ([], b)
          | Some i =>
              '(r, b') ← force_switch_on E b (battler_id x) i;
              Some (match r with R_messages m => m | R_error _ => [] end, b')
          end
  end.

(** ** Move execution *)

(** The PP loop: the first slot whose id is the action's loses one PP, not
    below zero. *)
Fixpoint deduct_pp (mv : option string) (l : list MoveSlot) : list MoveSlot :=
  match l with
  | [] => []
  | m :: r =>
      if bool_decide (Some (move_id m) = mv)
      then {| move_id := move_id m; pp := Z.max 0 (pp m - 1) |} :: r
      else m :: deduct_pp mv r
  end.

Definition effectiveness_text (eff : Q) : EffText :=
  if negb (Qle_bool eff 1) then Eff_super
  else if negb (Qle_bool 1 eff) && negb (Qle_bool eff 0) then Eff_not_very
  else if Qeq_bool eff 0 then Eff_no_effect
  else Eff_none.

(** [sum(1 for p in party if p.current_hp > 0 and p != defender)], the
    defender being the object at position [skip]. *)
Fixpoint usable_count (skip : nat) (i : nat) (l : list Pokemon) : Z :=
  match l with
  | [] => 0
  | p :: r =>
      (if (0 <? current_hp p) && negb (i =? skip)%nat then 1 else 0)
      + usable_count skip (S i) r
  end.

(** The faint / daze block of [_execute_move], entered when the defender's
    HP is 0 or less.  The defender was taken from the party of [def_side],
    so that side is its owner. *)
Definition faint_or_daze (b : BattleState) (def_side : Side) (def_n : nat)
    (defender : Pokemon) : list Msg * BattleState :=
  let defender_battler := def_side in
  if bool_decide (battle_type b = WILD) && bool_decide (defender_battler = Opponent)
  then
    let b1 := put_pokemon b def_side def_n (set_current_hp defender 1) in
    ([M_dazed (species_name defender)], set_phase (set_wild_dazed b1 true) DAZED)
  else
    let x := battler b defender_battler in
    let fainted := M_fainted (species_name defender) in
    if bool_decide (defender_battler = Trainer) && negb (is_ai x) then
      if has_usable_pokemon x then
        if 0 <? usable_count def_n 0 (party x)
        then ([fainted; M_must_send_out],
              set_forced_switch_battler_id (set_phase b FORCED_SWITCH)
                                           (Some (battler_id x)))
        else ([fainted], _check_battle_end b)
      else ([fainted], b)
    else if is_ai x
            && (bool_decide (battle_type b = TRAINER)
                || bool_decide (battle_type b = PVP)) then
      if has_usable_pokemon x then
        match first_healthy (fun i => (i =? def_n)%nat) 0 (party x) with
        | Some idx =>
            ([fainted],
             set_pending_ai_switch_index
               (set_forced_switch_battler_id (set_phase b FORCED_SWITCH)
                                             (Some (battler_id x)))
               (Some (Z.of_nat idx)))
        | None => ([fainted], b)
        end
      else ([fainted], _check_battle_end b)
    else ([fainted], b).

(** The attacker and the defender of a move action: the side that acts, its
    first listed active combatant, the other side and the combatant at the
    action's target position among its active ones. *)
Definition move_attacker (b : BattleState) (action : BattleAction)
  : option (Side * nat) :=
  let att_side := side_of b (action_battler_id action) in
  actives ← get_active_pokemon (battler b att_side);
  n ← actives !! 0%nat;
  Some (att_side, n).

Definition move_defender (b : BattleState) (action : BattleAction)
  : option (Side * nat) :=
  let def_side := other_side (side_of b (action_battler_id action)) in
  actives ← get_active_pokemon (battler b def_side);
  n ← py_index actives (default 0 (target_position action));
  Some (def_side, n).

(** [_execute_move] from the PP deduction to the after-damage held-item
    effects, once the status, unknown-move, held-item and ruleset checks have
    passed: the narration so far, the battle, the defender as the hit leaves
    it and the random cursor. *)
Definition strike (E : BattleEngine) (b : BattleState)
    (action : BattleAction) (move_data : MoveData)
    (att_side : Side) (att_n : nat) (attacker : Pokemon)
    (def_side : Side) (def_n : nat) (defender : Pokemon) (g : nat)
  : list Msg * BattleState * Pokemon * nat :=
  (* Deduct PP *)
  let attacker1 :=
    set_moves attacker (deduct_pp (action_move_id action) (moves attacker)) in
  let b1 := put_pokemon b att_side att_n attacker1 in
  (* Calculate damage and apply effects *)
  let '(damage0, is_crit, effectiveness, effect_msgs) :=
    if ENHANCED_SYSTEMS_AVAILABLE E
    then calculate_damage_with_effects E attacker1 defender (action_move_id action) b1
    else (10, false, 1%Q, []) in
  let '(damage1, held_msgs, defender1, g1) :=
    if held_item_manager E
    then HeldItemManager.modify_damage (items_db E) (random_source E)
           attacker1 defender move_data damage0 g
    else (damage0, [], defender, g) in
  (* Endure check *)
  let endures :=
    (current_hp defender1 <=? damage1)
    && match status_manager defender1 with
       | Some sm => bool_decide ("endure" ∈ volatile_statuses sm)
       | None => false
       end
    && (1 <? current_hp defender1) in
  let damage2 := if endures then current_hp defender1 - 1 else damage1 in
  let endure_msgs := if endures then [M_endured (species_name defender1)] else [] in
  (* Apply damage *)
  let defender2 :=
    if 0 <? damage2
    then set_current_hp defender1 (Z.max 0 (current_hp defender1 - damage2))
    else defender1 in
  let b2 := put_pokemon b1 def_side def_n defender2 in
  let move_msg :=
    M_used (species_name attacker1) (md_name move_data)
      (if 0 <? damage2
       then Some (damage2, is_crit, effectiveness_text effectiveness) else None) in
  let '(post_msgs, attacker2) :=
    if held_item_manager E
    then HeldItemManager.apply_after_damage (items_db E) attacker1 move_data damage2
    else ([], attacker1) in
  let b3 := put_pokemon b2 att_side att_n attacker2 in
  (move_msg :: map M_text effect_msgs ++ held_msgs ++ endure_msgs ++ post_msgs,
   b3, defender2, g1).

(** [strike], then the faint / daze check. *)
Definition perform_move (E : BattleEngine) (b : BattleState)
    (action : BattleAction) (move_data : MoveData)
    (att_side : Side) (att_n : nat) (attacker : Pokemon)
    (def_side : Side) (def_n : nat) (defender : Pokemon) (g : nat)
  : list Msg * BattleState * nat :=
  let '(msgs, b3, defender2, g1) :=
    strike E b action move_data att_side att_n attacker def_side def_n defender g in
  let '(faint_msgs, b4) :=
    if current_hp defender2 <=? 0
    then faint_or_daze b3 def_side def_n defender2
    else ([], b3) in
  (msgs ++ faint_msgs, b4, g1).

(** The reason, if any, for which [_execute_move] returns before the PP
    deduction, with its narration; [inr] carries the move descriptor. *)
Definition move_refusal (E : BattleEngine) (b : BattleState)
    (action : BattleAction) (attacker : Pokemon) : Msg + MoveData :=
  let prevented :=
    if ENHANCED_SYSTEMS_AVAILABLE E && bool_decide (is_Some (status_manager attacker))
    then let '(ok, prevention_msg) := can_move E attacker in
         if ok then None else Some prevention_msg
    else None in
  match prevented with
  | Some prevention_msg => inl (M_text prevention_msg)
  | None =>
      match get_move E (action_move_id action) with
      | None => inl (M_unknown_move (species_name attacker))
      | Some move_data =>
          let restriction :=
            if held_item_manager E
            then HeldItemManager.check_move_restrictions (items_db E) attacker move_data
            else None in
          match restriction with
          | Some r => inl r
          | None =>
              match ruleset b with
              | Some rs =>
                  let '(ok, reason) := is_move_allowed E (action_move_id action) rs in
                  if ok then inr move_data
                  else inl (M_banned (species_name attacker) (md_name move_data) reason)
              | None => inr move_data
              end
          end
      end
  end.

Definition _execute_move (E : BattleEngine) (b : BattleState)
    (action : BattleAction) (g : nat) : option (list Msg * BattleState * nat) :=
  '(att_side, att_n) ← move_attacker b action;
  '(def_side, def_n) ← move_defender b action;
  attacker ← get_pokemon b att_side att_n;
  defender ← get_pokemon b def_side def_n;
  match move_refusal E b action attacker with
  | inl msg => Some ([msg], b, g)
  | inr move_data =>
      Some (perform_move E b action move_data att_side att_n attacker
                         def_side def_n defender g)
  end.

(** ** Item, flee and dispatch *)

Definition _execute_item (b : BattleState) (action : BattleAction)
  : list Msg * BattleState :=
  ([M_used_item (action_item_id action)], b).

Definition _execute_flee (E : BattleEngine) (b : BattleState)
    (action : BattleAction) (g : nat) : list Msg * BattleState * nat :=
  if negb (bool_decide (battle_type b = WILD)) then ([M_cant_flee_trainer], b, g)
  else
    let '(r, g') := random (random_source E) g in
    if negb (Qle_bool (1 # 2) r)
    then ([M_got_away], set_winner (set_fled (set_is_over b true) true) None, g')
    else ([M_cant_escape], b, g').

Definition _execute_action (E : BattleEngine) (b : BattleState)
    (action : BattleAction) (g : nat) : option (list Msg * BattleState * nat) :=
  match action_type action with
  | A_move => _execute_move E b action g
  | A_switch => '(m, b') ← _execute_switch E b action false; Some (m, b', g)
  | A_item => let '(m, b') := _execute_item b action in Some (m, b', g)
  | A_flee => Some (_execute_flee E b action g)
  end.

(** ** End of turn *)

(** The active combatants of both sides, trainer's first, as references. *)
Definition active_refs (b : BattleState) (s : Side) : option (list (Side * nat)) :=
  ns ← get_active_pokemon (battler b s); Some (map (fun n => (s, n)) ns).

Definition eot_status_step (E : BattleEngine) (acc : list Msg * BattleState)
    (ref : Side * nat) : list Msg * BattleState :=
  let '(msgs, b) := acc in
  let '(s, n) := ref in
  match get_pokemon b s n with
  | None => acc
  | Some p0 =>
      let '(m1, p1) :=
        match status_manager p0 with
        | Some _ =>
            let '(status_msgs, p) := apply_end_of_turn_effects E p0 in
            (map M_text status_msgs, p)
        | None => ([], p0)
        end in
      let '(m2, p2) :=
        if held_item_manager E
        then HeldItemManager.process_end_of_turn (items_db E) p1
        else ([], p1) in
      (msgs ++ m1 ++ m2, put_pokemon b s n p2)
  end.

Definition eot_weather_step (E : BattleEngine) (w : string)
    (acc : list Msg * BattleState) (ref : Side * nat) : list Msg * BattleState :=
  let '(msgs, b) := acc in
  let '(s, n) := ref in
  match get_pokemon b s n with
  | None => acc
  | Some p0 =>
      let '(weather_msg, p1) := apply_weather_damage E p0 w in
      let '(heal_msg, p2) := apply_weather_healing E p1 w in
      (msgs ++ map M_text (filter (fun m => truthy_str m = true) (option_list weather_msg))
            ++ map M_text (filter (fun m => truthy_str m = true) (option_list heal_msg)),
       put_pokemon b s n p2)
  end.

Definition _process_end_of_turn (E : BattleEngine) (b : BattleState)
  : option (list Msg * BattleState) :=
  if negb (ENHANCED_SYSTEMS_AVAILABLE E) then Some ([], b)
  else
    (* Status damage *)
    ts ← active_refs b Trainer;
    os ← active_refs b Opponent;
    let '(m1, b1) := foldl (eot_status_step E) ([], b) (ts ++ os) in
    (* Weather effects *)
    '(m2, b2) ←
      match weather b1 with
      | Some w =>
          if truthy_str w then
            ts' ← active_refs b1 Trainer;
            let '(mt, bt) := foldl (eot_weather_step E w) (m1, b1) ts' in
            os' ← active_refs bt Opponent;
            let '(mo, bo) := foldl (eot_weather_step E w) (mt, bt) os' in
            let bw := set_weather_turns bo (weather_turns bo - 1) in
            if weather_turns bw <=? 0
            then Some (mo ++ [M_weather_subsided w], set_weather bw None)
            else Some (mo, bw)
          else Some (m1, b1)
      | None => Some (m1, b1)
      end;
    (* Terrain effects *)
    match terrain b2 with
    | Some t =>
        if truthy_str t then
          let bt := set_terrain_turns b2 (terrain_turns b2 - 1) in
          if terrain_turns bt <=? 0
          then Some (m2 ++ [M_terrain_faded t], set_terrain bt None)
          else Some (m2, bt)
        else Some (m2, b2)
    | None => Some (m2, b2)
    end.

(** ** AI actions *)

Definition generate_ai_action (E : BattleEngine) (b : BattleState) (id : Z)
    (g : nat) : option (BattleAction * nat) :=
  let x := battler b (side_of b id) in
  actives ← get_active_pokemon x;
  n ← actives !! 0%nat;
  active_pokemon ← party x !! n;
  let usable_moves := filter (fun m => 0 < pp m) (moves active_pokemon) in
  match usable_moves with
  | [] => Some (mk_action A_move id (Some "struggle") (Some 0) None, g)
  | _ =>
      let '(i, g') :=
        random_below (random_source E) (Z.of_nat (length usable_moves)) g in
      chosen_move ← usable_moves !! Z.to_nat i;
      Some (mk_action A_move id (Some (move_id chosen_move)) (Some 0) None, g')
  end.

(** ** Turn processing *)

Definition ensure_ai_action (E : BattleEngine) (s : Side) (b : BattleState)
    (g : nat) : option (BattleState * nat) :=
  let x := battler b s in
  if is_ai x && negb (dict_mem (battler_id x) (pending_actions b)) then
    '(action, g') ← generate_ai_action E b (battler_id x) g;
    Some (set_pending_actions b (dict_set (battler_id x) action (pending_actions b)),
          g')
  else Some (b, g).

(** [all(p.current_hp <= 0 for p in active_pokemon)] *)
Definition all_fainted (x : Battler) (actives : list nat) : bool :=
  forallb (fun n => match party x !! n with
                    | Some p => current_hp p <=? 0
                    | None => true
                    end) actives.

(** The action loop of [process_turn]; [sw] accumulates
    [manual_switch_messages]. *)
Fixpoint run_actions (E : BattleEngine) (actions : list BattleAction)
    (b : BattleState) (g : nat) (sw : list Msg)
  : option (BattleState * nat * list Msg) :=
  match actions with
  | [] => Some (b, g, sw)
  | action :: rest =>
      if is_over b || wild_dazed b then Some (b, g, sw)
      else
        let x := battler b (side_of b (action_battler_id action)) in
        active_pokemon ← get_active_pokemon x;
        if bool_decide (active_pokemon = []) || all_fainted x active_pokemon
        then run_actions E rest b g sw
        else if bool_decide (phase b = FORCED_SWITCH)
                && bool_decide (forced_switch_battler_id b = Some (battler_id x))
                && negb (bool_decide (action_type action = A_switch))
        then run_actions E rest b g sw
        else
          '(msgs, b', g') ← _execute_action E b action g;
          if bool_decide (action_type action = A_switch)
          then run_actions E rest b' g' (sw ++ msgs)
          else run_actions E rest (set_turn_log b' (turn_log b' ++ msgs)) g' sw
  end.

(** The dictionary [process_turn] returns. *)
Inductive TurnResult :=
| T_error (e : Error)
| T_done (turn : Z) (messages switch_messages : list Msg)
         (over : bool) (win : option Winner).

(** [process_turn] after the action loop: end-of-turn effects, the queued
    AI switch, the terminal check and the bookkeeping. *)
Definition finish_turn (E : BattleEngine) (b4 : BattleState) (g4 : nat)
    (manual_switch_messages : list Msg)
  : option (TurnResult * BattleState * nat) :=
  (* End of turn effects *)
  '(eot_messages, auto_switch_messages, b5) ←
    (if wild_dazed b4 then Some ([], [], b4)
     else
       '(eot, b') ← _process_end_of_turn E b4;
       '(auto, b'') ← auto_switch_if_forced_ai E b';
       Some (eot, auto, b''));
  let b6 := set_turn_log b5 (turn_log b5 ++ eot_messages) in
  let switch_messages := manual_switch_messages ++ auto_switch_messages in
  (* Check for battle end *)
  let b7 := _check_battle_end b6 in
  (* Clear pending actions, increment turn *)
  let b8 := set_pending_actions b7 [] in
  let b9 := set_turn_number b8 (turn_number b8 + 1) in
  Some (T_done (turn_number b9 - 1) (turn_log b9) switch_messages
               (is_over b9) (winner b9), b9, g4).

(** The body of [process_turn] once the battle is found. *)
Definition resolve_turn (E : BattleEngine) (b : BattleState) (g : nat)
  : option (TurnResult * BattleState * nat) :=
  (* Generate AI actions if needed *)
  '(b1, g1) ← ensure_ai_action E Trainer b g;
  '(b2, g2) ← ensure_ai_action E Opponent b1 g1;
  (* Clear turn log *)
  let b3 := set_turn_log b2 [] in
  (* Sort actions by priority and speed *)
  actions ← _sort_actions E b3 (dict_values (pending_actions b3));
  (* Execute actions in order *)
  '(b4, g4, manual_switch_messages) ← run_actions E actions b3 g2 [];
  finish_turn E b4 g4 manual_switch_messages.

(** ** Action registration *)

Inductive RegisterResult :=
| Reg_error (e : Error)
| Reg_ok (waiting_for : list Z) (ready_to_resolve : bool).

Definition register_action_on (b : BattleState) (id : Z) (action : BattleAction)
  : RegisterResult * BattleState :=
  let gate :=
    if bool_decide (phase b = FORCED_SWITCH) then
      if bool_decide (forced_switch_battler_id b = Some id) then
        if negb (bool_decide (action_type action = A_switch))
        then inl You_must_switch
        else inr (set_forced_switch_battler_id (set_phase b WAITING_ACTIONS) None)
      else inl Waiting_for_opponent_to_switch
    else inr b in
  match gate with
  | inl e => (Reg_error e, b)
  | inr b1 =>
      if is_over b1 then (Reg_error Battle_is_already_over, b1)
      else if negb ((id =? battler_id (trainer b1)) || (id =? battler_id (opponent b1)))
      then (Reg_error Invalid_battler_ID, b1)
      else
        let b2 := set_pending_actions b1 (dict_set id action (pending_actions b1)) in
        let required_actions :=
          (if is_ai (trainer b2) then [] else [battler_id (trainer b2)])
          ++ (if is_ai (opponent b2) then [] else [battler_id (opponent b2)]) in
        (Reg_ok (filter (fun rid => dict_mem rid (pending_actions b2) = false)
                        required_actions)
                (forallb (fun rid => dict_mem rid (pending_actions b2)) required_actions),
         b2)
  end.

(** ** The registry: [self.active_battles] and the random cursor *)

Record EngineState := {
  active_battles : gmap string BattleState;
  rng : nat
}.

Definition store (st : EngineState) (battle_id : string) (b : BattleState) (g : nat)
  : EngineState :=
  {| active_battles := <[battle_id := b]> (active_battles st); rng := g |}.

Definition register_action (st : EngineState) (battle_id : string) (id : Z)
    (action : BattleAction) : RegisterResult * EngineState :=
  match active_battles st !! battle_id with
  | None => (Reg_error Battle_not_found, st)
  | Some b =>
      let '(r, b') := register_action_on b id action in
      (r, store st battle_id b' (rng st))
  end.

Definition process_turn (E : BattleEngine) (st : EngineState) (battle_id : string)
  : option (TurnResult * EngineState) :=
  match active_battles st !! battle_id with
  | None => Some (T_error Battle_not_found, st)
  | Some b =>
      '(r, b', g') ← resolve_turn E b (rng st);
      Some (r, store st battle_id b' g')
  end.

Definition force_switch (E : BattleEngine) (st : EngineState) (battle_id : string)
    (id : Z) (switch_to : Z) : option (Reply * EngineState) :=
  match active_battles st !! battle_id with
  | None => Some (R_error Battle_not_found, st)
  | Some b =>
      '(r, b') ← force_switch_on E b id switch_to;
      Some (r, store st battle_id b' (rng st))
  end.

Definition get_battle (st : EngineState) (battle_id : string) : option BattleState :=
  active_battles st !! battle_id.

Definition end_battle (st : EngineState) (battle_id : string) : EngineState :=
  {| active_battles := delete battle_id (active_battles st); rng := rng st |}.

(** ** Battle initialisation *)

Definition entry_step (E : BattleEngine) (s : Side)
    (acc : option (list Msg * BattleState)) (n : nat)
  : option (list Msg * BattleState) :=
  '(msgs, b) ← acc;
  pokemon ← get_pokemon b s n;
  let e := trigger_on_entry E pokemon b in
  '(hazard_msgs, b') ← _apply_entry_hazards E (apply_entry_effects b e) s n;
  Some (msgs ++ map M_text (ee_messages e) ++ hazard_msgs, b').

Definition _trigger_entry_abilities (E : BattleEngine) (b : BattleState)
  : option (list Msg * BattleState) :=
  if negb (ENHANCED_SYSTEMS_AVAILABLE E) then Some ([], b)
  else
    ts ← get_active_pokemon (trainer b);
    '(m1, b1) ← foldl (entry_step E Trainer) (Some ([], b)) ts;
    os ← get_active_pokemon (opponent b1);
    foldl (entry_step E Opponent) (Some (m1, b1)) os.

(** [list(range(n))] *)
Definition py_range (n : nat) : list Z := map Z.of_nat (seq 0 n).

(** [start_battle]; the id is the one [uuid.uuid4()] yields, [None] is the
    [ValueError] raised for an empty party.  An exception inside the entry
    hook is swallowed by the source and leaves no entry messages. *)
Definition start_battle (E : BattleEngine) (st : EngineState) (battle_id : string)
    (trainer_id : Z) (trainer_name : string)
    (trainer_party opponent_party : list Pokemon)
    (type : BattleType) (format : BattleFormat)
    (opponent_id : option Z) (opponent_name : option string)
    (opponent_is_ai is_ranked_battle : bool)
    (npc_class : option string) (prize : Z)
  : option (string * EngineState) :=
  if (length trainer_party =? 0)%nat || (length opponent_party =? 0)%nat then None
  else
    let active_slot_count := if bool_decide (format = DOUBLES) then 2%nat else 1%nat in
    let positions (p : list Pokemon) :=
      match py_range (Nat.min (length p) active_slot_count) with
      | [] => [0]
      | l => l
      end in
    let trainer_side :=
      {| battler_id := trainer_id; battler_name := trainer_name;
         party := trainer_party; active_positions := positions trainer_party;
         is_ai := false; can_switch := true; can_use_items := true;
         can_flee := bool_decide (type = WILD);
         trainer_class := None; prize_money := 0 |} in
    let '(oid, g) :=
      match opponent_id with
      | Some i => (i, rng st)
      | None =>
          if bool_decide (type = WILD) then (-1, rng st)
          else let '(r, g') := random_below (random_source E) 9000 (rng st) in
               (- (1000 + r), g')
      end in
    let opponent_side :=
      {| battler_id := oid;
         battler_name :=
           (if truthy_opt opponent_name then default "" opponent_name
            else if bool_decide (type = WILD)
                 then ("Wild Pok" ++ String (ascii_of_nat 233) "mon")%string
                 else "Opponent");
         party := opponent_party; active_positions := positions opponent_party;
         is_ai := opponent_is_ai;
         can_switch := negb (bool_decide (type = WILD));
         can_use_items := bool_decide (type = TRAINER);
         can_flee := false;
         trainer_class := npc_class; prize_money := prize |} in
    let battle :=
      {| battle_type := type; battle_format := format;
         trainer := trainer_side; opponent := opponent_side;
         turn_number := 1; phase := START; forced_switch_battler_id := None;
         is_over := false; winner := None; fled := false;
         weather := None; weather_turns := 0; terrain := None; terrain_turns := 0;
         trainer_hazards := ∅; opponent_hazards := ∅;
         trainer_screens := ∅; opponent_screens := ∅;
         pending_actions := []; battle_log := []; turn_log := [];
         pending_ai_switch_index := None; catch_attempted := false;
         wild_dazed := false; is_ranked := is_ranked_battle;
         ruleset := None; entry_messages := [] |} in
    let battle1 :=
      match _trigger_entry_abilities E battle with
      | Some (msgs, b') => set_entry_messages b' msgs
      | None => set_entry_messages battle []
      end in
    let battle2 :=
      set_ruleset battle1
        (Some (default "standardnatdex" (resolve_default_ruleset E "nat"))) in
    Some (battle_id, store st battle_id battle2 g).

Definition start_wild_battle (E : BattleEngine) (st : EngineState)
    (battle_id : string) (trainer_id : Z) (trainer_name : string)
    (trainer_party : list Pokemon) (wild_pokemon : Pokemon)
  : option (string * EngineState) :=
  start_battle E st battle_id trainer_id trainer_name trainer_party
    [wild_pokemon] WILD SINGLES None
    (Some ("Wild " ++ species_name wild_pokemon)%string) true false None 0.

(** ** Concrete scenarios

    Databases, combatants and battles used to run the engine on explicit
    inputs. *)

Definition no_effect : EffectData :=
  {| blocks_status_moves := false; locks_move := false; effect_type := None;
     power_multiplier := None; stat := None; multiplier := None;
     prevents_ko := false; requires_full_hp := false; activation_chance := None;
     one_time_use := false; recoil_percent := None; heal_percent := None |}.

Definition mk_pokemon (name : string) (hp hp_max spd : Z) (types : list string)
    (mv : list MoveSlot) (held : option string) : Pokemon :=
  {| species_name := name; current_hp := hp; max_hp := hp_max; speed := spd;
     moves := mv; held_item := held; _consumed_items := ∅;
     _choice_locked_move := None; species_data := Some types;
     ability := None; ability_name := None; status_manager := None;
     stat_stages := None |}.

Definition tackle : MoveData :=
  {| md_id := Some "tackle"; md_name := "Tackle"; md_type := Some "normal";
     md_category := Some "physical"; md_priority := Some 0 |}.

Definition tackle_slot : MoveSlot := {| move_id := "tackle"; pp := 35 |}.

Definition no_entry_effects : EntryEffects :=
  {| ee_messages := []; ee_weather := id; ee_weather_turns := id;
     ee_terrain := id; ee_terrain_turns := id;
     ee_trainer := fun _ p => p; ee_opponent := fun _ p => p |}.

(** An engine without the enhanced subsystems: every move deals the fixed
    10 damage.  The type chart rates rock against normal as neutral, against
    fire and flying as double (the latter spelled as an integer) and against
    fighting as half. *)
Definition basic_engine (db : option ItemsDB) (draws : nat -> Q) : BattleEngine :=
  {| get_move := fun m => if bool_decide (m = Some "tackle") then Some tackle else None;
     type_chart :=
       {[ "rock" := {[ "normal" := P_float (fl 1); "fire" := P_float (fl 2);
                       "flying" := P_int 2; "fighting" := P_float (fl (1 # 2)) ]} ]};
     items_db := db;
     resolve_default_ruleset := fun _ => Some "standardnatdex";
     is_move_allowed := fun _ _ => (true, "");
     ENHANCED_SYSTEMS_AVAILABLE := false;
     calculate_damage_with_effects := fun _ _ _ _ => (10, false, 1%Q, []);
     get_speed := fun p => Some (speed p);
     can_move := fun _ => (true, "");
     can_apply_status := fun _ _ => true;
     apply_status := fun p _ => (true, "was poisoned!", p);
     apply_end_of_turn_effects := fun p => ([], p);
     trigger_on_entry := fun _ _ => no_entry_effects;
     apply_weather_damage := fun p _ => (None, p);
     apply_weather_healing := fun p _ => (None, p);
     random_source := draws |}.

Definition plain_engine : BattleEngine := basic_engine None (fun _ => 0%Q).

Definition empty_engine_state : EngineState := {| active_battles := ∅; rng := 0 |}.

Definition move_tackle (id : Z) : BattleAction :=
  mk_action A_move id (Some "tackle") (Some 0) None.

Definition switch_to (id : Z) (slot : Z) : BattleAction :=
  mk_action A_switch id None None (Some slot).

(** *** A wild battle whose trainer holds a recoil item *)

Definition life_orb : Item :=
  {| item_id := "life_orb"; item_name := Some "Life Orb"; trigger := None;
     effect_data :=
       {| blocks_status_moves := false; locks_move := false; effect_type := None;
          power_multiplier := None; stat := None; multiplier := None;
          prevents_ko := false; requires_full_hp := false;
          activation_chance := None; one_time_use := false;
          recoil_percent := Some (P_int 10); heal_percent := None |} |}.

Definition focus_sash : Item :=
  {| item_id := "focus_sash"; item_name := Some "Focus Sash";
     trigger := Some "before_damage";
     effect_data :=
       {| blocks_status_moves := false; locks_move := false; effect_type := None;
          power_multiplier := None; stat := None; multiplier := None;
          prevents_ko := true; requires_full_hp := true;
          activation_chance := None; one_time_use := true;
          recoil_percent := None; heal_percent := None |} |}.

(** A survival item whose [trigger] is not [before_damage]. *)
Definition late_charm : Item :=
  {| item_id := "late_charm"; item_name := None; trigger := Some "after_damage";
     effect_data :=
       {| blocks_status_moves := false; locks_move := false; effect_type := None;
          power_multiplier := None; stat := None; multiplier := None;
          prevents_ko := true; requires_full_hp := false;
          activation_chance := None; one_time_use := false;
          recoil_percent := None; heal_percent := None |} |}.

(** A survival item that activates one time in ten. *)
Definition focus_band : Item :=
  {| item_id := "focus_band"; item_name := Some "Focus Band"; trigger := None;
     effect_data :=
       {| blocks_status_moves := false; locks_move := false; effect_type := None;
          power_multiplier := None; stat := None; multiplier := None;
          prevents_ko := false; requires_full_hp := false;
          activation_chance := Some (1 # 10); one_time_use := false;
          recoil_percent := None; heal_percent := None |} |}.

Definition sample_items : ItemsDB := fun id =>
  if String.eqb id "life_orb" then Some life_orb
  else if String.eqb id "focus_sash" then Some focus_sash
  else if String.eqb id "late_charm" then Some late_charm
  else if String.eqb id "focus_band" then Some focus_band
  else None.

Definition item_engine : BattleEngine :=
  basic_engine (Some sample_items) (fun _ => 1 # 2).

(** A held item that raises the speed by a tenth, and a duel in which the
    trainer's combatant (speed 55) holds it and the opponent's (speed 60)
    holds nothing. *)
Definition swift_charm : Item :=
  {| item_id := "swift_charm"; item_name := Some "Swift Charm"; trigger := None;
     effect_data :=
       {| blocks_status_moves := false; locks_move := false; effect_type := None;
          power_multiplier := None; stat := Some "speed";
          multiplier := Some (P_float (fl (11 # 10)));
          prevents_ko := false; requires_full_hp := false;
          activation_chance := None; one_time_use := false;
          recoil_percent := None; heal_percent := None |} |}.

Definition charm_engine : BattleEngine :=
  basic_engine (Some (fun id => if String.eqb id "swift_charm"
                                then Some swift_charm else None))
               (fun _ => 0%Q).

(** The trainer's only combatant has 1 HP left and holds the recoil item;
    the wild combatant has 5 HP. *)
Definition orb_holder : Pokemon :=
  mk_pokemon "Raticate" 1 50 80 ["normal"] [tackle_slot] (Some "life_orb").

Definition wild_pidgey : Pokemon :=
  mk_pokemon "Pidgey" 5 30 20 ["normal"] [tackle_slot] None.

(** One resolved turn of a wild battle: the trainer's side registers
    [tackle], the wild side is driven by the AI. *)
Definition wild_turn (E : BattleEngine) (mine : list Pokemon) (wild : Pokemon)
  : option (TurnResult * BattleState) :=
  '(bid, st1) ← start_wild_battle E empty_engine_state "battle-1" 7 "Red" mine wild;
  let '(_, st2) := register_action st1 bid 7 (move_tackle 7) in
  '(r, st3) ← process_turn E st2 bid;
  b ← get_battle st3 bid;
  Some (r, b).

(** *** A trainer battle against an AI side with two combatants *)

Definition bulky : Pokemon :=
  mk_pokemon "Snorlax" 200 200 90 ["normal"] [tackle_slot] None.

Definition frail (name : string) : Pokemon :=
  mk_pokemon name 5 40 30 ["normal"] [tackle_slot] None.

Definition trainer_battle_after (turns : nat) : option (TurnResult * BattleState) :=
  '(bid, st1) ←
    start_battle plain_engine empty_engine_state "battle-2" 7 "Red" [bulky]
      [frail "Rattata"; frail "Zubat"] TRAINER SINGLES None (Some "Joey") true
      false (Some "Youngster") 100;
  let step (acc : option (TurnResult * EngineState)) (_ : nat) :=
    '(_, st) ← acc;
    let '(_, st') := register_action st bid 7 (move_tackle 7) in
    process_turn plain_engine st' bid in
  '(r, st2) ← foldl step (Some (T_error Battle_not_found, st1)) (seq 0 turns);
  b ← get_battle st2 bid;
  Some (r, b).

(** *** A player-versus-player battle in which both sides switch *)

Definition pvp_battle : option BattleState :=
  '(bid, st1) ←
    start_battle plain_engine empty_engine_state "battle-3" 7 "Red"
      [mk_pokemon "Slowpoke" 90 90 15 ["water"] [tackle_slot] None;
       mk_pokemon "Onix" 35 35 70 ["rock"] [tackle_slot] None]
      [mk_pokemon "Jolteon" 65 65 130 ["electric"] [tackle_slot] None;
       mk_pokemon "Eevee" 55 55 55 ["normal"] [tackle_slot] None]
      PVP SINGLES (Some 8) (Some "Blue") false false None 0;
  get_battle st1 bid.

(** *** Entry hazards *)

Definition blank_battle (type : BattleType) (format : BattleFormat)
    (mine theirs : list Pokemon) (my_active their_active : list Z) : BattleState :=
  {| battle_type := type; battle_format := format;
     trainer :=
       {| battler_id := 7; battler_name := "Red"; party := mine;
          active_positions := my_active; is_ai := false; can_switch := true;
          can_use_items := true; can_flee := false; trainer_class := None;
          prize_money := 0 |};
     opponent :=
       {| battler_id := 8; battler_name := "Blue"; party := theirs;
          active_positions := their_active; is_ai := false; can_switch := true;
          can_use_items := false; can_flee := false; trainer_class := None;
          prize_money := 0 |};
     turn_number := 1; phase := WAITING_ACTIONS; forced_switch_battler_id := None;
     is_over := false; winner := None; fled := false;
     weather := None; weather_turns := 0; terrain := None; terrain_turns := 0;
     trainer_hazards := ∅; opponent_hazards := ∅;
     trainer_screens := ∅; opponent_screens := ∅;
     pending_actions := []; battle_log := []; turn_log := [];
     pending_ai_switch_index := None; catch_attempted := false;
     wild_dazed := false; is_ranked := false;
     ruleset := Some "standardnatdex"; entry_messages := [] |}.

Definition hundred_hp (types : list string) : Pokemon :=
  mk_pokemon "Entrant" 100 100 50 types [tackle_slot] None.

(** Stealth rock and two layers of spikes wait on the trainer's side; the
    entrant is the second member of the party. *)
Definition rocks_and_spikes : BattleState :=
  set_trainer_hazards
    (blank_battle PVP SINGLES [hundred_hp ["normal"]; hundred_hp ["normal"]]
                  [hundred_hp ["normal"]] [0] [0])
    {[ "stealth_rock" := 1; "spikes" := 2 ]}.


(** Two layers of toxic spikes wait for an entrant of the given types. *)
Definition toxic_field (types : list string) : BattleState :=
  set_trainer_hazards
    (blank_battle PVP SINGLES [hundred_hp ["normal"]; hundred_hp types]
                  [hundred_hp ["normal"]] [0] [0])
    {[ "toxic_spikes" := 2 ]}.

(** An engine whose status manager marks the combatant: a combatant that
    has no major status yet can be given one. *)
Definition with_major_status (p : Pokemon) (status : string) : Pokemon :=
  {| species_name := species_name p; current_hp := current_hp p;
     max_hp := max_hp p; speed := speed p; moves := moves p;
     held_item := held_item p; _consumed_items := _consumed_items p;
     _choice_locked_move := _choice_locked_move p;
     species_data := species_data p; ability := ability p;
     ability_name := ability_name p;
     status_manager :=
       Some {| major_status := Some status;
               volatile_statuses :=
                 default [] (volatile_statuses <$> status_manager p) |};
     stat_stages := stat_stages p |}.

Definition status_engine : BattleEngine :=
  {| get_move := get_move plain_engine;
     type_chart := type_chart plain_engine;
     items_db := None;
     resolve_default_ruleset := resolve_default_ruleset plain_engine;
     is_move_allowed := is_move_allowed plain_engine;
     ENHANCED_SYSTEMS_AVAILABLE := false;
     calculate_damage_with_effects := calculate_damage_with_effects plain_engine;
     get_speed := get_speed plain_engine;
     can_move := can_move plain_engine;
     can_apply_status := fun p _ =>
       bool_decide (status_manager p ≫= major_status = None);
     apply_status := fun p status =>
       (true,
        if String.eqb status "tox" then "was badly poisoned!" else "was poisoned!",
        with_major_status p status);
     apply_end_of_turn_effects := apply_end_of_turn_effects plain_engine;
     trigger_on_entry := trigger_on_entry plain_engine;
     apply_weather_damage := apply_weather_damage plain_engine;
     apply_weather_healing := apply_weather_healing plain_engine;
     random_source := random_source plain_engine |}.

(** A healthy 100-HP entrant with a status manager, and the field of toxic
    spikes and sticky web it arrives on. *)
Definition healthy (types : list string) : Pokemon :=
  {| species_name := "Entrant"; current_hp := 100; max_hp := 100; speed := 50;
     moves := [tackle_slot]; held_item := None; _consumed_items := ∅;
     _choice_locked_move := None; species_data := Some types;
     ability := None; ability_name := None;
     status_manager := Some {| major_status := None; volatile_statuses := [] |};
     stat_stages := None |}.

Definition toxic_web_field (layers : Z) (types : list string) : BattleState :=
  set_trainer_hazards
    (blank_battle PVP SINGLES [hundred_hp ["normal"]; healthy types]
                  [hundred_hp ["normal"]] [0] [0])
    {[ "toxic_spikes" := layers; "sticky_web" := 1 ]}.

Definition charm_duel : BattleState :=
  blank_battle PVP SINGLES
    [mk_pokemon "Holder" 100 100 55 ["normal"] [tackle_slot] (Some "swift_charm")]
    [mk_pokemon "Rival" 100 100 60 ["normal"] [tackle_slot] None] [0] [0].

(** A doubles battle; the trainer's two active combatants are the first two
    of three. *)
Definition doubles_battle : BattleState :=
  blank_battle PVP DOUBLES
    [mk_pokemon "Lead" 60 60 40 ["normal"] [tackle_slot] None;
     mk_pokemon "Partner" 60 60 99 ["normal"] [tackle_slot] None;
     mk_pokemon "Reserve" 60 60 10 ["normal"] [tackle_slot] None]
    [mk_pokemon "Foe" 60 60 50 ["normal"] [tackle_slot] None;
     mk_pokemon "Ally" 60 60 50 ["normal"] [tackle_slot] None]
    [0; 1] [0; 1].

(** ** The specification's formulas, as worded *)

(** The sort key as the specification words it: the class of the action and
    the effective speed of the acting side's first active combatant. *)
Definition specified_key (E : BattleEngine) (b : BattleState)
    (action : BattleAction) : option (Z * Z) :=
  let x := battler b (side_of b (action_battler_id action)) in
  actives ← get_active_pokemon x;
  n ← actives !! 0%nat;
  pokemon ← party x !! n;
  class ←
    match action_type action with
    | A_switch => Some 100
    | A_item => Some 90
    | A_move => move_data ← get_move E (action_move_id action);
                Some (default 0 (md_priority move_data))
    | A_flee => Some 0
    end;
  Some (class, _get_effective_speed E pokemon).



(** Exactly one of the listed propositions holds. *)
Definition exactly_one (l : list bool) : bool :=
  (length (filter (fun x => x = true) l) =? 1)%nat.

(** The control states the specification lists for a battle after
    [process_turn]. *)
Definition control_states (b : BattleState) : list bool :=
  [is_over b; bool_decide (phase b = FORCED_SWITCH);
   bool_decide (phase b = DAZED); bool_decide (phase b = WAITING_ACTIONS)].

(** ** Predicates used in the statements *)

(** A side is usable when some member of its party has HP left. *)
Definition usable (x : Battler) : Prop :=
  ∃ p, p ∈ party x ∧ 0 < current_hp p.

(** What the hazard engine, the on-entry hook, the end-of-turn effects and
    the writes to a combatant leave alone: the control fields of the battle
    and, for each side, everything but the combatants themselves. *)
Definition side_control (x : Battler) : Z * list Z * bool * nat :=
  (battler_id x, active_positions x, is_ai x, length (party x)).

Definition control (b : BattleState) :=
  (battle_type b, phase b, forced_switch_battler_id b, is_over b, winner b,
   pending_actions b, pending_ai_switch_index b, wild_dazed b,
   side_control (trainer b), side_control (opponent b)).

(** The order a descending sort leaves between an element and a later one:
    the later key is not greater. *)
Definition not_below {A} (x y : (Z * Z) * A) : Prop :=
  key_gtb (fst y) (fst x) = false.

(** A wild battle in which the trainer tries to flee. *)
Definition wild_battle : option BattleState :=
  '(bid, st1) ←
    start_wild_battle plain_engine empty_engine_state "battle-5" 7 "Red"
      [mk_pokemon "Raticate" 50 50 80 ["normal"] [tackle_slot] None] wild_pidgey;
  get_battle st1 bid.

Definition flee_action (id : Z) : BattleAction :=
  mk_action A_flee id None None None.

(** The phases a battle in phase [p0] can be in after a step of the turn
    resolver: the engine writes no phase but these three. *)
Definition phase_within (p0 : Phase) (b : BattleState) : Prop :=
  phase b = p0 ∨ phase b = FORCED_SWITCH ∨ phase b = DAZED
  ∨ phase b = WAITING_ACTIONS.

(** A wild battle about to resolve the trainer's move: the wild combatant
    has 5 HP left. *)
Definition wild_ready : BattleState :=
  blank_battle WILD SINGLES
    [mk_pokemon "Raticate" 50 50 80 ["normal"] [tackle_slot] None]
    [wild_pidgey] [0] [0].

(** The battle the daze branch of [_execute_move] leaves: the wild
    combatant at position [n] of the opponent's party is put at 1 HP. *)
Definition dazed (b : BattleState) (n : nat) (p : Pokemon) : BattleState :=
  set_phase (set_wild_dazed (put_pokemon b Opponent n (set_current_hp p 1)) true)
            DAZED.

(** ** Convenience starters *)

Definition start_trainer_battle (E : BattleEngine) (st : EngineState)
    (battle_id : string) (trainer_id : Z) (trainer_name : string)
    (trainer_party npc_party : list Pokemon) (npc_name npc_class : string)
    (prize : Z) (is_ranked_battle : bool) : option (string * EngineState) :=
  start_battle E st battle_id trainer_id trainer_name trainer_party npc_party
    TRAINER SINGLES None (Some npc_name) true is_ranked_battle (Some npc_class)
    prize.

Definition start_pvp_battle (E : BattleEngine) (st : EngineState)
    (battle_id : string) (trainer1_id : Z) (trainer1_name : string)
    (trainer1_party : list Pokemon) (trainer2_id : Z) (trainer2_name : string)
    (trainer2_party : list Pokemon) (format : BattleFormat)
    (is_ranked_battle : bool) : option (string * EngineState) :=
  start_battle E st battle_id trainer1_id trainer1_name trainer1_party
    trainer2_party PVP format (Some trainer2_id) (Some trainer2_name) false
    is_ranked_battle None 0.

(** ** Command parser *)

(** [needle in hay] on strings. *)
Fixpoint contains (needle hay : string) : bool :=
  String.prefix needle hay
  || match hay with
     | EmptyString => false
     | String _ r => contains needle r
     end.

(** The move loop of [CommandParser.parse]. *)
Fixpoint parse_moves (E : BattleEngine) (command : string) (id : Z)
    (mvs : list MoveSlot) : option BattleAction :=
  match mvs with
  | [] => None
  | mv :: r =>
      match get_move E (Some (move_id mv)) with
      | None => parse_moves E command id r
      | Some md =>
          let move_name :=
            lower (if truthy_str (md_name md) then md_name md
                   else default "" (md_id md)) in
          let mid := if truthy_opt (md_id md) then default "" (md_id md)
                     else move_id mv in
          if (truthy_str move_name && contains move_name command)
             || (truthy_str mid && contains mid command)
          then Some (mk_action A_move id (Some mid) (Some 0) None)
          else parse_moves E command id r
      end
  end.

(** [CommandParser.parse(command, active_pokemon, battler_id)] *)
Definition parse (E : BattleEngine) (command : string) (active_pokemon : Pokemon)
    (id : Z) : option BattleAction :=
  if negb (truthy_str command) then None
  else
    let command' := strip (lower command) in
    if existsb (fun w => contains w command') ["switch"; "swap"; "go "]
    then None
    else parse_moves E command' id (moves active_pokemon).

(** ** Reading the pending actions *)

(** [d.get(k)] on the dictionary of pending actions. *)
Fixpoint dict_get {V} (k : Z) (d : list (Z * V)) : option V :=
  match d with
  | [] => None
  | (k', v) :: r => if k' =? k then Some v else dict_get k r
  end.

(** The state [register_action] goes on with once the forced-switch gate is
    passed. *)
Definition past_gate (b : BattleState) : BattleState :=
  if bool_decide (phase b = FORCED_SWITCH)
  then set_forced_switch_battler_id (set_phase b WAITING_ACTIONS) None
  else b.

(** ** Further predicates used in the statements *)

(** What a side is set up with when the battle starts. *)
Definition side_settings (x : Battler) :=
  (battler_id x, battler_name x, is_ai x, can_switch x, can_use_items x,
   can_flee x, trainer_class x, prize_money x, length (party x)).

(** The settings of a battle: what [start_battle] fixes for its whole
    length, the size of the two parties included. *)
Definition settings (b : BattleState) :=
  (battle_type b, battle_format b, is_ranked b, ruleset b, entry_messages b,
   battle_log b, catch_attempted b, trainer_screens b, opponent_screens b,
   side_settings (trainer b), side_settings (opponent b)).

(** The field conditions and the hazards of the two sides. *)
Definition climate (b : BattleState) :=
  (weather b, weather_turns b, terrain b, terrain_turns b,
   trainer_hazards b, opponent_hazards b).

(** The settings together with the turn counter. *)
Definition frame (b : BattleState) := (settings b, turn_number b).



(** PP never goes up from one move slot to its later state, keeps its move
    and stays non-negative if it was. *)
Definition pp_not_raised (before after : MoveSlot) : Prop :=
  move_id after = move_id before ∧ pp after ≤ pp before
  ∧ (0 ≤ pp before → 0 ≤ pp after).



(** ** Further sample battles *)

(** A PvP duel of two parties of two, and the duel after the trainer's lead
    has used its move. *)
Definition duel : BattleState :=
  blank_battle PVP SINGLES
    [hundred_hp ["normal"]; hundred_hp ["normal"]]
    [hundred_hp ["normal"]; hundred_hp ["normal"]] [0] [0].

Definition duel_after_tackle : list Msg * BattleState * nat :=
  perform_move plain_engine duel (move_tackle 7) tackle Trainer 0
    (hundred_hp ["normal"]) Opponent 0 (hundred_hp ["normal"]) 0.

(** A combatant with 5 HP left that is under endure. *)
Definition enduring : Pokemon :=
  {| species_name := "Endurer"; current_hp := 5; max_hp := 100; speed := 50;
     moves := [tackle_slot]; held_item := None; _consumed_items := ∅;
     _choice_locked_move := None; species_data := Some ["normal"];
     ability := None; ability_name := None;
     status_manager :=
       Some {| major_status := None; volatile_statuses := ["endure"] |};
     stat_stages := None |}.

Definition endure_duel : BattleState :=
  blank_battle PVP SINGLES [hundred_hp ["normal"]] [enduring] [0] [0].

Definition endured_tackle : list Msg * BattleState * nat :=
  perform_move plain_engine endure_duel (move_tackle 7) tackle Trainer 0
    (hundred_hp ["normal"]) Opponent 0 enduring 0.

Definition fainted (name : string) : Pokemon :=
  mk_pokemon name 0 40 30 ["normal"] [tackle_slot] None.

(** A trainer battle in which the lead of the computer-run opponent has no
    HP left, and a battle in which the trainer's lead has none. *)
Definition npc_faint : BattleState :=
  let b := blank_battle TRAINER SINGLES [hundred_hp ["normal"]]
             [fainted "Rattata"; hundred_hp ["normal"]] [0] [0] in
  set_opponent b
    {| battler_id := -1; battler_name := "Joey";
       party := party (opponent b); active_positions := [0]; is_ai := true;
       can_switch := true; can_use_items := false; can_flee := false;
       trainer_class := Some "Youngster"; prize_money := 100 |}.

Definition human_faint_battle : BattleState :=
  blank_battle PVP SINGLES [fainted "Rattata"; hundred_hp ["normal"]]
    [hundred_hp ["normal"]] [0] [0].

(** The same battle once the faint block has run: the trainer owes a
    switch. *)
Definition human_faint_battle' : BattleState :=
  (faint_or_daze human_faint_battle Trainer 0 (fainted "Rattata")).2.

(** The duel with both sides' moves registered, stored in the registry, and
    the turn [process_turn] then resolves. *)
Definition duel_registered : BattleState :=
  (register_action_on
     (register_action_on duel 7 (move_tackle 7)).2 8 (move_tackle 8)).2.

Definition duel_ready : EngineState :=
  store empty_engine_state "battle-9" duel_registered 0.

Definition duel_turn : TurnResult * EngineState :=
  default (T_error Battle_not_found, duel_ready)
          (process_turn plain_engine duel_ready "battle-9").

(** An engine with the enhanced systems loaded, whose collaborators do
    nothing, and a duel under a rain with one turn left. *)
Definition enhanced_engine : BattleEngine :=
  {| get_move := get_move plain_engine;
     type_chart := type_chart plain_engine;
     items_db := None;
     resolve_default_ruleset := resolve_default_ruleset plain_engine;
     is_move_allowed := is_move_allowed plain_engine;
     ENHANCED_SYSTEMS_AVAILABLE := true;
     calculate_damage_with_effects := calculate_damage_with_effects plain_engine;
     get_speed := get_speed plain_engine;
     can_move := can_move plain_engine;
     can_apply_status := can_apply_status plain_engine;
     apply_status := apply_status plain_engine;
     apply_end_of_turn_effects := apply_end_of_turn_effects plain_engine;
     trigger_on_entry := trigger_on_entry plain_engine;
     apply_weather_damage := apply_weather_damage plain_engine;
     apply_weather_healing := apply_weather_healing plain_engine;
     random_source := random_source plain_engine |}.

Definition rainy_duel : BattleState :=
  set_weather_turns (set_weather duel (Some "rain")) 1.

Definition rainy_end : list Msg * BattleState :=
  default ([], rainy_duel) (_process_end_of_turn enhanced_engine rainy_duel).

(** * Properties *)

(** ** Frame lemmas *)

Lemma control_put_pokemon (b : BattleState) (s : Side) (n : nat) (p : Pokemon) :
  control (put_pokemon b s n p) = control b.
Proof.
  destruct s; unfold control, side_control, put_pokemon; simpl;
    by rewrite length_insert.
Qed.

Lemma control_set_hazards_of (b : BattleState) (s : Side) (h : gmap string Z) :
  control (set_hazards_of b s h) = control b.
Proof. by destruct s. Qed.

Lemma control_apply_entry_effects (b : BattleState) (e : EntryEffects) :
  control (apply_entry_effects b e) = control b.
Proof.
  unfold control, side_control, apply_entry_effects; simpl.
  by rewrite !length_imap.
Qed.

Lemma control_apply_entry_hazards (E : BattleEngine) (b b' : BattleState)
    (s : Side) (n : nat) (msgs : list Msg) :
  _apply_entry_hazards E b s n = Some (msgs, b') → control b' = control b.
Proof.
  unfold _apply_entry_hazards. case_bool_decide; [by intros [= _ <-]|].
  destruct (get_pokemon b s n) as [p0|]; simpl; [|discriminate].
  destruct (stealth_rock_step E _ p0) as [m1 p1].
  destruct (spikes_step _ p1) as [m2 p2].
  destruct (toxic_spikes_step E _ p2) as [[m3 p3] absorbed].
  destruct (sticky_web_step _ _ p3) as [m4 p4].
  intros [= _ <-]. destruct absorbed.
  - by rewrite control_set_hazards_of, control_put_pokemon.
  - by rewrite control_put_pokemon.
Qed.

(** Projections of an equality of control fields. *)
Lemma control_fields (b b' : BattleState) :
  control b' = control b →
  battle_type b' = battle_type b ∧ phase b' = phase b
  ∧ forced_switch_battler_id b' = forced_switch_battler_id b
  ∧ is_over b' = is_over b ∧ winner b' = winner b
  ∧ pending_actions b' = pending_actions b
  ∧ pending_ai_switch_index b' = pending_ai_switch_index b
  ∧ wild_dazed b' = wild_dazed b
  ∧ (∀ s, battler_id (battler b' s) = battler_id (battler b s))
  ∧ (∀ s, active_positions (battler b' s) = active_positions (battler b s))
  ∧ (∀ s, is_ai (battler b' s) = is_ai (battler b s))
  ∧ (∀ s, length (party (battler b' s)) = length (party (battler b s))).
Proof.
  unfold control, side_control. intros [=].
  repeat split; try done; intros []; done.
Qed.

Lemma control_side_of (b b' : BattleState) (id : Z) :
  control b' = control b → side_of b' id = side_of b id.
Proof.
  intros H. apply control_fields in H as (_&_&_&_&_&_&_&_&Hid&_).
  unfold side_of. specialize (Hid Trainer). simpl in Hid. by rewrite Hid.
Qed.

(** Reading and writing one combatant. *)
Lemma get_put_pokemon_same (b : BattleState) (s : Side) (n : nat) (p : Pokemon) :
  (n < length (party (battler b s)))%nat →
  get_pokemon (put_pokemon b s n p) s n = Some p.
Proof.
  intros Hn. unfold get_pokemon, put_pokemon.
  destruct s; simpl; by apply list_lookup_insert_eq.
Qed.

Lemma get_put_pokemon_other (b : BattleState) (s s' : Side) (n n' : nat)
    (p : Pokemon) :
  s ≠ s' → get_pokemon (put_pokemon b s' n' p) s n = get_pokemon b s n.
Proof. intros Hs. unfold get_pokemon, put_pokemon. by destruct s, s'. Qed.

Lemma party_put_pokemon_other (b : BattleState) (s s' : Side) (n' : nat)
    (p : Pokemon) :
  s ≠ s' → party (battler (put_pokemon b s' n' p) s) = party (battler b s).
Proof. intros Hs. unfold put_pokemon. by destruct s, s'. Qed.

Lemma other_side_ne (s : Side) : s ≠ other_side s.
Proof. by destruct s. Qed.

Lemma get_pokemon_set_hazards_of (b : BattleState) (s s' : Side)
    (h : gmap string Z) (n : nat) :
  get_pokemon (set_hazards_of b s h) s' n = get_pokemon b s' n.
Proof. by destruct s, s'. Qed.

Lemma get_put_pokemon_ne (b : BattleState) (s : Side) (n m : nat) (p : Pokemon) :
  m ≠ n → get_pokemon (put_pokemon b s n p) s m = get_pokemon b s m.
Proof.
  intros Hm. unfold get_pokemon, put_pokemon.
  destruct s; cbn; by apply list_lookup_insert_ne.
Qed.


(** ** Floating-point rounding *)


Lemma Qred_inject_Z (z : Z) : Qred (inject_Z z) = inject_Z z.
Proof.
  unfold Qred, inject_Z.
  pose proof (Z.ggcd_correct_divisors z 1) as Hd.
  pose proof (Z.ggcd_gcd z 1) as Hg. rewrite Z.gcd_1_r in Hg.
  destruct (Z.ggcd z 1) as [g [a b]]. cbn in *. subst g.
  destruct Hd as [-> Hb]. assert (b = 1) as -> by lia.
  f_equal. lia.
Qed.

Lemma Qpow2_pos (e : Z) : (0 < Qpow2 e)%Q.
Proof.
  unfold Qpow2. destruct (0 <=? e) eqn:He.
  - unfold Qlt, inject_Z. cbn. assert (0 < 2 ^ e) by (apply Z.pow_pos_nonneg; lia).
    lia.
  - reflexivity.
Qed.

Lemma Qround_half_even_comp (q q' : Q) :
  (q == q')%Q → Qround_half_even q = Qround_half_even q'.
Proof.
  intros H. unfold Qround_half_even. rewrite (Qfloor_comp _ _ H).
  assert (q - inject_Z (Qfloor q') == q' - inject_Z (Qfloor q'))%Q as Hm
    by (by rewrite H).
  by rewrite (Qcompare_comp _ _ Hm _ _ (Qeq_refl (1 # 2))).
Qed.

Lemma Qround_half_even_inject_Z (z : Z) : Qround_half_even (inject_Z z) = z.
Proof.
  unfold Qround_half_even. rewrite Qfloor_Z.
  assert ((inject_Z z - inject_Z z ?= 1 # 2)%Q = Lt) as ->; [|done].
  rewrite <- Qlt_alt. unfold Qlt, Qminus, Qplus, Qopp, inject_Z. cbn. lia.
Qed.

Lemma Qround_half_even_le (q : Q) (n : Z) :
  (q <= inject_Z n)%Q → Qround_half_even q ≤ n.
Proof.
  intros Hle. unfold Qround_half_even.
  assert (Qfloor q ≤ n) as Hf.
  { rewrite <- (Qfloor_Z n). by apply Qfloor_resp_le. }
  destruct (Z.eq_dec (Qfloor q) n) as [Heq|Hne].
  - assert ((q - inject_Z (Qfloor q) ?= 1 # 2)%Q = Lt) as ->; [|lia].
    rewrite <- Qlt_alt. rewrite Heq.
    apply Qle_lt_trans with 0%Q; [|reflexivity].
    unfold Qminus. rewrite <- (Qplus_opp_r (inject_Z n)).
    by apply Qplus_le_compat; [|apply Qle_refl].
  - destruct (_ ?= _)%Q; [destruct (Z.even _)|..]; lia.
Qed.

Lemma Qround_half_even_nonneg (q : Q) : (0 <= q)%Q → 0 ≤ Qround_half_even q.
Proof.
  intros H. unfold Qround_half_even.
  assert (0 ≤ Qfloor q).
  { rewrite <- (Qfloor_Z 0). by apply Qfloor_resp_le. }
  destruct (_ ?= _)%Q; [destruct (Z.even _)|..]; lia.
Qed.

Lemma round64_comp (q q' : Q) : (q == q')%Q → round64 q = round64 q'.
Proof. intros H. unfold round64. by rewrite (Qred_complete _ _ H). Qed.

(** The power of two below a positive rational. *)
Lemma Qlog2_spec (q : Q) : (0 < q)%Q → (Qpow2 (Qlog2 q) <= q)%Q.
Proof.
  intros Hq. unfold Qlog2.
  set (e := Z.log2 (Qnum q) - Z.log2 (Z.pos (Qden q))).
  destruct (Qle_bool (Qpow2 e) q) eqn:Hle; [by apply Qle_bool_iff|].
  destruct q as [n d]. cbn [Qnum Qden] in e.
  assert (0 < n) as Hn by (unfold Qlt in Hq; cbn in Hq; lia).
  pose proof (Z.log2_spec n Hn) as [Hn1 _].
  pose proof (Z.log2_spec (Z.pos d) ltac:(lia)) as [_ Hd2].
  pose proof (Z.log2_nonneg n) as Ha. pose proof (Z.log2_nonneg (Z.pos d)) as Hb.
  set (a := Z.log2 n) in *. set (b := Z.log2 (Z.pos d)) in *.
  unfold Qpow2. destruct (0 <=? e - 1) eqn:Hsign.
  - unfold Qle, inject_Z. cbn [Qnum Qden]. subst e.
    assert (2 ^ a = 2 ^ (a - b - 1) * 2 ^ Z.succ b) as Hsplit.
    { rewrite <- Z.pow_add_r by lia. f_equal. lia. }
    assert (0 < 2 ^ (a - b - 1)) by (apply Z.pow_pos_nonneg; lia).
    nia.
  - unfold Qle. cbn [Qnum Qden]. subst e.
    assert (0 < 2 ^ (- (a - b - 1))) as Hpos by (apply Z.pow_pos_nonneg; lia).
    rewrite Z2Pos.id by exact Hpos.
    assert (2 ^ Z.succ b = 2 ^ a * 2 ^ (- (a - b - 1))) as Hsplit.
    { rewrite <- Z.pow_add_r by lia. f_equal. lia. }
    nia.
Qed.

Lemma Qpow2_le_inv (e m : Z) :
  0 ≤ m → (Qpow2 e <= inject_Z (2 ^ m))%Q → e ≤ m.
Proof.
  intros Hm Hle. destruct (Z.le_gt_cases e m) as [|Hgt]; [done|].
  exfalso. unfold Qpow2 in Hle.
  assert ((0 <=? e) = true) as Hs by lia. rewrite Hs in Hle.
  unfold Qle, inject_Z in Hle. cbn in Hle.
  assert (2 ^ m < 2 ^ e) by (apply Z.pow_lt_mono_r; lia). lia.
Qed.

Lemma Qpow2_nonpos_scale (k d : Z) :
  k ≤ 0 → (inject_Z d == inject_Z (d * 2 ^ (- k)) * Qpow2 k)%Q.
Proof.
  intros Hk. unfold Qpow2. destruct (0 <=? k) eqn:Hs.
  - assert (k = 0) as -> by lia. unfold Qeq, inject_Z. cbn. lia.
  - assert (0 < 2 ^ (- k)) as Hpos by (apply Z.pow_pos_nonneg; lia).
    unfold Qeq, inject_Z, Qmult. cbn [Qnum Qden].
    rewrite Pos.mul_1_l, Z2Pos.id by exact Hpos. lia.
Qed.

(** Every integer up to [2^53] is a multiple of the spacing of the doubles
    at and below it. *)
Lemma ulp_grid (a : Q) (d : Z) :
  (0 < a)%Q → (a <= inject_Z d)%Q → d ≤ 2 ^ 53 →
  ∃ N, (inject_Z d == inject_Z N * Qpow2 (Z.max (Qlog2 a) (-1022) - 52))%Q.
Proof.
  intros Ha Hle Hd.
  pose proof (Qlog2_spec a Ha) as Hlog.
  assert (Qlog2 a ≤ 53) as HL.
  { apply Qpow2_le_inv; [lia|].
    apply Qle_trans with a; [done|]. apply Qle_trans with (inject_Z d); [done|].
    unfold Qle, inject_Z. cbn. lia. }
  destruct (Z.eq_dec (Qlog2 a) 53) as [H53|Hne].
  - rewrite H53. exists (2 ^ 52).
    assert (2 ^ 53 ≤ d) as Hd'.
    { rewrite H53 in Hlog.
      assert (Qpow2 53 <= inject_Z d)%Q as H by (by apply Qle_trans with a).
      unfold Qle, Qpow2, inject_Z in H. cbn in H. lia. }
    assert (d = 2 ^ 53) as -> by lia. reflexivity.
  - exists (d * 2 ^ (- (Z.max (Qlog2 a) (-1022) - 52))).
    apply Qpow2_nonpos_scale. lia.
Qed.

Lemma Qpow2_1024_gt (r : Q) (d : Z) :
  (r <= inject_Z d)%Q → d ≤ 2 ^ 53 → Qle_bool (Qpow2 1024) r = false.
Proof.
  intros Hr Hd. destruct (Qle_bool _ _) eqn:Hb; [|done]. exfalso.
  apply Qle_bool_iff in Hb.
  assert (Qpow2 1024 <= inject_Z d)%Q as H by (by apply Qle_trans with r).
  assert (2 ^ 53 < 2 ^ 1024) as Hlt by (by apply Z.pow_lt_mono_r).
  unfold Qle, Qpow2, inject_Z in H. cbn [Z.leb Qnum Qden] in H.
  change (0 <=? 1024) with true in H. cbv iota in H. cbn [Qnum Qden] in H.
  lia.
Qed.

(** Rounding to a double never exceeds an integer bound up to [2^53]. *)
Lemma round64_le (q : Q) (d : Z) :
  (0 < q)%Q → (q <= inject_Z d)%Q → d ≤ 2 ^ 53 →
  ∃ r, round64 q = F_finite r ∧ (0 <= r)%Q ∧ (r <= inject_Z d)%Q.
Proof.
  intros Hq Hle Hd. unfold round64.
  pose proof (Qred_correct q) as Hc. set (c := Qred q) in *.
  assert (0 < c)%Q as Hcpos by (by rewrite Hc).
  assert (Qeq_bool c 0 = false) as ->.
  { destruct (Qeq_bool c 0) eqn:Hz; [|done]. apply Qeq_bool_iff in Hz.
    rewrite Hz in Hcpos. by apply Qlt_irrefl in Hcpos. }
  assert ((Qnum c <? 0) = false) as ->.
  { unfold Qlt in Hcpos. cbn in Hcpos. lia. }
  assert (Qabs c == c)%Q as Hab by (apply Qabs_pos; by apply Qlt_le_weak).
  set (a := Qabs c) in *.
  assert (0 < a)%Q as Hapos by (by rewrite Hab).
  assert (a <= inject_Z d)%Q as Had by (by rewrite Hab, Hc).
  destruct (ulp_grid a d Hapos Had Hd) as [N HN].
  set (ulp := Qpow2 (Z.max (Qlog2 a) (-1022) - 52)) in *.
  pose proof (Qpow2_pos (Z.max (Qlog2 a) (-1022) - 52)) as Hulp. fold ulp in Hulp.
  assert (Qround_half_even (a / ulp) ≤ N) as Hround.
  { apply Qround_half_even_le. apply Qle_shift_div_r; [done|]. by rewrite <- HN. }
  assert (0 ≤ Qround_half_even (a / ulp)) as Hnonneg.
  { apply Qround_half_even_nonneg. apply Qle_shift_div_l; [done|].
    rewrite Qmult_0_l. by apply Qlt_le_weak. }
  set (m := Qround_half_even (a / ulp)) in *.
  assert (inject_Z m * ulp <= inject_Z d)%Q as Hr.
  { rewrite HN. apply Qmult_le_compat_r; [|by apply Qlt_le_weak].
    unfold Qle, inject_Z. cbn. lia. }
  rewrite (Qpow2_1024_gt _ d Hr Hd).
  eexists. split; [reflexivity|]. rewrite Qred_correct. split; [|done].
  apply Qmult_le_0_compat; [|by apply Qlt_le_weak].
  unfold Qle, inject_Z. cbn. lia.
Qed.

(** Integers up to [2^53] in magnitude are doubles. *)
Lemma round64_inject_Z (z : Z) :
  - 2 ^ 53 ≤ z ≤ 2 ^ 53 → round64 (inject_Z z) = F_finite (inject_Z z).
Proof.
  intros Hz. unfold round64. rewrite Qred_inject_Z.
  destruct (Z.eq_dec z 0) as [->|Hnz]; [reflexivity|].
  assert (Qeq_bool (inject_Z z) 0 = false) as ->.
  { destruct (Qeq_bool _ _) eqn:Hb; [|done]. apply Qeq_bool_iff in Hb.
    unfold Qeq, inject_Z in Hb. cbn in Hb. lia. }
  change (Qabs (inject_Z z)) with (inject_Z (Z.abs z)).
  change (Qnum (inject_Z z)) with z.
  set (d := Z.abs z).
  assert (0 < inject_Z d)%Q as Hpos by (unfold Qlt, inject_Z; cbn; lia).
  assert (d ≤ 2 ^ 53) as Hd by lia.
  destruct (ulp_grid (inject_Z d) d Hpos (Qle_refl _) Hd) as [N HN].
  set (ulp := Qpow2 (Z.max (Qlog2 (inject_Z d)) (-1022) - 52)) in *.
  pose proof (Qpow2_pos (Z.max (Qlog2 (inject_Z d)) (-1022) - 52)) as Hulp.
  fold ulp in Hulp.
  assert (inject_Z d / ulp == inject_Z N)%Q as Hdiv.
  { rewrite HN. apply Qdiv_mult_l. intros H0. rewrite H0 in Hulp.
    by apply Qlt_irrefl in Hulp. }
  rewrite (Qround_half_even_comp _ _ Hdiv), Qround_half_even_inject_Z.
  assert (inject_Z N * ulp <= inject_Z d)%Q as Hr by (rewrite HN; apply Qle_refl).
  rewrite (Qpow2_1024_gt _ d Hr Hd). f_equal.
  rewrite <- (Qred_inject_Z z). apply Qred_complete.
  destruct (z <? 0) eqn:Hs.
  - rewrite <- HN. unfold Qeq, Qopp, inject_Z. cbn. lia.
  - rewrite <- HN. unfold Qeq, inject_Z. cbn. lia.
Qed.

(** ** Entry hazards: the steps *)

(** The steps of [_apply_entry_hazards] on a side whose map is not empty. *)
Lemma apply_entry_hazards_steps (E : BattleEngine) (b : BattleState) (s : Side)
    (n : nat) (p0 : Pokemon) :
  get_pokemon b s n = Some p0 →
  hazards_of b s ≠ ∅ →
  let hazards := hazards_of b s in
  let r1 := stealth_rock_step E hazards p0 in
  let r2 := spikes_step hazards r1.2 in
  let r3 := toxic_spikes_step E hazards r2.2 in
  let r4 := sticky_web_step hazards (is_grounded p0) r3.1.2 in
  _apply_entry_hazards E b s n
  = Some (r1.1 ++ r2.1 ++ r3.1.1 ++ r4.1,
          if r3.2
          then set_hazards_of (put_pokemon b s n r4.2) s
                 (delete "toxic_spikes" (hazards_of (put_pokemon b s n r4.2) s))
          else put_pokemon b s n r4.2).
Proof.
  intros Hget Hne. cbv zeta. unfold _apply_entry_hazards.
  rewrite (bool_decide_eq_false_2 _ Hne), Hget. cbn [mbind option_bind].
  destruct (stealth_rock_step E (hazards_of b s) p0) as [m1 p1]. cbn [fst snd].
  destruct (spikes_step (hazards_of b s) p1) as [m2 p2]. cbn [fst snd].
  destruct (toxic_spikes_step E (hazards_of b s) p2) as [[m3 p3] absorbed].
  cbn [fst snd].
  by destruct (sticky_web_step (hazards_of b s) (is_grounded p0) p3) as [m4 p4].
Qed.

Lemma stealth_rock_step_same (E : BattleEngine) (hazards : gmap string Z)
    (pokemon : Pokemon) :
  ∃ hp, (stealth_rock_step E hazards pokemon).2 = set_current_hp pokemon hp.
Proof.
  unfold stealth_rock_step.
  destruct (bool_decide _ && bool_decide _); [|by exists (current_hp pokemon); destruct pokemon].
  destruct (0 <? _); [by eexists|by exists (current_hp pokemon); destruct pokemon].
Qed.

Lemma spikes_step_same (hazards : gmap string Z) (pokemon : Pokemon) :
  ∃ hp, (spikes_step hazards pokemon).2 = set_current_hp pokemon hp.
Proof.
  unfold spikes_step.
  destruct (hazards !! "spikes"); [|by exists (current_hp pokemon); destruct pokemon].
  destruct (is_grounded pokemon); [by eexists|by exists (current_hp pokemon); destruct pokemon].
Qed.

Lemma hazards_of_put_pokemon (b : BattleState) (s s' : Side) (n : nat)
    (p : Pokemon) :
  hazards_of (put_pokemon b s n p) s' = hazards_of b s'.
Proof. by destruct s, s'. Qed.

Lemma hazards_of_set_hazards_of (b : BattleState) (s : Side)
    (h : gmap string Z) :
  hazards_of (set_hazards_of b s h) s = h
  ∧ hazards_of (set_hazards_of b s h) (other_side s) = hazards_of b (other_side s).
Proof. by destruct s. Qed.



(** ** Switching: shared lemmas *)

Lemma norm_index_nonneg (len : nat) (i : Z) :
  0 ≤ i < Z.of_nat len → norm_index len i = Some (Z.to_nat i).
Proof.
  intros H. unfold norm_index.
  assert ((0 <=? i) = true) as -> by lia.
  by assert ((i <? Z.of_nat len) = true) as -> by lia.
Qed.

Lemma norm_index_lt (len : nat) (i : Z) (n : nat) :
  norm_index len i = Some n → i < Z.of_nat len ∧ (n < len)%nat.
Proof.
  unfold norm_index. destruct (0 <=? i) eqn:H0.
  - destruct (i <? Z.of_nat len) eqn:H1; [|discriminate]. intros [= <-]. lia.
  - destruct (- Z.of_nat len <=? i) eqn:H1; [|discriminate]. intros [= <-]. lia.
Qed.

Lemma active_indices_head (len : nat) (a0 : Z) (rest : list Z) (n0 : nat)
    (actives : list nat) :
  norm_index len a0 = Some n0 →
  active_indices len (a0 :: rest) = Some actives →
  actives !! 0%nat = Some n0.
Proof.
  intros Hn. simpl. destruct (norm_index_lt _ _ _ Hn) as [Hlt _].
  assert ((a0 <? Z.of_nat len) = true) as -> by lia.
  rewrite Hn. simpl. destruct (active_indices len rest); simpl; [|discriminate].
  by intros [= <-].
Qed.

(** A successful switch writes the target into the first active slot and
    leaves the other control fields alone. *)
Lemma execute_switch_active (E : BattleEngine) (b b' : BattleState)
    (action : BattleAction) (forced : bool) (msgs : list Msg) :
  _execute_switch E b action forced = Some (msgs, b') →
  let s := side_of b (action_battler_id action) in
  ∃ target,
    switch_to_position action = Some target
    ∧ active_positions (battler b' s)
      = target :: tail (active_positions (battler b s))
    ∧ active_positions (battler b' (other_side s))
      = active_positions (battler b (other_side s))
    ∧ battle_type b' = battle_type b ∧ phase b' = phase b
    ∧ forced_switch_battler_id b' = forced_switch_battler_id b
    ∧ is_over b' = is_over b ∧ winner b' = winner b
    ∧ pending_actions b' = pending_actions b
    ∧ pending_ai_switch_index b' = pending_ai_switch_index b
    ∧ wild_dazed b' = wild_dazed b
    ∧ (∀ s', battler_id (battler b' s') = battler_id (battler b s'))
    ∧ (∀ s', is_ai (battler b' s') = is_ai (battler b s'))
    ∧ (∀ s', length (party (battler b' s')) = length (party (battler b s'))).
Proof.
  unfold _execute_switch. cbv zeta.
  set (s := side_of b (action_battler_id action)).
  set (x := battler b s).
  destruct (get_active_pokemon x) as [actives|]; simpl; [|discriminate].
  destruct (actives !! 0%nat) as [old_n|]; simpl; [|discriminate].
  destruct (party x !! old_n) as [old_pokemon|]; simpl; [|discriminate].
  destruct (switch_to_position action) as [target|]; simpl; [|discriminate].
  destruct (norm_index (length (party x)) target) as [new_n|]; simpl; [|discriminate].
  destruct (party x !! new_n) as [new0|]; simpl; [|discriminate].
  destruct (active_positions x) as [|a0 others] eqn:Hact; [discriminate|].
  set (b1 := set_battler b s (set_active_positions x (target :: others))).
  set (b2 := if held_item_manager E then _ else b1).
  assert (control b2 = control b1) as H21.
  { subst b2. destruct (held_item_manager E); [apply control_put_pokemon|done]. }
  destruct (get_pokemon b2 s new_n) as [new_pokemon|]; simpl; [|discriminate].
  set (r3 := if ENHANCED_SYSTEMS_AVAILABLE E then _ else _).
  assert (control r3.2 = control b2) as H32.
  { subst r3. destruct (ENHANCED_SYSTEMS_AVAILABLE E); simpl;
      [apply control_apply_entry_effects|done]. }
  destruct r3 as [ability_msgs b3]. simpl in H32.
  destruct (_apply_entry_hazards E b3 s new_n) as [[hazard_msgs b4]|] eqn:Hhz;
    simpl; [|discriminate].
  apply control_apply_entry_hazards in Hhz.
  destruct (get_pokemon b4 s old_n); simpl; [|discriminate].
  destruct (get_pokemon b4 s new_n); simpl; [|discriminate].
  intros [= _ <-]. exists target. split; [done|].
  assert (control b4 = control b1) as H by congruence.
  apply control_fields in H
    as (Hty & Hph & Hfs & Hov & Hwin & Hpa & Hai & Hwd & Hid & Hap & His & Hlen).
  subst b1 x. clear H21 H32 Hhz b2.
  destruct s; simpl in *; rewrite ?Hact;
    repeat split; try done;
    try (specialize (Hap Trainer); done); try (specialize (Hap Opponent); done);
    intros []; first [apply Hid | apply His | apply Hlen].
Qed.

Lemma apply_entry_hazards_total (E : BattleEngine) (b : BattleState) (s : Side)
    (n : nat) :
  is_Some (get_pokemon b s n) → is_Some (_apply_entry_hazards E b s n).
Proof.
  intros [p Hp]. unfold _apply_entry_hazards.
  case_bool_decide; [done|]. rewrite Hp. cbn [mbind option_bind].
  destruct (stealth_rock_step E _ p) as [m1 p1].
  destruct (spikes_step _ p1) as [m2 p2].
  destruct (toxic_spikes_step E _ p2) as [[m3 p3] absorbed].
  by destruct (sticky_web_step _ _ p3) as [m4 p4].
Qed.

Lemma control_lookup (b b' : BattleState) (s : Side) (n : nat) :
  control b' = control b →
  is_Some (get_pokemon b s n) → is_Some (get_pokemon b' s n).
Proof.
  intros Hc. apply control_fields in Hc
    as (_ & _ & _ & _ & _ & _ & _ & _ & _ & _ & _ & Hlen).
  unfold get_pokemon. rewrite !lookup_lt_is_Some, (Hlen s). done.
Qed.

(** A switch to a position of the party returns whenever the side's first
    active position holds a party member. *)
Lemma execute_switch_total (E : BattleEngine) (b : BattleState)
    (action : BattleAction) (forced : bool) (a0 target : Z) (rest : list Z)
    (actives : list nat) (new_n : nat) :
  let x := battler b (side_of b (action_battler_id action)) in
  get_active_pokemon x = Some actives →
  active_positions x = a0 :: rest →
  0 ≤ a0 < Z.of_nat (length (party x)) →
  switch_to_position action = Some target →
  norm_index (length (party x)) target = Some new_n →
  is_Some (_execute_switch E b action forced).
Proof.
  intros x Hactives Hpos Ha0 Htarget Hnew. unfold _execute_switch. cbv zeta.
  set (s := side_of b (action_battler_id action)). fold s in x. fold x.
  rewrite Hactives. cbn [mbind option_bind].
  assert (actives !! 0%nat = Some (Z.to_nat a0)) as ->.
  { apply (active_indices_head (length (party x)) a0 rest).
    - by apply norm_index_nonneg.
    - unfold get_active_pokemon in Hactives. by rewrite Hpos in Hactives. }
  cbn [mbind option_bind].
  destruct (lookup_lt_is_Some_2 (party x) (Z.to_nat a0)) as [old Hold]; [lia|].
  rewrite Hold, Htarget. cbn [mbind option_bind]. rewrite Hnew.
  cbn [mbind option_bind].
  apply norm_index_lt in Hnew as [_ Hlt].
  destruct (lookup_lt_is_Some_2 (party x) new_n Hlt) as [new0 Hnew0].
  rewrite Hnew0, Hpos. cbn [mbind option_bind].
  set (b1 := set_battler b s (set_active_positions x (target :: rest))).
  assert (∀ m, is_Some (party x !! m) → is_Some (get_pokemon b1 s m)) as H1.
  { intros m Hm. subst b1 x. unfold get_pokemon. by destruct s. }
  set (b2 := if held_item_manager E then _ else b1).
  assert (control b2 = control b1) as H21.
  { subst b2. destruct (held_item_manager E); [apply control_put_pokemon|done]. }
  destruct (control_lookup b1 b2 s new_n H21) as [new_pokemon Hnp];
    [apply H1; by eexists|].
  rewrite Hnp. cbn [mbind option_bind].
  set (r3 := if ENHANCED_SYSTEMS_AVAILABLE E then _ else _).
  assert (control r3.2 = control b2) as H32.
  { subst r3. destruct (ENHANCED_SYSTEMS_AVAILABLE E); cbn [snd];
      [apply control_apply_entry_effects|done]. }
  destruct r3 as [ability_msgs b3]. cbn [snd] in H32.
  assert (control b3 = control b1) as H31 by congruence.
  destruct (apply_entry_hazards_total E b3 s new_n) as [[hazard_msgs b4] Hhz].
  { apply (control_lookup b1); [done|]. apply H1. by eexists. }
  rewrite Hhz. cbn [mbind option_bind].
  apply control_apply_entry_hazards in Hhz.
  assert (control b4 = control b1) as H41 by congruence.
  destruct (control_lookup b1 b4 s (Z.to_nat a0) H41) as [old_final ->];
    [apply H1; by eexists|].
  destruct (control_lookup b1 b4 s new_n H41) as [new_final ->];
    [apply H1; by eexists|].
  cbn [mbind option_bind]. by eexists.
Qed.




(** ** Terminal check *)

Lemma has_usable_pokemon_spec (x : Battler) :
  has_usable_pokemon x = true ↔ usable x.
Proof.
  unfold has_usable_pokemon, usable. rewrite existsb_exists. split.
  - intros (p & Hin & Hhp). exists p. split; [by apply list_elem_of_In|lia].
  - intros (p & Hin & Hhp). exists p. split; [by apply list_elem_of_In|lia].
Qed.

Lemma has_usable_pokemon_false (x : Battler) :
  has_usable_pokemon x = false ↔ ¬ usable x.
Proof.
  rewrite <- has_usable_pokemon_spec. destruct (has_usable_pokemon x); naive_solver.
Qed.

(** C2.  [_check_battle_end] ends the battle exactly when a side has no
    usable combatant: a draw when neither side is usable, the opponent wins
    when only the opponent is, the trainer wins when only the trainer is; with
    both sides usable the battle is left as it was. *)
Theorem check_battle_end_outcome (b : BattleState) :
  let b' := _check_battle_end b in
  (¬ usable (trainer b) → ¬ usable (opponent b) →
     is_over b' = true ∧ winner b' = Some W_draw)
  ∧ (¬ usable (trainer b) → usable (opponent b) →
     is_over b' = true ∧ winner b' = Some W_opponent)
  ∧ (usable (trainer b) → ¬ usable (opponent b) →
     is_over b' = true ∧ winner b' = Some W_trainer)
  ∧ (usable (trainer b) → usable (opponent b) → b' = b).
Proof.
  cbv zeta. unfold _check_battle_end.
  split; [|split; [|split]]; intros Ht Ho.
  - apply has_usable_pokemon_false in Ht, Ho. rewrite Ht, Ho. auto.
  - apply has_usable_pokemon_false in Ht. apply has_usable_pokemon_spec in Ho.
    rewrite Ht, Ho. auto.
  - apply has_usable_pokemon_spec in Ht. apply has_usable_pokemon_false in Ho.
    rewrite Ht, Ho. auto.
  - apply has_usable_pokemon_spec in Ht, Ho. rewrite Ht, Ho. auto.
Qed.

Lemma check_battle_end_outcome_witness :
  let b := _check_battle_end
             (blank_battle PVP SINGLES [frail "Rattata"] [hundred_hp []] [0] [0]) in
  b = blank_battle PVP SINGLES [frail "Rattata"] [hundred_hp []] [0] [0].
Proof.
  apply (proj2 (proj2 (proj2 (check_battle_end_outcome
    (blank_battle PVP SINGLES [frail "Rattata"] [hundred_hp []] [0] [0]))))).
  - exists (frail "Rattata"). split; [apply list_elem_of_here | simpl; lia].
  - exists (hundred_hp []). split; [apply list_elem_of_here | simpl; lia].
Defined.

(** ** Forced switch *)

Lemma store_same (st : EngineState) (battle_id : string) (b : BattleState) :
  active_battles st !! battle_id = Some b →
  store st battle_id b (rng st) = st.
Proof.
  intros Hb. destruct st as [m g]. unfold store. simpl in *.
  by rewrite insert_id.
Qed.

(** An error reply of [force_switch_on] comes with the battle it was given. *)
Lemma force_switch_on_error (E : BattleEngine) (b b' : BattleState)
    (id position : Z) (e : Error) :
  force_switch_on E b id position = Some (R_error e, b') → b' = b.
Proof.
  unfold force_switch_on.
  destruct (negb (bool_decide (phase b = FORCED_SWITCH))
            || negb (bool_decide (forced_switch_battler_id b = Some id))).
  { intros [= _ <-]. reflexivity. }
  destruct ((position <? 0)
            || (Z.of_nat (length (party (battler b (side_of b id)))) <=? position)).
  { intros [= _ <-]. reflexivity. }
  destruct (party (battler b (side_of b id)) !! Z.to_nat position) as [target|];
    simpl; [|discriminate].
  destruct (current_hp target <=? 0).
  { intros [= _ <-]. reflexivity. }
  destruct (_execute_switch E b _ true) as [[msgs b1]|]; simpl; discriminate.
Qed.

(** C9.  [force_switch] is atomic on error: whatever error it replies with,
    the registry is left as it was, and each of the five refusals (unknown
    battle, no forced switch pending in this phase or for this battler, slot
    out of range, target without HP) is such an error reply. *)
Theorem force_switch_atomic_on_error (E : BattleEngine) (st : EngineState)
    (battle_id : string) (id position : Z) :
  (∀ e st', force_switch E st battle_id id position = Some (R_error e, st') →
            st' = st)
  ∧ (active_battles st !! battle_id = None →
     force_switch E st battle_id id position = Some (R_error Battle_not_found, st))
  ∧ (∀ b, active_battles st !! battle_id = Some b →
       (phase b ≠ FORCED_SWITCH ∨ forced_switch_battler_id b ≠ Some id →
        force_switch E st battle_id id position
        = Some (R_error No_forced_switch_is_pending, st))
       ∧ (phase b = FORCED_SWITCH → forced_switch_battler_id b = Some id →
          position < 0
          ∨ Z.of_nat (length (party (battler b (side_of b id)))) ≤ position →
          force_switch E st battle_id id position
          = Some (R_error Invalid_party_slot, st))
       ∧ (phase b = FORCED_SWITCH → forced_switch_battler_id b = Some id →
          ∀ target,
            0 ≤ position →
            party (battler b (side_of b id)) !! Z.to_nat position = Some target →
            current_hp target ≤ 0 →
            force_switch E st battle_id id position
            = Some (R_error That_Pokemon_cant_battle, st))).
Proof.
  split; [|split].
  - intros e st'. unfold force_switch.
    destruct (active_battles st !! battle_id) as [b|] eqn:Hb.
    + destruct (force_switch_on E b id position) as [[r b']|] eqn:Hf;
        simpl; [|discriminate].
      intros [= -> <-]. apply force_switch_on_error in Hf as ->.
      by apply store_same.
    + by intros [= _ <-].
  - intros Hb. unfold force_switch. by rewrite Hb.
  - intros b Hb. unfold force_switch. rewrite Hb.
    split; [|split].
    + intros Hno. unfold force_switch_on.
      assert ((negb (bool_decide (phase b = FORCED_SWITCH))
               || negb (bool_decide (forced_switch_battler_id b = Some id)))
              = true) as ->.
      { destruct Hno as [H|H]; [rewrite (bool_decide_eq_false_2 _ H)|
          rewrite (bool_decide_eq_false_2 _ H)]; simpl; auto using orb_true_r. }
      simpl. by rewrite store_same.
    + intros Hp Hf Hrange. unfold force_switch_on.
      rewrite (bool_decide_eq_true_2 _ Hp), (bool_decide_eq_true_2 _ Hf). simpl.
      assert (((position <? 0)
               || (Z.of_nat (length (party (battler b (side_of b id)))) <=? position))
              = true) as ->.
      { apply orb_true_iff. destruct Hrange; [left|right]; lia. }
      simpl. by rewrite store_same.
    + intros Hp Hf target Hpos Ht Hhp. unfold force_switch_on.
      rewrite (bool_decide_eq_true_2 _ Hp), (bool_decide_eq_true_2 _ Hf). simpl.
      assert (((position <? 0)
               || (Z.of_nat (length (party (battler b (side_of b id)))) <=? position))
              = false) as ->.
      { apply lookup_lt_Some in Ht. apply orb_false_iff. split; lia. }
      rewrite Ht. simpl.
      assert ((current_hp target <=? 0) = true) as -> by lia.
      simpl. by rewrite store_same.
Qed.

Lemma force_switch_atomic_on_error_witness :
  let st := store empty_engine_state "battle-4" (toxic_field ["normal"]) 0 in
  force_switch plain_engine st "battle-4" 7 1
  = Some (R_error No_forced_switch_is_pending, st).
Proof.
  intros st.
  apply (proj1 (proj2 (proj2
    (force_switch_atomic_on_error plain_engine st "battle-4" 7 1))
    (toxic_field ["normal"]) eq_refl)).
  left. discriminate.
Defined.

(** ** Entry hazards: stealth rock and spikes *)









(** The product of the effectiveness entries and the product with the base
    are float products, and [int] truncates: with 800 maximum HP and an
    effectiveness of 0.57 the damage is 56, the double nearest to 100 * 0.57
    lying just below 57. *)
Lemma stealth_rock_truncates_float_product :
  stealth_rock_damage 800 (fl (57 # 100)) = 56
  ∧ stealth_rock_damage 100 (fmul (fl 2) (to_float (P_int 2))) = 48.
Proof. by vm_compute. Qed.

(** The whole entry of scenario 5: stealth rock and two layers of spikes
    take a grounded 100-HP entrant to 72. *)
Lemma rocks_and_spikes_entry :
  (λ r, (r.1, current_hp <$> get_pokemon r.2 Trainer 1))
    <$> _apply_entry_hazards plain_engine rocks_and_spikes Trainer 1
  = Some ([M_stealth_rock "Entrant" 12; M_spikes "Entrant" 16], Some 72).
Proof. by vm_compute. Qed.

(** ** Focus-survival items *)

Section FocusItems.
Import HeldItemManager.

Lemma get_item_consumed (items_db : option ItemsDB) (pokemon : Pokemon)
    (held : string) :
  held_item pokemon = Some held →
  held ∈ _consumed_items pokemon →
  _get_item items_db pokemon = None.
Proof.
  intros Hh Hc. unfold _get_item, _is_consumed. destruct items_db; [|done].
  rewrite Hh. rewrite (bool_decide_eq_true_2 _ Hc).
  by destruct (negb (truthy_str held)).
Qed.

Lemma get_item_held (items_db : option ItemsDB) (pokemon : Pokemon) (item : Item) :
  _get_item items_db pokemon = Some item →
  ∃ held, held_item pokemon = Some held ∧ held ∉ _consumed_items pokemon.
Proof.
  unfold _get_item, _is_consumed. destruct items_db; [|done].
  destruct (held_item pokemon) as [held|]; [|done].
  destruct (negb (truthy_str held)); [done|].
  case_bool_decide; [done|]. eauto.
Qed.

(** C7, the claim as worded fails.  A held item with [prevents_ko] whose
    trigger is not [before_damage] leaves a lethal hit as it is, and so
    does an item with an [activation_chance] of one in ten when the draw
    is one half; both holders are at full HP, above 1. *)
Lemma focus_survival_claim_fails :
  let holder (held : string) := mk_pokemon "Holder" 50 50 10 [] [] (Some held) in
  (_get_item (Some sample_items) (holder "late_charm") = Some late_charm
   ∧ prevents_ko (effect_data late_charm) = true
   ∧ (_try_focus_items (Some sample_items) (fun _ => 0%Q)
                       (holder "late_charm") 60 0).1.1.1 = 60)
  ∧ (_get_item (Some sample_items) (holder "focus_band") = Some focus_band
     ∧ activation_chance (effect_data focus_band) = Some (1 # 10)
     ∧ (_try_focus_items (Some sample_items) (fun _ => 1 # 2)
                         (holder "focus_band") 60 0).1.1.1 = 60).
Proof. by vm_compute. Qed.

(** C7, amended.  When the incoming damage is at least the defender's HP,
    the defender's HP is above 1, its unconsumed held item has
    [prevents_ko], [requires_full_hp] or an [activation_chance], the item's
    trigger is absent or [before_damage], the defender is at full HP if the
    item requires it, and the random draw does not exceed the activation
    chance if there is one, the damage becomes [current_hp - 1], which
    leaves exactly 1 HP.  A [one_time_use] item is then recorded as
    consumed under its database id; held under that id, it is ignored by
    every later lookup for this combatant, however its consumed set grows. *)
Theorem focus_survival (items_db : option ItemsDB) (draws : nat → Q)
    (defender : Pokemon) (damage : Z) (g : nat) (item : Item) :
  _get_item items_db defender = Some item →
  current_hp defender ≤ damage →
  1 < current_hp defender →
  truthy_opt (trigger item) = false ∨ trigger item = Some "before_damage" →
  prevents_ko (effect_data item) = true
  ∨ requires_full_hp (effect_data item) = true
  ∨ is_Some (activation_chance (effect_data item)) →
  (requires_full_hp (effect_data item) = true →
     max_hp defender ≤ current_hp defender) →
  (∀ chance, activation_chance (effect_data item) = Some chance →
             (draws g <= chance)%Q) →
  let '(damage', message, defender', _) :=
    _try_focus_items items_db draws defender damage g in
  damage' = current_hp defender - 1
  ∧ current_hp defender - damage' = 1
  ∧ message = Some (M_hung_on (species_name defender) (item_display_name item))
  ∧ (one_time_use (effect_data item) = false → defender' = defender)
  ∧ (one_time_use (effect_data item) = true →
       defender' = _consume defender (item_id item)
       ∧ (held_item defender = Some (item_id item) →
          ∀ later,
            held_item later = held_item defender →
            _consumed_items defender' ⊆ _consumed_items later →
            _get_item items_db later = None)).
Proof.
  intros Hitem Hdmg Hhp Htrig Hko Hfull Hroll.
  unfold _try_focus_items. rewrite Hitem.
  assert (((damage <? current_hp defender) || (current_hp defender <=? 0)) = false)
    as -> by lia.
  assert ((truthy_opt (trigger item)
           && negb (bool_decide (trigger item = Some "before_damage"))) = false)
    as ->.
  { destruct Htrig as [H|H]; rewrite H; [done|]. by rewrite andb_false_r. }
  assert (negb (prevents_ko (effect_data item) || requires_full_hp (effect_data item)
                || bool_decide (is_Some (activation_chance (effect_data item))))
          = false) as ->.
  { destruct Hko as [H|[H|H]].
    - by rewrite H.
    - by rewrite H, orb_true_r.
    - by rewrite (bool_decide_eq_true_2 _ H), orb_true_r. }
  assert ((requires_full_hp (effect_data item)
           && (current_hp defender <? max_hp defender)) = false) as ->.
  { destruct (requires_full_hp (effect_data item)); [|done].
    specialize (Hfull eq_refl). simpl. lia. }
  assert (∀ d' : Pokemon,
            d' = (if one_time_use (effect_data item)
                  then _consume defender (item_id item) else defender) →
            current_hp defender - 1 = current_hp defender - 1
            ∧ current_hp defender - (current_hp defender - 1) = 1
            ∧ Some (M_hung_on (species_name defender) (item_display_name item))
              = Some (M_hung_on (species_name defender) (item_display_name item))
            ∧ (one_time_use (effect_data item) = false → d' = defender)
            ∧ (one_time_use (effect_data item) = true →
               d' = _consume defender (item_id item)
               ∧ (held_item defender = Some (item_id item) →
                  ∀ later,
                    held_item later = held_item defender →
                    _consumed_items d' ⊆ _consumed_items later →
                    _get_item items_db later = None))) as Hgoal.
  { intros d' ->. split; [done|]. split; [lia|]. split; [done|].
    destruct (one_time_use (effect_data item)); split; try done.
    intros _. split; [done|]. intros Hheld later Hl Hsub.
    apply (get_item_consumed _ _ (item_id item)); [congruence|].
    apply Hsub. unfold _consume. simpl.
    apply elem_of_union. right. by apply elem_of_singleton. }
  destruct (activation_chance (effect_data item)) as [chance|] eqn:Hact.
  - unfold random. specialize (Hroll chance eq_refl).
    apply Qle_bool_iff in Hroll. rewrite Hroll. simpl.
    assert ((current_hp defender <=? 1) = false) as -> by lia.
    by apply Hgoal.
  - simpl.
    assert ((current_hp defender <=? 1) = false) as -> by lia.
    by apply Hgoal.
Qed.

Lemma focus_survival_witness :
  (_try_focus_items (Some sample_items) (fun _ => 0%Q)
     (mk_pokemon "Holder" 50 50 10 [] [] (Some "focus_sash")) 60 0).1.1.1 = 49.
Proof.
  pose proof (focus_survival (Some sample_items) (fun _ => 0%Q)
                (mk_pokemon "Holder" 50 50 10 [] [] (Some "focus_sash")) 60 0
                focus_sash eq_refl) as H.
  destruct (_try_focus_items _ _ _ 60 0) as [[[damage' message] defender'] g'].
  simpl in *.
  refine (proj1 (H _ _ _ _ _ _)).
  - lia.
  - lia.
  - by right.
  - by left.
  - intros _. lia.
  - discriminate.
Defined.
End FocusItems.

(** ** Entry hazards: toxic spikes *)

(** The toxic-spikes block, case by case. *)
Lemma toxic_spikes_step_cases (E : BattleEngine) (hazards : gmap string Z)
    (p : Pokemon) (layers : Z) :
  hazards !! "toxic_spikes" = Some layers →
  let status := if decide (2 ≤ layers) then "tox" else "psn" in
  toxic_spikes_step E hazards p
  = if is_grounded p then
      if has_type p "poison" then ([M_absorbed (species_name p)], p, true)
      else if has_type p "steel" then ([], p, false)
      else if bool_decide (is_Some (status_manager p))
              && can_apply_status E p status
      then
        let r := apply_status E p status in
        (if r.1.1 && truthy_str r.1.2
         then [M_status (species_name r.2) r.1.2] else [], r.2, false)
      else ([], p, false)
    else ([], p, false).
Proof.
  intros Hlayers status. unfold toxic_spikes_step. rewrite Hlayers.
  assert ((if 2 <=? Z.min 2 layers then "tox" else "psn") = status) as ->.
  { subst status. destruct (decide (2 ≤ layers)).
    - by assert ((2 <=? Z.min 2 layers) = true) as -> by lia.
    - by assert ((2 <=? Z.min 2 layers) = false) as -> by lia. }
  destruct (is_grounded p); [|done].
  destruct (has_type p "poison"); [done|].
  destruct (has_type p "steel"); [done|]. cbn [negb].
  destruct (status_manager p); cbn [bool_decide andb]; [|done].
  rewrite (bool_decide_eq_true_2 _ (mk_is_Some _ _ eq_refl)). cbn [andb].
  destruct (can_apply_status E p status); [|done].
  destruct (apply_status E p status) as [[success msg] p']. cbn [fst snd].
  by destruct (success && truthy_str msg).
Qed.

(** C8, the claim as worded fails for an entrant that is both steel and
    poison: it is grounded and steel-type, yet it absorbs the toxic spikes
    and the layers are cleared from its side's map. *)
Lemma toxic_spikes_steel_claim_fails :
  let entrant := hundred_hp ["steel"; "poison"] in
  get_pokemon (toxic_field ["steel"; "poison"]) Trainer 1 = Some entrant
  ∧ is_grounded entrant = true
  ∧ has_type entrant "steel" = true
  ∧ hazards_of (toxic_field ["steel"; "poison"]) Trainer !! "toxic_spikes" = Some 2
  ∧ (λ r, (r.1, hazards_of r.2 Trainer !! "toxic_spikes"))
      <$> _apply_entry_hazards plain_engine (toxic_field ["steel"; "poison"]) Trainer 1
    = Some ([M_absorbed "Entrant"], None).
Proof. by vm_compute. Qed.

(** C8, amended.  Toxic spikes act on grounded entrants only (no [flying]
    among the lower-cased types, lower-cased ability other than [levitate]).
    A grounded poison-type entrant absorbs them and the entry is removed from
    its side's map; a grounded steel-type entrant that is not poison-type is
    left as it is and nothing is removed; any other grounded entrant is given
    [psn] for one layer and [tox] for two or more, and only when it has a
    status manager whose can-apply gate allows it: the combatant the battle
    then holds is the one the status manager's [apply_status] returns, as
    sticky web leaves it.  [arrived] is the entrant as stealth rock and
    spikes leave it. *)
Theorem toxic_spikes_on_entry (E : BattleEngine) (b : BattleState) (s : Side)
    (n : nat) (entrant : Pokemon) (layers : Z) :
  hazards_of b s !! "toxic_spikes" = Some layers →
  get_pokemon b s n = Some entrant →
  let hazards := hazards_of b s in
  let types := map lower (default [] (species_data entrant)) in
  let grounded :=
    negb (bool_decide ("flying" ∈ types))
    && negb (String.eqb
               (lower (py_str (py_or (ability entrant) (ability_name entrant))))
               "levitate") in
  let status := if decide (2 ≤ layers) then "tox" else "psn" in
  let arrived := (spikes_step hazards (stealth_rock_step E hazards entrant).2).2 in
  let web p := (sticky_web_step hazards grounded p).2 in
  ∃ msgs b' after,
    _apply_entry_hazards E b s n = Some (msgs, b')
    ∧ get_pokemon b' s n = Some after
    ∧ hazards_of b' (other_side s) = hazards_of b (other_side s)
    ∧ (grounded = false → hazards_of b' s = hazards ∧ after = arrived)
    ∧ (grounded = true → "poison" ∈ types →
       hazards_of b' s = delete "toxic_spikes" hazards
       ∧ after = web arrived
       ∧ M_absorbed (species_name entrant) ∈ msgs)
    ∧ (grounded = true → "poison" ∉ types → "steel" ∈ types →
       hazards_of b' s = hazards ∧ after = web arrived)
    ∧ (grounded = true → "poison" ∉ types → "steel" ∉ types →
       hazards_of b' s = hazards
       ∧ (status_manager entrant = None
          ∨ can_apply_status E arrived status = false →
          after = web arrived)
       ∧ (is_Some (status_manager entrant) →
          can_apply_status E arrived status = true →
          let r := apply_status E arrived status in
          after = web r.2
          ∧ (r.1.1 = true → truthy_str r.1.2 = true →
             M_status (species_name r.2) r.1.2 ∈ msgs))).
Proof.
  intros Hlayers Hentrant hazards types grounded status arrived web.
  assert (hazards ≠ ∅) as Hne.
  { intros Hempty. subst hazards. by rewrite Hempty, lookup_empty in Hlayers. }
  rewrite (apply_entry_hazards_steps E b s n entrant Hentrant Hne). cbv zeta.
  fold hazards.
  destruct (stealth_rock_step_same E hazards entrant) as [hp1 H1].
  destruct (spikes_step_same hazards (stealth_rock_step E hazards entrant).2)
    as [hp2 H2].
  assert (arrived = set_current_hp entrant hp2) as Harrived.
  { subst arrived. by rewrite H2, H1. }
  assert (is_grounded arrived = grounded) as Hg by (by rewrite Harrived).
  assert (has_type arrived "poison" = bool_decide ("poison" ∈ types)) as Hp
    by (by rewrite Harrived).
  assert (has_type arrived "steel" = bool_decide ("steel" ∈ types)) as Hs
    by (by rewrite Harrived).
  assert (status_manager arrived = status_manager entrant) as Hsm
    by (by rewrite Harrived).
  assert (species_name arrived = species_name entrant) as Hname
    by (by rewrite Harrived).
  change (is_grounded entrant) with grounded.
  fold arrived.
  pose proof (toxic_spikes_step_cases E hazards arrived layers Hlayers) as Htox.
  cbv zeta in Htox. fold status in Htox.
  rewrite Hg, Hp, Hs, Hsm, Hname in Htox.
  set (r1 := stealth_rock_step E hazards entrant) in *.
  set (r2 := spikes_step hazards r1.2) in *.
  set (r3 := toxic_spikes_step E hazards arrived) in *.
  clearbody r3 arrived r2 r1.
  apply lookup_lt_Some in Hentrant as Hlen.
  set (after := (sticky_web_step hazards grounded r3.1.2).2).
  set (b1 := put_pokemon b s n after).
  assert (get_pokemon b1 s n = Some after) as Hget1
    by (by apply get_put_pokemon_same).
  destruct (hazards_of_set_hazards_of b1 s
              (delete "toxic_spikes" (hazards_of b1 s))) as [Hset Hset'].
  pose proof (hazards_of_put_pokemon b s s n after) as Hput.
  pose proof (hazards_of_put_pokemon b s (other_side s) n after) as Hput'.
  fold b1 in Hput, Hput'. fold hazards in Hput.
  eexists _, _, after. split; [reflexivity|].
  split. { destruct r3.2; by rewrite ?get_pokemon_set_hazards_of. }
  split. { destruct r3.2; [by rewrite Hset'|done]. }
  subst after web. cbv beta.
  destruct grounded eqn:Hgrounded.
  - destruct (bool_decide ("poison" ∈ types)) eqn:Hpoison.
    + apply bool_decide_eq_true in Hpoison. rewrite Htox. cbn [fst snd].
      rewrite Hset, Hput.
      split; [done|]. split; [|split; [done|split; done]].
      intros _ _. split; [done|]. split; [done|]. apply list_elem_of_In.
      apply in_or_app. right. apply in_or_app. right. apply in_or_app. left.
      by left.
    + apply bool_decide_eq_false in Hpoison.
      destruct (bool_decide ("steel" ∈ types)) eqn:Hsteel.
      * apply bool_decide_eq_true in Hsteel. rewrite Htox. cbn [fst snd].
        split; [done|]. split; [done|]. split; [done|]. done.
      * apply bool_decide_eq_false in Hsteel.
        split; [done|]. split; [done|]. split; [done|].
        intros _ _ _.
        destruct (status_manager entrant) as [sm|] eqn:Hmanager.
        -- rewrite (bool_decide_eq_true_2 _ (mk_is_Some _ _ eq_refl)) in Htox.
           cbn [andb] in Htox.
           destruct (can_apply_status E arrived status) eqn:Hgate.
           ++ rewrite Htox. cbn [fst snd]. split; [done|].
              split; [by intros [|]|]. intros _ _. split; [done|].
              intros Hok Hmsg. rewrite Hok, Hmsg. cbn [andb].
              apply list_elem_of_In.
              apply in_or_app. right. apply in_or_app. right.
              apply in_or_app. left. by left.
           ++ rewrite Htox. cbn [fst snd]. split; [done|]. split; [done|].
              by intros _ [=].
        -- rewrite bool_decide_eq_false_2 in Htox by (by intros [? ?]).
           cbn [andb] in Htox. rewrite Htox. cbn [fst snd].
           split; [done|]. split; [done|]. by intros [? ?].
  - rewrite Htox. cbn [fst snd]. unfold sticky_web_step.
    rewrite andb_false_r. cbn [snd].
    split; [done|]. split; [done|]. split; done.
Qed.

Lemma toxic_spikes_on_entry_witness :
  ∃ msgs b' after,
    _apply_entry_hazards status_engine (toxic_web_field 2 ["Normal"]) Trainer 1
    = Some (msgs, b')
    ∧ get_pokemon b' Trainer 1 = Some after
    ∧ status_manager after ≫= major_status = Some "tox"
    ∧ stat_stages after = Some (-1)
    ∧ hazards_of b' Trainer !! "toxic_spikes" = Some 2
    ∧ M_status "Entrant" "was badly poisoned!" ∈ msgs.
Proof.
  pose proof (toxic_spikes_on_entry status_engine (toxic_web_field 2 ["Normal"])
                Trainer 1 (healthy ["Normal"]) 2 eq_refl eq_refl) as H.
  cbv zeta in H.
  destruct H as (msgs & b' & after & Hrun & Hget & _ & _ & _ & _ & Hother).
  destruct Hother as (Hhz & _ & Hstatus).
  - reflexivity.
  - vm_compute. by intros H%list_elem_of_In; destruct H as [|[]].
  - vm_compute. by intros H%list_elem_of_In; destruct H as [|[]].
  - destruct Hstatus as [Hafter Hmsg]; [by eexists|reflexivity|].
    exists msgs, b', after. split; [exact Hrun|]. split; [exact Hget|].
    split; [by rewrite Hafter|]. split; [by rewrite Hafter|].
    split; [by rewrite Hhz|]. by apply Hmsg.
Defined.

(** One layer gives [psn]. *)
Lemma toxic_spikes_one_layer :
  (λ r : list Msg * BattleState,
     (r.1, p ← get_pokemon r.2 Trainer 1; sm ← status_manager p; major_status sm))
    <$> _apply_entry_hazards status_engine (toxic_web_field 1 ["normal"]) Trainer 1
  = Some ([M_status "Entrant" "was poisoned!"; M_speed_fell "Entrant"],
          Some "psn").
Proof. by vm_compute. Qed.

(** ** Action scheduler *)

Lemma key_gtb_spec (k1 k2 : Z * Z) :
  key_gtb k1 k2 = true ↔ k2.1 < k1.1 ∨ (k1.1 = k2.1 ∧ k2.2 < k1.2).
Proof. unfold key_gtb. destruct k1, k2; simpl. lia. Qed.

Lemma key_gtb_false (k1 k2 : Z * Z) :
  key_gtb k1 k2 = false ↔ k1.1 < k2.1 ∨ (k1.1 = k2.1 ∧ k1.2 ≤ k2.2).
Proof.
  rewrite <- not_true_iff_false, key_gtb_spec. destruct k1, k2; simpl. lia.
Qed.

Lemma not_below_trans {A} (x y z : (Z * Z) * A) :
  not_below x y → not_below y z → not_below x z.
Proof. unfold not_below. rewrite !key_gtb_false. lia. Qed.

Section Sorting.
Context {A : Type}.
Implicit Types (x : (Z * Z) * A) (l : list ((Z * Z) * A)).

Lemma insert_desc_perm x l : insert_desc x l ≡ₚ x :: l.
Proof.
  induction l as [|y r IH]; simpl; [done|].
  destruct (key_gtb y.1 x.1); [|done].
  rewrite IH. apply Permutation_swap.
Qed.

Lemma sort_desc_perm l : sort_desc l ≡ₚ l.
Proof.
  induction l as [|x r IH]; simpl; [done|].
  unfold sort_desc in *. simpl. by rewrite insert_desc_perm, IH.
Qed.

Lemma insert_desc_sorted x l :
  StronglySorted not_below l → StronglySorted not_below (insert_desc x l).
Proof.
  induction 1 as [|y r Hr IH Hy]; simpl.
  - repeat constructor.
  - destruct (key_gtb y.1 x.1) eqn:Hgt.
    + constructor; [done|].
      rewrite insert_desc_perm. constructor; [|done].
      unfold not_below. apply key_gtb_false.
      apply key_gtb_spec in Hgt. lia.
    + constructor; [by constructor|].
      constructor; [done|].
      eapply Forall_impl; [exact Hy|].
      intros z Hz. by apply (not_below_trans x y z).
Qed.

Lemma sort_desc_sorted l : StronglySorted not_below (sort_desc l).
Proof.
  induction l as [|x r IH]; simpl; [constructor|].
  by apply insert_desc_sorted.
Qed.

Lemma insert_desc_filter (k : Z * Z) x l :
  filter (λ y, y.1 = k) (insert_desc x l) = filter (λ y, y.1 = k) (x :: l).
Proof.
  induction l as [|y r IH]; simpl; [done|].
  destruct (key_gtb y.1 x.1) eqn:Hgt; [|done].
  rewrite !filter_cons in *. rewrite IH.
  destruct (decide (x.1 = k)) as [Hx|Hx]; [|done].
  destruct (decide (y.1 = k)) as [Hy|Hy]; [|done].
  rewrite Hx, Hy in Hgt. apply key_gtb_spec in Hgt. lia.
Qed.

Lemma sort_desc_filter (k : Z * Z) l :
  filter (λ y, y.1 = k) (sort_desc l) = filter (λ y, y.1 = k) l.
Proof.
  induction l as [|x r IH]; simpl; [done|].
  unfold sort_desc in *. simpl. rewrite insert_desc_filter.
  rewrite !filter_cons. by rewrite IH.
Qed.
End Sorting.

Lemma StronglySorted_lookup {A} (R : A → A → Prop) (l : list A) (i j : nat)
    (x y : A) :
  StronglySorted R l → (i < j)%nat → l !! i = Some x → l !! j = Some y → R x y.
Proof.
  intros Hs. revert i j. induction Hs as [|z r Hr IH Hz]; intros i j Hij Hi Hj.
  - by rewrite lookup_nil in Hi.
  - destruct j as [|j]; [lia|]. destruct i as [|i]; simpl in *.
    + injection Hi as <-. rewrite Forall_forall in Hz. apply Hz.
      by eapply list_elem_of_lookup_2.
    + apply (IH i j); [lia|done|done].
Qed.

(** The keyed list [_sort_actions] builds pairs every action with its key. *)
Lemma keyed_actions (E : BattleEngine) (b : BattleState)
    (actions : list BattleAction) (keyed : list ((Z * Z) * BattleAction)) :
  mapM (fun a => k ← get_action_priority E b a; Some (k, a)) actions = Some keyed →
  map snd keyed = actions
  ∧ Forall (λ ka, get_action_priority E b ka.2 = Some ka.1) keyed.
Proof.
  intros H. apply mapM_Some_1 in H.
  induction H as [|a ka r kr Hka Hr [IH1 IH2]]; [by split|].
  destruct (get_action_priority E b a) as [k|] eqn:Hk; simpl in Hka; [|done].
  injection Hka as <-. simpl. split; [by rewrite IH1|]. by constructor.
Qed.

Lemma filter_map_keyed (E : BattleEngine) (b : BattleState) (k : Z * Z)
    (keyed : list ((Z * Z) * BattleAction)) :
  Forall (λ ka, get_action_priority E b ka.2 = Some ka.1) keyed →
  filter (λ a, get_action_priority E b a = Some k) (map snd keyed)
  = map snd (filter (λ ka, ka.1 = k) keyed).
Proof.
  induction 1 as [|[k' a] r Hk Hr IH]; simpl; [done|].
  rewrite !filter_cons. simpl in *. rewrite IH, Hk.
  destruct (decide (Some k' = Some k)) as [Heq|Hne];
    destruct (decide (k' = k)) as [Heq'|Hne']; try done; congruence.
Qed.

(** C3, the claim as worded fails.  In a wild battle the trainer's combatant
    (speed 80) flees and the wild one (speed 20) uses a move of priority 0:
    by the worded key the flee, (0, 80), comes before the move, (0, 20), but
    the engine resolves the move first.  In a player-versus-player battle
    both sides switch: by the worded key the side with the faster combatant
    switches first, the engine keeps the registration order. *)
Lemma scheduler_claim_fails :
  match wild_battle, pvp_battle with
  | Some wild, Some pvp =>
      (specified_key plain_engine wild (flee_action 7) = Some (0, 80)
       ∧ specified_key plain_engine wild (move_tackle (-1)) = Some (0, 20)
       ∧ key_gtb (0, 80) (0, 20) = true
       ∧ _sort_actions plain_engine wild [flee_action 7; move_tackle (-1)]
         = Some [move_tackle (-1); flee_action 7])
      ∧ (specified_key plain_engine pvp (switch_to 7 1) = Some (100, 15)
         ∧ specified_key plain_engine pvp (switch_to 8 1) = Some (100, 130)
         ∧ key_gtb (100, 130) (100, 15) = true
         ∧ _sort_actions plain_engine pvp [switch_to 7 1; switch_to 8 1]
           = Some [switch_to 7 1; switch_to 8 1])
  | _, _ => False
  end.
Proof. by vm_compute. Qed.

(** C3, amended.  The scheduler orders the turn's actions by the key
    (class, speed) in descending lexicographic order, actions of equal key
    keeping their registration order.  The key is (100, 999) for a switch,
    (90, 999) for an item, (0, 0) for a flee, and for a move its intrinsic
    priority (0 when the descriptor gives none) with the effective speed of
    the acting side's first active combatant: the raw speed, replaced by the
    enhanced calculator's value when the enhanced systems are loaded and the
    calculator answers, then, when the engine has a held-item manager,
    multiplied by the held-item speed modifier (the multiplier of a held,
    unconsumed item whose stat is the speed, 1.0 otherwise; the product of
    two integers is exact, any other is a product of doubles) and rounded to
    the nearest integer, ties to the even one. *)
Theorem sort_actions_order (E : BattleEngine) (b : BattleState)
    (actions sorted : list BattleAction) :
  _sort_actions E b actions = Some sorted →
  let key := get_action_priority E b in
  sorted ≡ₚ actions
  ∧ (∀ i j a a' k k',
       (i < j)%nat → sorted !! i = Some a → sorted !! j = Some a' →
       key a = Some k → key a' = Some k' → key_gtb k' k = false)
  ∧ (∀ k, filter (λ a, key a = Some k) sorted
          = filter (λ a, key a = Some k) actions)
  ∧ (∀ a, a ∈ actions →
       match action_type a with
       | A_switch => key a = Some (100, 999)
       | A_item => key a = Some (90, 999)
       | A_flee => key a = Some (0, 0)
       | A_move =>
           ∃ move_data actives n pokemon,
             get_move E (action_move_id a) = Some move_data
             ∧ get_active_pokemon (battler b (side_of b (action_battler_id a)))
               = Some actives
             ∧ actives !! 0%nat = Some n
             ∧ party (battler b (side_of b (action_battler_id a))) !! n
               = Some pokemon
             ∧ let base :=
                 if ENHANCED_SYSTEMS_AVAILABLE E
                 then default (speed pokemon) (get_speed E pokemon)
                 else speed pokemon in
               let modifier :=
                 match HeldItemManager._get_item (items_db E) pokemon with
                 | Some item =>
                     if bool_decide (stat (effect_data item) = Some "speed")
                     then default (P_float (fl 1)) (multiplier (effect_data item))
                     else P_float (fl 1)
                 | None => P_float (fl 1)
                 end in
               key a
               = Some (default 0 (md_priority move_data),
                       if bool_decide (is_Some (items_db E))
                       then py_round (py_mul (P_int base) modifier)
                       else base)
       end).
Proof.
  intros Hsort key. subst key. unfold _sort_actions in Hsort.
  destruct (mapM _ actions) as [keyed|] eqn:Hkeyed; simpl in Hsort; [|done].
  injection Hsort as <-.
  destruct (keyed_actions _ _ _ _ Hkeyed) as [Hsnd Hkeys].
  assert (Forall (λ ka, get_action_priority E b ka.2 = Some ka.1)
                 (sort_desc keyed)) as Hkeys'.
  { by rewrite sort_desc_perm. }
  split; [|split; [|split]].
  - rewrite <- Hsnd. apply Permutation_map, sort_desc_perm.
  - intros i j a a' k k' Hij Hi Hj Hk Hk'.
    rewrite list_lookup_fmap in Hi, Hj.
    destruct (sort_desc keyed !! i) as [[k0 a0]|] eqn:Hi0; simpl in Hi; [|done].
    destruct (sort_desc keyed !! j) as [[k1 a1]|] eqn:Hj0; simpl in Hj; [|done].
    injection Hi as ->. injection Hj as ->.
    rewrite Forall_forall in Hkeys'.
    pose proof (Hkeys' _ (list_elem_of_lookup_2 _ _ _ Hi0)) as H0.
    pose proof (Hkeys' _ (list_elem_of_lookup_2 _ _ _ Hj0)) as H1.
    simpl in H0, H1.
    assert (k0 = k) as -> by congruence. assert (k1 = k') as -> by congruence.
    exact (StronglySorted_lookup _ _ _ _ _ _ (sort_desc_sorted keyed) Hij Hi0 Hj0).
  - intros k. rewrite <- Hsnd.
    rewrite (filter_map_keyed E b k _ Hkeys'), (filter_map_keyed E b k _ Hkeys).
    by rewrite sort_desc_filter.
  - intros a Ha. unfold get_action_priority.
    destruct (action_type a) eqn:Hty; try done.
    rewrite <- Hsnd in Ha. apply list_elem_of_fmap in Ha as ([k a0] & -> & Hin).
    rewrite Forall_forall in Hkeys.
    pose proof (Hkeys _ Hin) as Hk. simpl in *.
    unfold get_action_priority in Hk. rewrite Hty in Hk.
    destruct (get_move E (action_move_id a0)) as [md|]; simpl in *; [|done].
    destruct (get_active_pokemon _) as [actives|]; simpl in *; [|done].
    destruct (actives !! 0%nat) as [n|] eqn:Hn; simpl in *; [|done].
    destruct (party _ !! n) as [p|] eqn:Hp; simpl in *; [|done].
    by exists md, actives, n, p.
Qed.

Lemma sort_actions_order_witness :
  _sort_actions charm_engine charm_duel [move_tackle 8; move_tackle 7]
  = Some [move_tackle 7; move_tackle 8]
  ∧ get_action_priority charm_engine charm_duel (move_tackle 7) = Some (0, 61)
  ∧ get_action_priority charm_engine charm_duel (move_tackle 8) = Some (0, 60).
Proof.
  assert (_sort_actions charm_engine charm_duel [move_tackle 8; move_tackle 7]
          = Some [move_tackle 7; move_tackle 8]) as Hsort
    by (vm_compute; reflexivity).
  split; [exact Hsort|].
  destruct (sort_actions_order charm_engine charm_duel _ _ Hsort)
    as (_ & _ & _ & Hkeys).
  split.
  - destruct (Hkeys (move_tackle 7)) as (md & actives & n & p & Hmd & Hact & Hn
                                         & Hp & Hkey).
    { apply list_elem_of_further, list_elem_of_here. }
    vm_compute in Hmd. injection Hmd as <-.
    vm_compute in Hact. injection Hact as <-.
    vm_compute in Hn. injection Hn as <-.
    vm_compute in Hp. injection Hp as <-.
    exact Hkey.
  - destruct (Hkeys (move_tackle 8)) as (md & actives & n & p & Hmd & Hact & Hn
                                         & Hp & Hkey).
    { apply list_elem_of_here. }
    vm_compute in Hmd. injection Hmd as <-.
    vm_compute in Hact. injection Hact as <-.
    vm_compute in Hn. injection Hn as <-.
    vm_compute in Hp. injection Hp as <-.
    exact Hkey.
Defined.

(** The product with the modifier is a product of doubles: 55 * 1.1 is the
    double just above 60.5 and rounds to 61, where the exact product 60.5
    would round to the even 60. *)
Lemma effective_speed_rounds_float_product :
  _get_effective_speed charm_engine
    (mk_pokemon "Holder" 100 100 55 ["normal"] [tackle_slot] (Some "swift_charm"))
  = 61
  ∧ Qround_half_even (55 * (11 # 10)) = 60.
Proof. by vm_compute. Qed.

(** ** Move execution: PP *)

Lemma party_check_battle_end (b : BattleState) (s : Side) :
  party (battler (_check_battle_end b) s) = party (battler b s).
Proof.
  unfold _check_battle_end.
  destruct (negb _ && negb _); [by destruct s|].
  destruct (negb _); [by destruct s|].
  destruct (negb _); by destruct s.
Qed.

(** The faint / daze block writes to the defender's side only. *)
Lemma party_faint_or_daze (b : BattleState) (def_side s : Side) (def_n : nat)
    (defender : Pokemon) :
  s ≠ def_side →
  party (battler (faint_or_daze b def_side def_n defender).2 s) = party (battler b s).
Proof.
  intros Hs. unfold faint_or_daze.
  destruct (bool_decide (battle_type b = WILD) && bool_decide (def_side = Opponent)).
  { simpl. destruct s, def_side; done. }
  destruct (bool_decide (def_side = Trainer) && negb (is_ai (battler b def_side))).
  { destruct (has_usable_pokemon _); [|done].
    destruct (0 <? _); simpl; [by destruct s|apply party_check_battle_end]. }
  destruct (is_ai _ && _); [|done].
  destruct (has_usable_pokemon _); simpl; [|apply party_check_battle_end].
  destruct (first_healthy _ _ _); simpl; by destruct s.
Qed.

Lemma moves_apply_after_damage (items_db : option ItemsDB) (attacker : Pokemon)
    (move_data : MoveData) (dealt : Z) :
  moves (HeldItemManager.apply_after_damage items_db attacker move_data dealt).2
  = moves attacker.
Proof.
  unfold HeldItemManager.apply_after_damage, HeldItemManager.register_move_use.
  destruct (HeldItemManager._get_item items_db attacker) as [item|]; [|done].
  destruct (locks_move (effect_data item)), (dealt <=? 0); try done;
    destruct (recoil_percent (effect_data item)) as [percent|]; try done;
    by destruct (negb (num_truthy percent)).
Qed.

(** The attacker's move list after [strike], and the control fields. *)
Lemma strike_attacker (E : BattleEngine) (b : BattleState) (action : BattleAction)
    (move_data : MoveData) (s : Side) (n : nat) (attacker : Pokemon)
    (def_n : nat) (defender : Pokemon) (g : nat) :
  get_pokemon b s n = Some attacker →
  let r := strike E b action move_data s n attacker (other_side s) def_n defender g in
  control r.1.1.2 = control b
  ∧ ∃ attacker',
      get_pokemon r.1.1.2 s n = Some attacker'
      ∧ moves attacker' = deduct_pp (action_move_id action) (moves attacker).
Proof.
  intros Hatt. unfold strike. cbv zeta.
  destruct (if ENHANCED_SYSTEMS_AVAILABLE E then _ else _)
    as [[[damage0 is_crit] effectiveness] effect_msgs].
  destruct (if held_item_manager E
            then HeldItemManager.modify_damage _ _ _ _ _ _ _ else _)
    as [[[damage1 held_msgs] defender1] g1].
  destruct (if held_item_manager E
            then HeldItemManager.apply_after_damage _ _ _ _ else _)
    as [post_msgs attacker2] eqn:Hpost.
  assert (moves attacker2 = deduct_pp (action_move_id action) (moves attacker))
    as Hmoves.
  { destruct (held_item_manager E).
    - pose proof (moves_apply_after_damage (items_db E)
                    (set_moves attacker
                       (deduct_pp (action_move_id action) (moves attacker)))
                    move_data
                    (if (current_hp defender1 <=? damage1)
                        && match status_manager defender1 with
                           | Some sm => bool_decide ("endure" ∈ volatile_statuses sm)
                           | None => false
                           end
                        && (1 <? current_hp defender1)
                     then current_hp defender1 - 1 else damage1)) as H.
      rewrite Hpost in H. exact H.
    - by injection Hpost as _ <-. }
  simpl. split.
  - by rewrite !control_put_pokemon.
  - exists attacker2. split; [|done].
    apply get_put_pokemon_same.
    apply lookup_lt_Some in Hatt.
    match goal with
    | |- (_ < length (party (battler ?bb s)))%nat =>
        pose proof (control_fields b bb) as Hc
    end.
    rewrite !control_put_pokemon in Hc.
    destruct (Hc eq_refl) as (_&_&_&_&_&_&_&_&_&_&_&Hlen).
    rewrite Hlen. exact Hatt.
Qed.

Lemma deduct_pp_no_match (mv : option string) (l : list MoveSlot) :
  (∀ m, m ∈ l → Some (move_id m) ≠ mv) → deduct_pp mv l = l.
Proof.
  induction l as [|m r IH]; intros H; simpl; [done|].
  rewrite bool_decide_eq_false_2; [|apply H, list_elem_of_here].
  rewrite IH; [done|]. intros m' Hm'. apply H. by apply list_elem_of_further.
Qed.

Lemma deduct_pp_first_match (mv : option string) (pre post : list MoveSlot)
    (m : MoveSlot) :
  (∀ m', m' ∈ pre → Some (move_id m') ≠ mv) →
  Some (move_id m) = mv →
  deduct_pp mv (pre ++ m :: post)
  = pre ++ {| move_id := move_id m; pp := Z.max 0 (pp m - 1) |} :: post.
Proof.
  induction pre as [|m0 r IH]; intros Hpre Hm; simpl.
  - by rewrite bool_decide_eq_true_2.
  - rewrite bool_decide_eq_false_2; [|apply Hpre, list_elem_of_here].
    rewrite IH; [done| |done]. intros m' Hm'. apply Hpre.
    by apply list_elem_of_further.
Qed.

(** C5.  A move attempt that returns consumes PP only once it has passed the
    status, unknown-move, held-item and ruleset checks: refused at any of
    them, the battle is left as it was; past them, the attacker's move list
    is the old one with one PP, not below zero, taken from the first slot
    whose id is the move's, every other slot being as before. *)
Theorem execute_move_pp (E : BattleEngine) (b : BattleState)
    (action : BattleAction) (g : nat) (s : Side) (n : nat) (attacker : Pokemon)
    (msgs : list Msg) (b' : BattleState) (g' : nat) :
  move_attacker b action = Some (s, n) →
  get_pokemon b s n = Some attacker →
  _execute_move E b action g = Some (msgs, b', g') →
  let prevented :=
    ENHANCED_SYSTEMS_AVAILABLE E = true ∧ is_Some (status_manager attacker)
    ∧ (can_move E attacker).1 = false in
  let restricted md :=
    held_item_manager E = true
    ∧ is_Some (HeldItemManager.check_move_restrictions (items_db E) attacker md) in
  let banned :=
    ∃ rs, ruleset b = Some rs
          ∧ (is_move_allowed E (action_move_id action) rs).1 = false in
  (prevented
   ∨ get_move E (action_move_id action) = None
   ∨ (∃ md, get_move E (action_move_id action) = Some md ∧ (restricted md ∨ banned))
   → b' = b ∧ g' = g)
  ∧ (¬ prevented →
     ∀ md, get_move E (action_move_id action) = Some md →
           ¬ restricted md → ¬ banned →
           ∃ attacker',
             get_pokemon b' s n = Some attacker'
             ∧ moves attacker'
               = deduct_pp (action_move_id action) (moves attacker))
  ∧ (∀ l, (∀ m, m ∈ l → Some (move_id m) ≠ action_move_id action) →
          deduct_pp (action_move_id action) l = l)
  ∧ (∀ pre m post,
       (∀ m', m' ∈ pre → Some (move_id m') ≠ action_move_id action) →
       Some (move_id m) = action_move_id action →
       deduct_pp (action_move_id action) (pre ++ m :: post)
       = pre ++ {| move_id := move_id m; pp := Z.max 0 (pp m - 1) |} :: post).
Proof.
  intros Hatt Hget Hexec prevented restricted banned.
  unfold _execute_move in Hexec. rewrite Hatt in Hexec. simpl in Hexec.
  destruct (move_defender b action) as [[def_side def_n]|] eqn:Hdef;
    simpl in Hexec; [|done].
  rewrite Hget in Hexec. simpl in Hexec.
  destruct (get_pokemon b def_side def_n) as [defender|]; simpl in Hexec; [|done].
  assert (def_side = other_side s) as ->.
  { unfold move_attacker in Hatt. unfold move_defender in Hdef.
    destruct (get_active_pokemon (battler b (side_of b _))) as [l|];
      simpl in Hatt; [|done].
    destruct (l !! 0%nat); simpl in Hatt; [|done]. injection Hatt as <- _.
    destruct (get_active_pokemon (battler b (other_side _))) as [l'|];
      simpl in Hdef; [|done].
    destruct (py_index l' _); simpl in Hdef; [|done]. by injection Hdef as <- _. }
  split; [|split; [|split]].
  - intros Hrefused.
    assert (∃ msg, move_refusal E b action attacker = inl msg) as [msg Hmsg].
    { unfold move_refusal.
      destruct Hrefused as [(Hen & [sm Hsm] & Hcan)|[Hunknown|(md & Hmd & Hr)]].
      - rewrite Hen, Hsm. simpl.
        destruct (can_move E attacker) as [ok m]. simpl in Hcan. subst ok. eauto.
      - destruct (if _ && _ then _ else None); [eauto|]. rewrite Hunknown. eauto.
      - destruct (if _ && _ then _ else None); [eauto|]. rewrite Hmd.
        destruct Hr as [(Hmgr & [r Hr])|(rs & Hrs & Hban)].
        + rewrite Hmgr, Hr. eauto.
        + destruct (if held_item_manager E then _ else None); [eauto|].
          rewrite Hrs. destruct (is_move_allowed E _ rs) as [ok reason].
          simpl in Hban. subst ok. eauto. }
    rewrite Hmsg in Hexec. by injection Hexec as _ <- <-.
  - intros Hnp md Hmd Hnr Hnb.
    assert (move_refusal E b action attacker = inr md) as Hpass.
    { unfold move_refusal.
      assert ((if ENHANCED_SYSTEMS_AVAILABLE E
                  && bool_decide (is_Some (status_manager attacker))
               then let '(ok, prevention_msg) := can_move E attacker in
                    if ok then None else Some prevention_msg
               else None) = None) as ->.
      { destruct (ENHANCED_SYSTEMS_AVAILABLE E) eqn:Hen; [|done]. simpl.
        case_bool_decide as Hsm; [|done].
        destruct (can_move E attacker) as [ok m] eqn:Hcan.
        destruct ok; [done|]. exfalso. apply Hnp. by unfold prevented. }
      rewrite Hmd.
      assert ((if held_item_manager E
               then HeldItemManager.check_move_restrictions (items_db E) attacker md
               else None) = None) as ->.
      { destruct (held_item_manager E) eqn:Hmgr; [|done].
        destruct (HeldItemManager.check_move_restrictions _ _ _) eqn:Hr; [|done].
        exfalso. apply Hnr. unfold restricted. rewrite Hr. eauto. }
      destruct (ruleset b) as [rs|] eqn:Hrs; [|done].
      destruct (is_move_allowed E _ rs) as [ok reason] eqn:Hok.
      destruct ok; [done|]. exfalso. apply Hnb. exists rs. by rewrite Hok. }
    rewrite Hpass in Hexec. injection Hexec as Hexec.
    unfold perform_move in Hexec.
    destruct (strike_attacker E b action md s n attacker def_n defender g Hget)
      as (_ & attacker' & Hget' & Hmoves).
    destruct (strike E b action md s n attacker (other_side s) def_n defender g)
      as [[[smsgs b3] defender2] g1]. simpl in Hget'.
    exists attacker'. split; [|done].
    destruct (current_hp defender2 <=? 0).
    + pose proof (party_faint_or_daze b3 (other_side s) s def_n defender2
                    (other_side_ne s)) as Hparty.
      destruct (faint_or_daze b3 (other_side s) def_n defender2) as [fm b4].
      injection Hexec as _ <- _. unfold get_pokemon in *. simpl in Hparty.
      by rewrite Hparty.
    + by injection Hexec as _ <- _.
  - apply deduct_pp_no_match.
  - intros pre m post. apply deduct_pp_first_match.
Qed.

Lemma execute_move_pp_witness :
  ∃ attacker',
    get_pokemon (perform_move plain_engine doubles_battle (move_tackle 7) tackle
                   Trainer 0
                   (mk_pokemon "Lead" 60 60 40 ["normal"] [tackle_slot] None)
                   Opponent 0
                   (mk_pokemon "Foe" 60 60 50 ["normal"] [tackle_slot] None)
                   0).1.2 Trainer 0 = Some attacker'
    ∧ moves attacker' = [{| move_id := "tackle"; pp := 34 |}].
Proof.
  refine (proj1 (proj2 (execute_move_pp plain_engine doubles_battle (move_tackle 7)
                   0 Trainer 0 _ _ _ _ eq_refl eq_refl eq_refl)) _ tackle eq_refl _ _).
  - intros (H & _). discriminate.
  - intros (H & _). discriminate.
  - intros (rs & Hrs & H). discriminate.
Defined.

(** ** Phases after a turn *)

Lemma phase_within_same (p0 : Phase) (b b' : BattleState) :
  phase b' = phase b → phase_within p0 b → phase_within p0 b'.
Proof. unfold phase_within. by intros ->. Qed.

Lemma phase_within_written (p0 : Phase) (b : BattleState) :
  phase b = FORCED_SWITCH ∨ phase b = DAZED ∨ phase b = WAITING_ACTIONS →
  phase_within p0 b.
Proof. unfold phase_within. tauto. Qed.

Lemma control_phase (b b' : BattleState) :
  control b' = control b → phase b' = phase b.
Proof. intros H. by apply control_fields in H as (_&?&_). Qed.

Lemma phase_check_battle_end (b : BattleState) :
  phase (_check_battle_end b) = phase b.
Proof.
  unfold _check_battle_end.
  destruct (negb _ && negb _); [done|].
  destruct (negb _); [done|]. by destruct (negb _).
Qed.

Lemma control_strike (E : BattleEngine) (b : BattleState) (action : BattleAction)
    (move_data : MoveData) (s s' : Side) (n n' : nat) (attacker defender : Pokemon)
    (g : nat) :
  control (strike E b action move_data s n attacker s' n' defender g).1.1.2
  = control b.
Proof.
  unfold strike. cbv zeta.
  destruct (if ENHANCED_SYSTEMS_AVAILABLE E then _ else _)
    as [[[damage0 is_crit] effectiveness] effect_msgs].
  destruct (if held_item_manager E
            then HeldItemManager.modify_damage _ _ _ _ _ _ _ else _)
    as [[[damage1 held_msgs] defender1] g1].
  destruct (if held_item_manager E
            then HeldItemManager.apply_after_damage _ _ _ _ else _)
    as [post_msgs attacker2].
  simpl. by rewrite !control_put_pokemon.
Qed.

Lemma phase_faint_or_daze (b : BattleState) (def_side : Side) (def_n : nat)
    (defender : Pokemon) :
  let b' := (faint_or_daze b def_side def_n defender).2 in
  phase b' = phase b ∨ phase b' = FORCED_SWITCH ∨ phase b' = DAZED.
Proof.
  unfold faint_or_daze. cbv zeta.
  destruct (bool_decide (battle_type b = WILD) && bool_decide (def_side = Opponent)).
  { simpl. auto. }
  destruct (bool_decide (def_side = Trainer) && negb (is_ai (battler b def_side))).
  { destruct (has_usable_pokemon _); [|auto].
    destruct (0 <? _); simpl; [auto|]. left. apply phase_check_battle_end. }
  destruct (is_ai _ && _); [|auto].
  destruct (has_usable_pokemon _); simpl;
    [|left; apply phase_check_battle_end].
  destruct (first_healthy _ _ _); simpl; auto.
Qed.

Lemma phase_execute_move (E : BattleEngine) (b b' : BattleState)
    (action : BattleAction) (g g' : nat) (msgs : list Msg) :
  _execute_move E b action g = Some (msgs, b', g') →
  phase b' = phase b ∨ phase b' = FORCED_SWITCH ∨ phase b' = DAZED.
Proof.
  unfold _execute_move.
  destruct (move_attacker b action) as [[s n]|]; simpl; [|done].
  destruct (move_defender b action) as [[s' n']|]; simpl; [|done].
  destruct (get_pokemon b s n) as [attacker|]; simpl; [|done].
  destruct (get_pokemon b s' n') as [defender|]; simpl; [|done].
  destruct (move_refusal E b action attacker) as [msg|md].
  { intros [= _ <- _]. auto. }
  unfold perform_move.
  pose proof (control_strike E b action md s s' n n' attacker defender g) as Hc.
  destruct (strike E b action md s n attacker s' n' defender g)
    as [[[smsgs b3] defender2] g1]. simpl in Hc.
  apply control_phase in Hc.
  destruct (current_hp defender2 <=? 0).
  - pose proof (phase_faint_or_daze b3 s' n' defender2) as Hf.
    destruct (faint_or_daze b3 s' n' defender2) as [fm b4]. simpl in Hf.
    intros [= _ <- _]. rewrite <- Hc. exact Hf.
  - intros [= _ <- _]. auto.
Qed.

Lemma phase_execute_action (E : BattleEngine) (b b' : BattleState)
    (action : BattleAction) (g g' : nat) (msgs : list Msg) :
  _execute_action E b action g = Some (msgs, b', g') →
  phase b' = phase b ∨ phase b' = FORCED_SWITCH ∨ phase b' = DAZED.
Proof.
  unfold _execute_action. destruct (action_type action).
  - apply phase_execute_move.
  - destruct (_execute_switch E b action false) as [[m b1]|] eqn:Hsw;
      simpl; [|done].
    intros [= _ <- _].
    apply execute_switch_active in Hsw as (_ & _ & _ & _ & _ & Hph & _). auto.
  - simpl. intros [= _ <- _]. auto.
  - unfold _execute_flee.
    destruct (negb (bool_decide (battle_type b = WILD))).
    + intros [= _ <- _]. auto.
    + unfold random. destruct (negb (Qle_bool _ _)); intros [= _ <- _]; auto.
Qed.

Lemma phase_run_actions (E : BattleEngine) (p0 : Phase)
    (actions : list BattleAction) (b b' : BattleState) (g g' : nat)
    (sw sw' : list Msg) :
  run_actions E actions b g sw = Some (b', g', sw') →
  phase_within p0 b → phase_within p0 b'.
Proof.
  revert b g sw. induction actions as [|action rest IH]; intros b g sw; simpl.
  { by intros [= <- _ _]. }
  destruct (is_over b || wild_dazed b); [by intros [= <- _ _]|].
  destruct (get_active_pokemon _) as [actives|]; simpl; [|done].
  destruct (bool_decide (actives = []) || all_fainted _ actives); [apply IH|].
  destruct (bool_decide (phase b = FORCED_SWITCH) && _ && _); [apply IH|].
  destruct (_execute_action E b action g) as [[[msgs b1] g1]|] eqn:Hexec;
    simpl; [|done].
  apply phase_execute_action in Hexec.
  assert (phase_within p0 b → phase_within p0 b1) as Hstep.
  { destruct Hexec as [H|[H|H]].
    - by apply phase_within_same.
    - intros _. apply phase_within_written. auto.
    - intros _. apply phase_within_written. auto. }
  destruct (bool_decide (action_type action = A_switch)); intros Hrun Hb.
  - eapply IH; [exact Hrun|]. auto.
  - eapply IH; [exact Hrun|]. apply (phase_within_same p0 b1); auto.
Qed.

Lemma control_eot_status_step (E : BattleEngine) (acc : list Msg * BattleState)
    (ref : Side * nat) :
  control (eot_status_step E acc ref).2 = control acc.2.
Proof.
  unfold eot_status_step. destruct acc as [msgs b], ref as [s n].
  destruct (get_pokemon b s n) as [p0|]; [|done].
  destruct (match status_manager p0 with Some _ => _ | None => _ end) as [m1 p1].
  destruct (if held_item_manager E then _ else _) as [m2 p2].
  simpl. apply control_put_pokemon.
Qed.

Lemma control_eot_weather_step (E : BattleEngine) (w : string)
    (acc : list Msg * BattleState) (ref : Side * nat) :
  control (eot_weather_step E w acc ref).2 = control acc.2.
Proof.
  unfold eot_weather_step. destruct acc as [msgs b], ref as [s n].
  destruct (get_pokemon b s n) as [p0|]; [|done].
  destruct (apply_weather_damage E p0 w) as [wm p1].
  destruct (apply_weather_healing E p1 w) as [hm p2].
  simpl. apply control_put_pokemon.
Qed.

Lemma control_foldl (f : list Msg * BattleState → Side * nat → list Msg * BattleState)
    (refs : list (Side * nat)) (acc : list Msg * BattleState) :
  (∀ a r, control (f a r).2 = control a.2) →
  control (foldl f acc refs).2 = control acc.2.
Proof.
  intros Hf. revert acc. induction refs as [|r rest IH]; intros acc; simpl; [done|].
  by rewrite IH, Hf.
Qed.

Lemma control_process_end_of_turn (E : BattleEngine) (b b' : BattleState)
    (msgs : list Msg) :
  _process_end_of_turn E b = Some (msgs, b') → control b' = control b.
Proof.
  unfold _process_end_of_turn.
  destruct (negb (ENHANCED_SYSTEMS_AVAILABLE E)); [by intros [= _ <-]|].
  destruct (active_refs b Trainer) as [ts|]; simpl; [|done].
  destruct (active_refs b Opponent) as [os|]; simpl; [|done].
  pose proof (control_foldl (eot_status_step E) (ts ++ os) ([], b)
                (control_eot_status_step E)) as H1.
  destruct (foldl (eot_status_step E) ([], b) (ts ++ os)) as [m1 b1].
  simpl in H1.
  assert (∀ r : list Msg * BattleState,
            match weather b1 with
            | Some w =>
                if truthy_str w then
                  ts' ← active_refs b1 Trainer;
                  let '(mt, bt) := foldl (eot_weather_step E w) (m1, b1) ts' in
                  os' ← active_refs bt Opponent;
                  let '(mo, bo) := foldl (eot_weather_step E w) (mt, bt) os' in
                  let bw := set_weather_turns bo (weather_turns bo - 1) in
                  if weather_turns bw <=? 0
                  then Some (mo ++ [M_weather_subsided w], set_weather bw None)
                  else Some (mo, bw)
                else Some (m1, b1)
            | None => Some (m1, b1)
            end = Some r → control r.2 = control b1) as Hw.
  { intros r. destruct (weather b1) as [w|]; [|by intros [= <-]].
    destruct (truthy_str w); [|by intros [= <-]].
    destruct (active_refs b1 Trainer) as [ts'|]; simpl; [|done].
    pose proof (control_foldl (eot_weather_step E w) ts' (m1, b1)
                  (control_eot_weather_step E w)) as Ht.
    destruct (foldl (eot_weather_step E w) (m1, b1) ts') as [mt bt]. simpl in Ht.
    destruct (active_refs bt Opponent) as [os'|]; simpl; [|done].
    pose proof (control_foldl (eot_weather_step E w) os' (mt, bt)
                  (control_eot_weather_step E w)) as Ho.
    destruct (foldl (eot_weather_step E w) (mt, bt) os') as [mo bo]. simpl in Ho.
    destruct (_ <=? 0); intros [= <-]; simpl;
      unfold control in *; simpl; congruence. }
  destruct (match weather b1 with Some _ => _ | None => _ end) as [[m2 b2]|];
    simpl; [|done].
  specialize (Hw _ eq_refl). simpl in Hw.
  destruct (terrain b2) as [t|]; [|intros [= _ <-]; congruence].
  destruct (truthy_str t); [|intros [= _ <-]; congruence].
  destruct (_ <=? 0); intros [= _ <-];
    transitivity (control b2); try congruence; done.
Qed.

Lemma phase_force_switch_on (E : BattleEngine) (b b' : BattleState) (id pos : Z)
    (r : Reply) :
  force_switch_on E b id pos = Some (r, b') →
  phase b' = phase b ∨ phase b' = WAITING_ACTIONS.
Proof.
  unfold force_switch_on.
  destruct (negb _ || negb _); [intros [= _ <-]; auto|].
  destruct ((pos <? 0) || _); [intros [= _ <-]; auto|].
  destruct (party _ !! Z.to_nat pos) as [target|]; simpl; [|done].
  destruct (current_hp target <=? 0); [intros [= _ <-]; auto|].
  destruct (_execute_switch E b _ true) as [[m b1]|]; simpl; [|done].
  intros [= _ <-]. auto.
Qed.

Lemma phase_auto_switch (E : BattleEngine) (b b' : BattleState) (msgs : list Msg) :
  auto_switch_if_forced_ai E b = Some (msgs, b') →
  phase b' = phase b ∨ phase b' = WAITING_ACTIONS.
Proof.
  unfold auto_switch_if_forced_ai.
  destruct (forced_switch_battler_id b) as [fid|]; [|intros [= _ <-]; auto].
  destruct (negb (bool_decide (phase b = FORCED_SWITCH))); [intros [= _ <-]; auto|].
  destruct (negb (is_ai _)); [intros [= _ <-]; auto|].
  destruct (match pending_ai_switch_index b with Some _ => _ | None => _ end)
    as [i|]; [|intros [= _ <-]; auto].
  destruct (force_switch_on E b _ i) as [[r b1]|] eqn:Hf; simpl; [|done].
  intros [= _ <-]. by apply phase_force_switch_on in Hf.
Qed.

Lemma phase_ensure_ai_action (E : BattleEngine) (s : Side) (b b' : BattleState)
    (g g' : nat) :
  ensure_ai_action E s b g = Some (b', g') → phase b' = phase b.
Proof.
  unfold ensure_ai_action.
  destruct (is_ai _ && negb _); [|by intros [= <- _]].
  destruct (generate_ai_action E b _ g) as [[a g1]|]; simpl; [|done].
  by intros [= <- _].
Qed.

Lemma phase_finish_turn (E : BattleEngine) (p0 : Phase) (b b' : BattleState)
    (g g' : nat) (sw : list Msg) (r : TurnResult) :
  finish_turn E b g sw = Some (r, b', g') →
  phase_within p0 b → phase_within p0 b'.
Proof.
  unfold finish_turn. intros Hfin Hb.
  assert (∀ x : list Msg * list Msg * BattleState,
            (if wild_dazed b then Some ([], [], b)
             else '(eot, b1) ← _process_end_of_turn E b;
                  '(auto, b2) ← auto_switch_if_forced_ai E b1;
                  Some (eot, auto, b2)) = Some x →
            phase_within p0 x.2) as Hmid.
  { intros x. destruct (wild_dazed b); [by intros [= <-]|].
    destruct (_process_end_of_turn E b) as [[eot b1]|] eqn:Heot; simpl; [|done].
    destruct (auto_switch_if_forced_ai E b1) as [[auto b2]|] eqn:Hauto;
      simpl; [|done].
    intros [= <-]. simpl.
    apply control_process_end_of_turn, control_phase in Heot.
    apply phase_auto_switch in Hauto as [H|H].
    - apply (phase_within_same p0 b); [congruence|done].
    - apply phase_within_written. auto. }
  destruct (if wild_dazed b then _ else _) as [[[eot auto] b5]|];
    simpl in Hfin; [|done].
  specialize (Hmid _ eq_refl). simpl in Hmid.
  injection Hfin as _ <- _.
  eapply phase_within_same; [|exact Hmid]. simpl.
  by rewrite phase_check_battle_end.
Qed.

(** C4, the claim as worded fails both ways.  After the first turn of a
    fresh wild battle in which nobody is knocked out, none of the four holds:
    the battle is not over and its phase is still START, the value
    [start_battle] leaves.  After the turn in which the trainer knocks out
    the last combatant of an AI side that was forced to switch earlier, two
    hold at once: the battle is over and its phase is WAITING_ACTIONS. *)
Lemma phase_claim_fails :
  match wild_turn plain_engine
          [mk_pokemon "Raticate" 50 50 80 ["normal"] [tackle_slot] None]
          (mk_pokemon "Pidgey" 30 30 20 ["normal"] [tackle_slot] None),
        trainer_battle_after 2 with
  | Some (_, first), Some (_, last) =>
      (is_over first = false ∧ phase first = START
       ∧ exactly_one (control_states first) = false)
      ∧ (is_over last = true ∧ phase last = WAITING_ACTIONS
         ∧ exactly_one (control_states last) = false)
  | _, _ => False
  end.
Proof. by vm_compute. Qed.

(** C4, amended.  After every call to [process_turn] that resolves a turn,
    the phase of the battle is FORCED_SWITCH, DAZED, WAITING_ACTIONS or the
    phase the battle had before the call; in particular a battle that was in
    one of the three before is in one of the three after.  Whether
    [is_over] holds is not tied to the phase. *)
Theorem process_turn_phase (E : BattleEngine) (st st' : EngineState)
    (battle_id : string) (b : BattleState) (r : TurnResult) :
  active_battles st !! battle_id = Some b →
  process_turn E st battle_id = Some (r, st') →
  ∃ b', active_battles st' !! battle_id = Some b'
        ∧ (phase b' = phase b ∨ phase b' = FORCED_SWITCH ∨ phase b' = DAZED
           ∨ phase b' = WAITING_ACTIONS).
Proof.
  intros Hb. unfold process_turn. rewrite Hb.
  destruct (resolve_turn E b (rng st)) as [[[r' b'] g']|] eqn:Hres; simpl; [|done].
  intros [= -> <-]. exists b'. split.
  { unfold store. simpl. apply lookup_insert_eq. }
  change (phase_within (phase b) b').
  unfold resolve_turn in Hres.
  destruct (ensure_ai_action E Trainer b (rng st)) as [[b1 g1]|] eqn:H1;
    simpl in Hres; [|done].
  destruct (ensure_ai_action E Opponent b1 g1) as [[b2 g2]|] eqn:H2;
    simpl in Hres; [|done].
  destruct (_sort_actions E _ _) as [actions|]; simpl in Hres; [|done].
  destruct (run_actions E actions _ g2 []) as [[[b4 g4] sw]|] eqn:Hrun;
    simpl in Hres; [|done].
  apply phase_ensure_ai_action in H1, H2.
  eapply phase_finish_turn; [exact Hres|].
  eapply phase_run_actions; [exact Hrun|].
  unfold phase_within. left. simpl. congruence.
Qed.

Lemma process_turn_phase_witness :
  ∃ b', active_battles
          (store (store empty_engine_state "battle-6" doubles_battle 0)
                 "battle-6"
                 (set_turn_number
                    (set_turn_log (set_pending_actions doubles_battle []) [])
                    2) 0) !! "battle-6" = Some b'
        ∧ (phase b' = WAITING_ACTIONS ∨ phase b' = FORCED_SWITCH
           ∨ phase b' = DAZED ∨ phase b' = WAITING_ACTIONS).
Proof.
  exact (process_turn_phase plain_engine
           (store empty_engine_state "battle-6" doubles_battle 0) _
           "battle-6" doubles_battle _ eq_refl eq_refl).
Defined.

(** ** Wild-mode daze *)

Lemma run_actions_stops (E : BattleEngine) (actions : list BattleAction)
    (b : BattleState) (g : nat) (sw : list Msg) :
  is_over b || wild_dazed b = true →
  run_actions E actions b g sw = Some (b, g, sw).
Proof. intros H. destruct actions; simpl; [done|]. by rewrite H. Qed.

(** C1, the claim as worded fails in its last part.  The trainer's only
    combatant, at 1 HP and holding an item with recoil, knocks out the wild
    combatant: the wild one is dazed at 1 HP, the recoil takes the attacker to
    0 HP, and the terminal check that closes [process_turn] ends the battle
    with the opponent as winner. *)
Lemma wild_daze_claim_fails :
  match wild_turn item_engine [orb_holder] wild_pidgey with
  | Some (result, b) =>
      battle_type b = WILD
      ∧ current_hp <$> party (opponent b) = [1]
      ∧ wild_dazed b = true ∧ phase b = DAZED
      ∧ current_hp <$> party (trainer b) = [0]
      ∧ is_over b = true ∧ winner b = Some W_opponent
      ∧ result
        = T_done 1 [M_used "Raticate" "Tackle" (Some (10, false, Eff_none));
                    M_recoil "Raticate" "Life Orb" 5; M_dazed "Pidgey"]
                 [] true (Some W_opponent)
  | None => False
  end.
Proof. by vm_compute. Qed.

Lemma turn_log_put_pokemon (b : BattleState) (s : Side) (n : nat) (p : Pokemon) :
  turn_log (put_pokemon b s n p) = turn_log b
  ∧ turn_number (put_pokemon b s n p) = turn_number b.
Proof. by destruct s. Qed.

Lemma turn_log_strike (E : BattleEngine) (b : BattleState) (action : BattleAction)
    (move_data : MoveData) (s s' : Side) (n n' : nat) (attacker defender : Pokemon)
    (g : nat) :
  let b3 := (strike E b action move_data s n attacker s' n' defender g).1.1.2 in
  turn_log b3 = turn_log b ∧ turn_number b3 = turn_number b.
Proof.
  unfold strike. cbv zeta.
  destruct (if ENHANCED_SYSTEMS_AVAILABLE E then _ else _)
    as [[[damage0 is_crit] effectiveness] effect_msgs].
  destruct (if held_item_manager E
            then HeldItemManager.modify_damage _ _ _ _ _ _ _ else _)
    as [[[damage1 held_msgs] defender1] g1].
  destruct (if held_item_manager E
            then HeldItemManager.apply_after_damage _ _ _ _ else _)
    as [post_msgs attacker2].
  unfold fst, snd.
  split.
  - by rewrite !(proj1 (turn_log_put_pokemon _ _ _ _)).
  - by rewrite !(proj2 (turn_log_put_pokemon _ _ _ _)).
Qed.

(** The fields of a battle in which the wild combatant has just been dazed. *)
Lemma dazed_fields (b : BattleState) (n : nat) (p : Pokemon) :
  let b' := dazed b n p in
  wild_dazed b' = true ∧ phase b' = DAZED ∧ is_over b' = is_over b
  ∧ winner b' = winner b ∧ turn_log b' = turn_log b
  ∧ turn_number b' = turn_number b ∧ trainer b' = trainer b
  ∧ party (opponent b') = <[n := set_current_hp p 1]> (party (opponent b)).
Proof. by repeat split. Qed.

(** A lethal move against the wild side ends in the dazed state. *)
Lemma execute_move_daze (E : BattleEngine) (b : BattleState)
    (action : BattleAction) (g : nat) (att_n def_n : nat)
    (attacker defender : Pokemon) (move_data : MoveData)
    (msgs : list Msg) (b3 : BattleState) (defender2 : Pokemon) (g1 : nat) :
  battle_type b = WILD →
  move_attacker b action = Some (Trainer, att_n) →
  move_defender b action = Some (Opponent, def_n) →
  get_pokemon b Trainer att_n = Some attacker →
  get_pokemon b Opponent def_n = Some defender →
  move_refusal E b action attacker = inr move_data →
  strike E b action move_data Trainer att_n attacker Opponent def_n defender g
  = (msgs, b3, defender2, g1) →
  current_hp defender2 ≤ 0 →
  _execute_move E b action g
  = Some (msgs ++ [M_dazed (species_name defender2)], dazed b3 def_n defender2, g1).
Proof.
  intros Hwild Hatt Hdef Hgeta Hgetd Hpass Hstrike Hko.
  pose proof (control_strike E b action move_data Trainer Opponent att_n def_n
                attacker defender g) as Hc.
  rewrite Hstrike in Hc. unfold fst, snd in Hc.
  apply control_fields in Hc as (Hty3 & _).
  unfold _execute_move. rewrite Hatt, Hdef. unfold mbind, option_bind.
  rewrite Hgeta, Hgetd, Hpass. unfold perform_move. rewrite Hstrike.
  assert ((current_hp defender2 <=? 0) = true) as -> by lia.
  unfold faint_or_daze. rewrite Hty3, Hwild.
  reflexivity.
Qed.

(** The loop step for an action that is a move and is not skipped. *)
Lemma run_actions_move (E : BattleEngine) (b b1 : BattleState)
    (action : BattleAction) (rest : list BattleAction) (g g1 : nat)
    (sw msgs : list Msg) (actives : list nat) :
  is_over b = false → wild_dazed b = false →
  action_type action = A_move →
  side_of b (action_battler_id action) = Trainer →
  get_active_pokemon (trainer b) = Some actives →
  actives ≠ [] → all_fainted (trainer b) actives = false →
  ¬ (phase b = FORCED_SWITCH
     ∧ forced_switch_battler_id b = Some (battler_id (trainer b))) →
  _execute_move E b action g = Some (msgs, b1, g1) →
  run_actions E (action :: rest) b g sw
  = run_actions E rest (set_turn_log b1 (turn_log b1 ++ msgs)) g1 sw.
Proof.
  intros Hover Hdazed Hty Hside Hact Hne Hfaint Hforced Hexec.
  cbn [run_actions]. rewrite Hover, Hdazed. cbn [orb]. rewrite Hside.
  cbn [battler]. rewrite Hact. unfold mbind at 1, option_bind at 1.
  rewrite Hfaint. case_bool_decide; [done|]. cbn [orb].
  assert ((bool_decide (phase b = FORCED_SWITCH)
           && bool_decide (forced_switch_battler_id b
                           = Some (battler_id (trainer b)))) = false) as ->.
  { apply andb_false_iff.
    destruct (decide (phase b = FORCED_SWITCH)) as [Hp|Hp];
      [right|left]; apply bool_decide_eq_false_2; tauto. }
  cbn [andb]. unfold _execute_action. rewrite Hty, Hexec.
  unfold mbind, option_bind.
  by rewrite bool_decide_eq_false_2.
Qed.

(** The end of a turn whose loop stopped on a daze: no end-of-turn effect,
    no queued switch. *)
Lemma finish_turn_dazed (E : BattleEngine) (b : BattleState) (g : nat)
    (sw : list Msg) :
  wild_dazed b = true →
  let b'' :=
    set_turn_number (set_pending_actions (_check_battle_end b) [])
                    (turn_number (_check_battle_end b) + 1) in
  finish_turn E b g sw
  = Some (T_done (turn_number (_check_battle_end b)) (turn_log (_check_battle_end b))
                 sw (is_over b'') (winner b''), b'', g).
Proof.
  intros Hd. unfold finish_turn. rewrite Hd. unfold mbind, option_bind.
  rewrite !app_nil_r.
  assert (set_turn_log b (turn_log b) = b) as -> by (by destruct b).
  cbv zeta.
  set (c := _check_battle_end b).
  replace (turn_number (set_turn_number (set_pending_actions c [])
                          (turn_number (set_pending_actions c []) + 1)) - 1)
    with (turn_number c) by (cbn; lia).
  reflexivity.
Qed.

Lemma set_turn_log_fields (b : BattleState) (l : list Msg) :
  let b' := set_turn_log b l in
  wild_dazed b' = wild_dazed b ∧ phase b' = phase b ∧ is_over b' = is_over b
  ∧ winner b' = winner b ∧ turn_log b' = l ∧ turn_number b' = turn_number b
  ∧ trainer b' = trainer b ∧ opponent b' = opponent b.
Proof. by repeat split. Qed.

Lemma check_battle_end_log (b : BattleState) :
  turn_log (_check_battle_end b) = turn_log b
  ∧ turn_number (_check_battle_end b) = turn_number b.
Proof.
  unfold _check_battle_end.
  destruct (negb _ && negb _); [done|].
  destruct (negb _); [done|]. by destruct (negb _).
Qed.

Lemma check_battle_end_opponent_usable (b : BattleState) :
  has_usable_pokemon (opponent b) = true →
  (usable (trainer b) →
   is_over (_check_battle_end b) = is_over b
   ∧ winner (_check_battle_end b) = winner b)
  ∧ (¬ usable (trainer b) →
     is_over (_check_battle_end b) = true
     ∧ winner (_check_battle_end b) = Some W_opponent).
Proof.
  intros Ho. unfold _check_battle_end. rewrite Ho. split; intros Ht.
  - apply has_usable_pokemon_spec in Ht. by rewrite Ht.
  - apply has_usable_pokemon_false in Ht. by rewrite Ht.
Qed.

(** C1, amended.  In wild mode, when the trainer's move leaves the
    opponent's active combatant at 0 HP or less, that combatant's HP becomes 1,
    [wild_dazed] is set and the phase becomes DAZED, [is_over] and [winner]
    being as before the move.  The remaining actions of the turn are not
    executed and the end-of-turn effects are skipped: the turn ends with the
    terminal check and the bookkeeping alone.  After the turn [is_over] is
    still false and [winner] unchanged when the trainer's side has a usable
    combatant left; otherwise the terminal check ends the battle in the
    opponent's favour. *)
Theorem wild_ko_dazes (E : BattleEngine) (b : BattleState) (action : BattleAction)
    (rest : list BattleAction) (g : nat) (sw : list Msg) (att_n def_n : nat)
    (attacker defender : Pokemon) (move_data : MoveData) (actives : list nat)
    (msgs : list Msg) (b3 : BattleState) (defender2 : Pokemon) (g1 : nat) :
  battle_type b = WILD →
  is_over b = false → wild_dazed b = false →
  action_type action = A_move →
  side_of b (action_battler_id action) = Trainer →
  get_active_pokemon (trainer b) = Some actives →
  actives ≠ [] → all_fainted (trainer b) actives = false →
  ¬ (phase b = FORCED_SWITCH
     ∧ forced_switch_battler_id b = Some (battler_id (trainer b))) →
  move_attacker b action = Some (Trainer, att_n) →
  move_defender b action = Some (Opponent, def_n) →
  get_pokemon b Trainer att_n = Some attacker →
  get_pokemon b Opponent def_n = Some defender →
  move_refusal E b action attacker = inr move_data →
  strike E b action move_data Trainer att_n attacker Opponent def_n defender g
  = (msgs, b3, defender2, g1) →
  current_hp defender2 ≤ 0 →
  let b' :=
    set_turn_log (dazed b3 def_n defender2)
      (turn_log b ++ msgs ++ [M_dazed (species_name defender2)]) in
  let b'' :=
    set_turn_number (set_pending_actions (_check_battle_end b') [])
                    (turn_number b + 1) in
  run_actions E (action :: rest) b g sw = Some (b', g1, sw)
  ∧ get_pokemon b' Opponent def_n = Some (set_current_hp defender2 1)
  ∧ wild_dazed b' = true ∧ phase b' = DAZED
  ∧ is_over b' = false ∧ winner b' = winner b
  ∧ finish_turn E b' g1 sw
    = Some (T_done (turn_number b) (turn_log b') sw (is_over b'') (winner b''),
            b'', g1)
  ∧ (usable (trainer b') → is_over b'' = false ∧ winner b'' = winner b)
  ∧ (¬ usable (trainer b') → is_over b'' = true ∧ winner b'' = Some W_opponent).
Proof.
  intros Hwild Hover Hdazed Hty Hside Hact Hne Hfaint Hforced Hatt Hdef
         Hgeta Hgetd Hpass Hstrike Hko b' b''.
  pose proof (control_strike E b action move_data Trainer Opponent att_n def_n
                attacker defender g) as Hc.
  pose proof (turn_log_strike E b action move_data Trainer Opponent att_n def_n
                attacker defender g) as Hl.
  rewrite Hstrike in Hc, Hl. unfold fst, snd in Hc, Hl. cbv zeta in Hl.
  destruct Hl as [Hlog3 Hturn3].
  apply control_fields in Hc
    as (_ & _ & _ & Hov3 & Hwin3 & _ & _ & _ & _ & _ & _ & Hlen3).
  specialize (Hlen3 Opponent). cbn [battler] in Hlen3.
  destruct (dazed_fields b3 def_n defender2)
    as (Hd1 & Hd2 & Hd3 & Hd4 & Hd5 & Hd6 & Hd7 & Hd8).
  destruct (set_turn_log_fields (dazed b3 def_n defender2)
              (turn_log b ++ msgs ++ [M_dazed (species_name defender2)]))
    as (Hs1 & Hs2 & Hs3 & Hs4 & Hs5 & Hs6 & Hs7 & Hs8).
  fold b' in Hs1, Hs2, Hs3, Hs4, Hs5, Hs6, Hs7, Hs8.
  assert (party (opponent b') !! def_n = Some (set_current_hp defender2 1))
    as Hget'.
  { rewrite Hs8, Hd8. apply list_lookup_insert_eq.
    rewrite Hlen3. by apply lookup_lt_Some in Hgetd. }
  assert (has_usable_pokemon (opponent b') = true) as Hopp.
  { apply has_usable_pokemon_spec. exists (set_current_hp defender2 1).
    split; [by apply (list_elem_of_lookup_2 _ def_n)|]. cbn. lia. }
  destruct (check_battle_end_opponent_usable b' Hopp) as [Hus Hnot].
  destruct (check_battle_end_log b') as [Hcl Hct].
  split; [|split; [exact Hget'|]].
  { rewrite (run_actions_move E b (dazed b3 def_n defender2) action rest g g1 sw
               (msgs ++ [M_dazed (species_name defender2)]) actives
               Hover Hdazed Hty Hside Hact Hne Hfaint Hforced
               (execute_move_daze E b action g att_n def_n attacker defender
                  move_data msgs b3 defender2 g1 Hwild Hatt Hdef Hgeta Hgetd
                  Hpass Hstrike Hko)).
    rewrite Hd5, Hlog3. fold b'.
    apply run_actions_stops. rewrite Hs1, Hd1. apply orb_true_r. }
  split; [by rewrite Hs1|]. split; [by rewrite Hs2|].
  split; [by rewrite Hs3, Hd3, Hov3|]. split; [by rewrite Hs4, Hd4, Hwin3|].
  assert (turn_number (_check_battle_end b') = turn_number b) as Hturn.
  { by rewrite Hct, Hs6, Hd6. }
  split.
  { rewrite (finish_turn_dazed E b' g1 sw) by (by rewrite Hs1).
    cbv zeta. rewrite Hturn, Hcl. reflexivity. }
  split.
  - intros Ht. destruct (Hus Ht) as [H1 H2]. split.
    + change (is_over (_check_battle_end b') = false).
      by rewrite H1, Hs3, Hd3, Hov3.
    + change (winner (_check_battle_end b') = winner b).
      by rewrite H2, Hs4, Hd4, Hwin3.
  - intros Ht. exact (Hnot Ht).
Qed.

Lemma wild_ko_dazes_witness :
  ∃ b',
    run_actions plain_engine [move_tackle 7; move_tackle 8] wild_ready 0 []
    = Some (b', 0%nat, [])
    ∧ current_hp <$> get_pokemon b' Opponent 0 = Some 1
    ∧ wild_dazed b' = true ∧ phase b' = DAZED ∧ is_over b' = false.
Proof.
  destruct (wild_ko_dazes plain_engine wild_ready (move_tackle 7)
              [move_tackle 8] 0 [] 0 0
              (mk_pokemon "Raticate" 50 50 80 ["normal"] [tackle_slot] None)
              wild_pidgey tackle [0%nat]
              (strike plain_engine wild_ready (move_tackle 7) tackle Trainer 0
                 (mk_pokemon "Raticate" 50 50 80 ["normal"] [tackle_slot] None)
                 Opponent 0 wild_pidgey 0).1.1.1
              (strike plain_engine wild_ready (move_tackle 7) tackle Trainer 0
                 (mk_pokemon "Raticate" 50 50 80 ["normal"] [tackle_slot] None)
                 Opponent 0 wild_pidgey 0).1.1.2
              (strike plain_engine wild_ready (move_tackle 7) tackle Trainer 0
                 (mk_pokemon "Raticate" 50 50 80 ["normal"] [tackle_slot] None)
                 Opponent 0 wild_pidgey 0).1.2
              0%nat)
    as (Hrun & Hget & Hdazed & Hphase & Hover & _).
  - reflexivity.
  - reflexivity.
  - reflexivity.
  - reflexivity.
  - reflexivity.
  - reflexivity.
  - discriminate.
  - reflexivity.
  - intros [H _]. discriminate.
  - reflexivity.
  - reflexivity.
  - reflexivity.
  - reflexivity.
  - reflexivity.
  - reflexivity.
  - simpl. lia.
  - eexists. split; [exact Hrun|]. rewrite Hget. repeat split; done.
Defined.

(** * Further properties *)

(** ** Held items *)

Section HeldItemFacts.
Import HeldItemManager.

Lemma truthy_str_true (s : string) : s ≠ "" → truthy_str s = true.
Proof.
  intros H. unfold truthy_str. apply negb_true_iff. by apply String.eqb_neq.
Qed.

Lemma get_item_set_choice_locked_move (items_db : option ItemsDB)
    (pokemon : Pokemon) (l : option string) :
  _get_item items_db (set_choice_locked_move pokemon l) = _get_item items_db pokemon.
Proof. reflexivity. Qed.

(** X1.  A choice item locks its holder into the move it registers: the
    registered move stays allowed, any other move is refused (the refusal
    names the move that was attempted, its name put in title case), and
    clearing the lock, as a switch does, lifts the refusal. *)
Theorem choice_lock_round_trip (items_db : option ItemsDB) (pokemon : Pokemon)
    (item : Item) (used other : MoveData) (a b : string) :
  _get_item items_db pokemon = Some item →
  locks_move (effect_data item) = true →
  blocks_status_moves (effect_data item) = false →
  md_id used = Some a → md_id other = Some b →
  a ≠ "" → b ≠ "" → b ≠ a →
  let locked := register_move_use items_db pokemon used in
  _choice_locked_move locked = Some a
  ∧ check_move_restrictions items_db locked used = None
  ∧ check_move_restrictions items_db locked other
    = Some (M_locked_into (species_name pokemon) (title (md_name other))
                          (item_display_name item))
  ∧ check_move_restrictions items_db (clear_choice_lock locked) other = None.
Proof.
  intros Hitem Hlocks Hblocks Hused Hother Ha Hb Hab locked.
  assert (locked = set_choice_locked_move pokemon (Some a)) as Hlocked.
  { subst locked. unfold register_move_use. by rewrite Hitem, Hlocks, Hused. }
  assert (∀ l, _get_item items_db (set_choice_locked_move pokemon l) = Some item)
    as Hget.
  { intros l. exact Hitem. }
  rewrite Hlocked. split; [done|]. split; [|split].
  - unfold check_move_restrictions. rewrite Hget, Hblocks, Hlocks, Hused.
    cbn. by rewrite String.eqb_refl, !andb_false_r.
  - unfold check_move_restrictions. rewrite Hget, Hblocks, Hlocks, Hother.
    cbn. rewrite (truthy_str_true _ Ha), (truthy_str_true _ Hb).
    apply String.eqb_neq in Hab. by rewrite Hab.
  - unfold check_move_restrictions, clear_choice_lock.
    rewrite !get_item_set_choice_locked_move, Hitem, Hblocks, Hlocks. done.
Qed.

Lemma choice_lock_round_trip_witness :
  let scarf : Item :=
    {| item_id := "choice_scarf"; item_name := Some "Choice Scarf";
       trigger := None;
       effect_data :=
         {| blocks_status_moves := false; locks_move := true;
            effect_type := None; power_multiplier := None;
            stat := Some "speed"; multiplier := Some (P_float (fl (3 # 2)));
            prevents_ko := false; requires_full_hp := false;
            activation_chance := None; one_time_use := false;
            recoil_percent := None; heal_percent := None |} |} in
  let db : option ItemsDB := Some (fun _ => Some scarf) in
  let holder := mk_pokemon "Holder" 50 50 10 [] [] (Some "choice_scarf") in
  let shield : MoveData :=
    {| md_id := Some "kings-shield"; md_name := "king's shield";
       md_type := Some "steel"; md_category := Some "status";
       md_priority := Some 4 |} in
  check_move_restrictions db (register_move_use db holder tackle) shield
  = Some (M_locked_into "Holder" (code_points "King'S Shield") "Choice Scarf").
Proof.
  intros scarf db holder shield.
  refine (proj1 (proj2 (proj2
    (choice_lock_round_trip db holder scarf tackle shield "tackle"
       "kings-shield" eq_refl eq_refl eq_refl eq_refl eq_refl _ _ _))));
    discriminate.
Defined.

(** [str.title()] starts a new word after every character that is not
    cased, an apostrophe included, and lowers the rest of a word. *)
Lemma title_examples :
  title "growl" = code_points "Growl"
  ∧ title "king's shield" = code_points "King'S Shield"
  ∧ title "U-TURN x2" = code_points "U-Turn X2"
  ∧ title (String (ascii_of_nat 223) "a") = code_points "Ssa"
  ∧ title (String (ascii_of_nat 181) "") = [924%N].
Proof. by vm_compute. Qed.

(** X2.  The after-damage hook of a held item never raises the attacker's HP
    and never takes it below 0; a hit that dealt no damage costs nothing; and
    a choice item locks its holder into the move even when the move dealt no
    damage. *)
Theorem after_damage_effects (items_db : option ItemsDB) (attacker : Pokemon)
    (move_data : MoveData) (dealt : Z) :
  let r := apply_after_damage items_db attacker move_data dealt in
  (0 ≤ current_hp attacker → 0 ≤ current_hp r.2 ≤ current_hp attacker)
  ∧ (dealt ≤ 0 → r.1 = [] ∧ current_hp r.2 = current_hp attacker)
  ∧ (r.1 ≠ [] → current_hp r.2 < current_hp attacker ∨ current_hp r.2 = 0)
  ∧ (∀ item, _get_item items_db attacker = Some item →
             locks_move (effect_data item) = true →
             _choice_locked_move r.2 = md_id move_data)
  ∧ (_get_item items_db attacker = None → r = ([], attacker)).
Proof.
  cbv zeta. unfold apply_after_damage, register_move_use.
  destruct (_get_item items_db attacker) as [item|]; [|repeat split; done || lia].
  assert (∀ p : Pokemon,
            current_hp p = current_hp attacker →
            (∀ it, Some item = Some it → locks_move (effect_data it) = true →
                   _choice_locked_move p = md_id move_data) →
            let r :=
              if dealt <=? 0 then ([], p)
              else
                match recoil_percent (effect_data item) with
                | Some percent =>
                    if negb (num_truthy percent) then ([], p)
                    else
                      let recoil :=
                        Z.max 1 (py_round
                                   (P_float (fmul (float_of_Z (max_hp p))
                                                  (fdiv (to_float percent)
                                                        (fl 100))))) in
                      ([M_recoil (species_name p) (item_display_name item) recoil],
                       set_current_hp p (Z.max 0 (current_hp p - recoil)))
                | None => ([], p)
                end in
            (0 ≤ current_hp attacker → 0 ≤ current_hp r.2 ≤ current_hp attacker)
            ∧ (dealt ≤ 0 → r.1 = [] ∧ current_hp r.2 = current_hp attacker)
            ∧ (r.1 ≠ [] → current_hp r.2 < current_hp attacker ∨ current_hp r.2 = 0)
            ∧ (∀ it, Some item = Some it → locks_move (effect_data it) = true →
                     _choice_locked_move r.2 = md_id move_data)
            ∧ (Some item = None → r = ([], attacker))) as Hgen.
  { intros p Hhp Hlock. cbv zeta.
    destruct (dealt <=? 0) eqn:Hd.
    { cbn. repeat split; try done; lia. }
    destruct (recoil_percent (effect_data item)) as [percent|];
      [|cbn; repeat split; try done; lia].
    destruct (negb (num_truthy percent)); [cbn; repeat split; try done; lia|].
    cbn. set (recoil := Z.max 1 _). repeat split; try done; try lia;
      try (intros it Hit Hl; cbn; by apply Hlock). }
  destruct (locks_move (effect_data item)) eqn:Hlocks.
  - apply (Hgen (set_choice_locked_move attacker (md_id move_data))); [done|].
    by intros.
  - apply (Hgen attacker); [done|]. intros it [= <-]. congruence.
Qed.

Lemma after_damage_effects_witness :
  current_hp (apply_after_damage (Some sample_items) orb_holder tackle 10).2 = 0.
Proof.
  destruct (after_damage_effects (Some sample_items) orb_holder tackle 10)
    as (Hbounds & _ & Hcost & _).
  assert (0 ≤ current_hp orb_holder) as H0 by (cbn; lia).
  destruct (Hcost ltac:(discriminate)) as [Hlt|H]; [|exact H].
  specialize (Hbounds H0). cbn in Hbounds, Hlt |- *. lia.
Defined.

(** X3.  The end-of-turn heal of a held item only writes the holder's HP: it
    never lowers it, never takes it above the maximum, leaves a fainted
    holder and a holder at full HP alone, and when it narrates a heal the
    holder has gained at least 1 HP. *)
Theorem end_of_turn_heal (items_db : option ItemsDB) (pokemon : Pokemon) :
  let r := process_end_of_turn items_db pokemon in
  r.2 = set_current_hp pokemon (current_hp r.2)
  ∧ current_hp pokemon ≤ current_hp r.2
  ∧ (current_hp pokemon ≤ max_hp pokemon → current_hp r.2 ≤ max_hp pokemon)
  ∧ (current_hp pokemon ≤ 0 ∨ max_hp pokemon ≤ current_hp pokemon →
     r = ([], pokemon))
  ∧ (r.1 ≠ [] → current_hp pokemon < current_hp r.2).
Proof.
  cbv zeta. unfold process_end_of_turn.
  assert (pokemon = set_current_hp pokemon (current_hp pokemon)) as Hsame
    by (by destruct pokemon).
  destruct (_get_item items_db pokemon) as [item|];
    [|cbn; repeat split; try done; lia].
  destruct (heal_percent (effect_data item)) as [percent|];
    [|cbn; repeat split; try done; lia].
  destruct (negb (num_truthy percent) || (current_hp pokemon <=? 0)
            || (max_hp pokemon <=? current_hp pokemon)) eqn:Hskip.
  { cbn. repeat split; try done; lia. }
  apply orb_false_iff in Hskip as [Hskip Hfull].
  apply orb_false_iff in Hskip as [_ Hfaint].
  cbn. set (heal := Z.max 1 _). repeat split; lia.
Qed.

Lemma end_of_turn_heal_witness :
  process_end_of_turn (Some sample_items) (hundred_hp [])
  = ([], hundred_hp []).
Proof.
  apply (proj1 (proj2 (proj2 (proj2
    (end_of_turn_heal (Some sample_items) (hundred_hp [])))))).
  right. cbn. lia.
Defined.

(** The percentages are float arithmetic: 7 percent of 150 is the double just
    above 10.5 and rounds to 11, where the exact 10.5 would round to the
    even 10; 10 percent of 50 is 5. *)
Lemma percent_rounds_float_product :
  let leftovers : Item :=
    {| item_id := "leftovers"; item_name := Some "Leftovers"; trigger := None;
       effect_data :=
         {| blocks_status_moves := false; locks_move := false;
            effect_type := None; power_multiplier := None; stat := None;
            multiplier := None; prevents_ko := false;
            requires_full_hp := false; activation_chance := None;
            one_time_use := false; recoil_percent := None;
            heal_percent := Some (P_int 7) |} |} in
  let holder := mk_pokemon "Holder" 20 150 10 [] [] (Some "leftovers") in
  process_end_of_turn (Some (fun _ => Some leftovers)) holder
  = ([M_restored "Holder" "Leftovers" 11], set_current_hp holder 31)
  ∧ Qround_half_even (150 * (7 / 100)) = 10
  ∧ (apply_after_damage (Some sample_items) orb_holder tackle 10).1
    = [M_recoil "Raticate" "Life Orb" 5].
Proof. by vm_compute. Qed.
End HeldItemFacts.

(** ** Effective speed *)

(** Multiplying an integer of at most 53 bits by the float 1.0 and rounding
    gives the integer back. *)
Lemma float_of_Z_exact (z : Z) :
  - 2 ^ 53 ≤ z ≤ 2 ^ 53 → float_of_Z z = F_finite (inject_Z z).
Proof. apply round64_inject_Z. Qed.

Lemma fl_1 : fl 1 = F_finite 1.
Proof. by vm_compute. Qed.

Lemma py_round_mul_one (z : Z) :
  - 2 ^ 53 ≤ z ≤ 2 ^ 53 → py_round (py_mul (P_int z) (P_float (fl 1))) = z.
Proof.
  intros Hz. unfold py_mul, to_float. rewrite (float_of_Z_exact z Hz), fl_1.
  unfold fmul. rewrite (round64_comp _ (inject_Z z)) by apply Qmult_1_r.
  rewrite (round64_inject_Z z Hz). cbn [py_round float_value].
  apply Qround_half_even_inject_Z.
Qed.

(** X4.  For a combatant whose held item, if any, is not a speed item, and
    whose speed is an integer of at most 53 bits, the rounding of the
    scheduler's speed changes nothing: the effective speed is the enhanced
    calculator's speed when the enhanced systems are loaded and the
    calculator answers, the raw speed otherwise. *)
Theorem effective_speed_without_speed_item (E : BattleEngine) (pokemon : Pokemon) :
  (∀ item, HeldItemManager._get_item (items_db E) pokemon = Some item →
           stat (effect_data item) ≠ Some "speed") →
  let base :=
    if ENHANCED_SYSTEMS_AVAILABLE E
    then default (speed pokemon) (get_speed E pokemon)
    else speed pokemon in
  - 2 ^ 53 ≤ base ≤ 2 ^ 53 →
  _get_effective_speed E pokemon = base.
Proof.
  intros Hitem base Hbase. unfold _get_effective_speed. cbv zeta. fold base.
  destruct (held_item_manager E); [|done].
  assert (HeldItemManager.get_speed_multiplier (items_db E) pokemon
          = P_float (fl 1)) as ->.
  { unfold HeldItemManager.get_speed_multiplier.
    destruct (HeldItemManager._get_item (items_db E) pokemon) as [item|]; [|done].
    by rewrite (bool_decide_eq_false_2 _ (Hitem item eq_refl)). }
  by apply py_round_mul_one.
Qed.

Lemma effective_speed_without_speed_item_witness :
  _get_effective_speed item_engine orb_holder = 80.
Proof.
  apply (effective_speed_without_speed_item item_engine orb_holder).
  - intros item. cbn. intros [= <-]. discriminate.
  - cbn. lia.
Defined.

(** Beyond 53 bits the float product with 1.0 loses the low bits of the
    speed. *)
Lemma effective_speed_beyond_53_bits :
  _get_effective_speed item_engine
    (mk_pokemon "Raticate" 1 50 (2 ^ 53 + 1) ["normal"] [tackle_slot]
                (Some "life_orb"))
  = 2 ^ 53.
Proof. by vm_compute. Qed.

(** ** Hazards: further properties *)








(** ** Active positions *)

(** X7.  [get_active_pokemon] never lists a combatant outside the party: an
    active position at or beyond the party's length is dropped without an
    error, so the list may be shorter than [active_positions]; when all the
    positions are valid non-negative indices the active combatants are
    exactly the party members at those positions, in order. *)
Theorem active_pokemon_in_party (x : Battler) (actives : list nat) :
  get_active_pokemon x = Some actives →
  Forall (λ n, (n < length (party x))%nat) actives
  ∧ (length actives ≤ length (active_positions x))%nat
  ∧ (Forall (λ i, 0 ≤ i) (active_positions x) →
     actives
     = Z.to_nat <$> filter (λ i, i < Z.of_nat (length (party x)))
                           (active_positions x)).
Proof.
  unfold get_active_pokemon. generalize (length (party x)) as len.
  intros len. revert actives.
  induction (active_positions x) as [|i r IH]; intros actives;
    cbn [active_indices].
  - intros [= <-]. repeat split; done.
  - rewrite filter_cons.
    destruct (i <? Z.of_nat len) eqn:Hi.
    + destruct (norm_index len i) as [n|] eqn:Hn; cbn; [|done].
      destruct (active_indices len r) as [ns|]; cbn; [|done].
      intros [= <-]. destruct (IH ns eq_refl) as (IH1 & IH2 & IH3).
      split; [|split].
      * constructor; [|done]. by apply norm_index_lt in Hn as [_ ?].
      * cbn. lia.
      * intros Hpos. apply Forall_cons in Hpos as [Hi0 Hr].
        rewrite decide_True by lia. cbn. rewrite <- IH3 by done.
        rewrite norm_index_nonneg in Hn by lia. by injection Hn as <-.
    + intros Hr. destruct (IH actives Hr) as (IH1 & IH2 & IH3).
      split; [done|]. split; [cbn; lia|].
      intros Hpos. apply Forall_cons in Hpos as [Hi0 Hr'].
      rewrite decide_False by lia. by apply IH3.
Qed.

Lemma active_pokemon_in_party_witness :
  Forall (λ n, (n < 3)%nat) [0%nat; 1%nat].
Proof.
  exact (proj1 (active_pokemon_in_party (trainer doubles_battle)
                  [0%nat; 1%nat] eq_refl)).
Defined.

(** ** Move execution: further properties *)

Lemma try_focus_items_defender (items_db : option ItemsDB) (draws : nat → Q)
    (defender : Pokemon) (damage : Z) (g : nat) :
  let r := HeldItemManager._try_focus_items items_db draws defender damage g in
  current_hp r.1.2 = current_hp defender
  ∧ status_manager r.1.2 = status_manager defender
  ∧ moves r.1.2 = moves defender.
Proof.
  cbv zeta. unfold HeldItemManager._try_focus_items.
  destruct (_ || _); [done|].
  destruct (HeldItemManager._get_item items_db defender) as [item|]; [|done].
  destruct (truthy_opt _ && _); [done|].
  destruct (negb _); [done|].
  destruct (requires_full_hp _ && _); [done|].
  destruct (match activation_chance (effect_data item) with
            | Some _ => _ | None => _ end) as [failed g1].
  destruct failed; [done|]. destruct (_ <=? 1); [done|].
  by destruct (one_time_use _).
Qed.

Lemma modify_damage_defender (items_db : option ItemsDB) (draws : nat → Q)
    (attacker defender : Pokemon) (move_data : MoveData) (damage : Z) (g : nat) :
  let r := HeldItemManager.modify_damage items_db draws attacker defender
             move_data damage g in
  current_hp r.1.2 = current_hp defender
  ∧ status_manager r.1.2 = status_manager defender
  ∧ moves r.1.2 = moves defender.
Proof.
  cbv zeta. unfold HeldItemManager.modify_damage.
  destruct (damage <=? 0); [done|]. cbv zeta.
  match goal with
  | |- context [HeldItemManager._try_focus_items ?a ?b ?c ?d ?e] =>
      pose proof (try_focus_items_defender a b c d e) as H;
      destruct (HeldItemManager._try_focus_items a b c d e)
        as [[[damage3 survival] defender'] g']
  end.
  exact H.
Qed.

Lemma apply_after_damage_hp (items_db : option ItemsDB) (attacker : Pokemon)
    (move_data : MoveData) (dealt : Z) :
  0 ≤ current_hp attacker →
  0 ≤ current_hp (HeldItemManager.apply_after_damage items_db attacker
                    move_data dealt).2
  ≤ current_hp attacker.
Proof.
  intros Hhp.
  unfold HeldItemManager.apply_after_damage, HeldItemManager.register_move_use.
  destruct (HeldItemManager._get_item items_db attacker) as [item|]; [|cbn; lia].
  destruct (locks_move (effect_data item)), (dealt <=? 0); cbn; try lia;
    destruct (recoil_percent (effect_data item)) as [percent|]; cbn; try lia;
    destruct (negb (num_truthy percent)); cbn; lia.
Qed.

Lemma length_party_put_pokemon (b : BattleState) (s s' : Side) (n : nat)
    (p : Pokemon) :
  length (party (battler (put_pokemon b s n p) s'))
  = length (party (battler b s')).
Proof. destruct s, s'; cbn; by rewrite ?length_insert. Qed.

(** What [strike] does to the two combatants and to nobody else. *)
Lemma strike_spec (E : BattleEngine) (b : BattleState) (action : BattleAction)
    (move_data : MoveData) (s : Side) (n : nat) (attacker : Pokemon)
    (n' : nat) (defender : Pokemon) (g : nat) :
  get_pokemon b s n = Some attacker →
  get_pokemon b (other_side s) n' = Some defender →
  let r := strike E b action move_data s n attacker (other_side s) n'
             defender g in
  ∃ attacker2,
    get_pokemon r.1.1.2 s n = Some attacker2
    ∧ get_pokemon r.1.1.2 (other_side s) n' = Some r.1.2
    ∧ (0 ≤ current_hp attacker →
       0 ≤ current_hp attacker2 ≤ current_hp attacker)
    ∧ (0 ≤ current_hp defender →
       0 ≤ current_hp r.1.2 ≤ current_hp defender)
    ∧ ((∃ sm, status_manager defender = Some sm
              ∧ "endure" ∈ volatile_statuses sm) →
       1 < current_hp defender → 1 ≤ current_hp r.1.2)
    ∧ moves r.1.2 = moves defender
    ∧ (∀ m, m ≠ n → get_pokemon r.1.1.2 s m = get_pokemon b s m)
    ∧ (∀ m, m ≠ n' →
            get_pokemon r.1.1.2 (other_side s) m = get_pokemon b (other_side s) m).
Proof.
  intros Hatt Hdef. unfold strike. cbv zeta.
  destruct (if ENHANCED_SYSTEMS_AVAILABLE E then _ else _)
    as [[[damage0 is_crit] effectiveness] effect_msgs].
  match goal with
  | |- context [if held_item_manager E
                then HeldItemManager.modify_damage ?a ?b ?c ?d ?e ?f ?g
                else ?z] =>
      pose proof (modify_damage_defender a b c d e f g) as Hmd;
      destruct (if held_item_manager E
                then HeldItemManager.modify_damage a b c d e f g else z)
        as [[[damage1 held_msgs] defender1] g1] eqn:Hmod
  end.
  assert (current_hp defender1 = current_hp defender
          ∧ status_manager defender1 = status_manager defender
          ∧ moves defender1 = moves defender) as (Hhp1 & Hsm1 & Hmv1).
  { destruct (held_item_manager E).
    - rewrite Hmod in Hmd. exact Hmd.
    - by injection Hmod as _ _ <- _. }
  clear Hmd Hmod.
  match goal with
  | |- context [if held_item_manager E
                then HeldItemManager.apply_after_damage ?a ?b ?c ?d
                else ?z] =>
      pose proof (apply_after_damage_hp a b c d) as Had;
      destruct (if held_item_manager E
                then HeldItemManager.apply_after_damage a b c d else z)
        as [post_msgs attacker2] eqn:Hpost
  end.
  assert (0 ≤ current_hp attacker →
          0 ≤ current_hp attacker2 ≤ current_hp attacker) as Hhp2.
  { intros H0. destruct (held_item_manager E).
    - rewrite Hpost in Had. cbn in Had. by apply Had.
    - injection Hpost as _ <-. cbn. lia. }
  clear Had Hpost.
  cbn [fst snd].
  set (endures := (current_hp defender1 <=? damage1) && _ && _).
  set (damage2 := if endures then current_hp defender1 - 1 else damage1).
  set (defender2 := if 0 <? damage2 then _ else defender1).
  apply lookup_lt_Some in Hatt as Hlen. apply lookup_lt_Some in Hdef as Hlen'.
  exists attacker2.
  split. { apply get_put_pokemon_same. by rewrite !length_party_put_pokemon. }
  split.
  { rewrite get_put_pokemon_other by (intros H; by destruct s).
    apply get_put_pokemon_same. by rewrite length_party_put_pokemon. }
  split; [exact Hhp2|].
  split.
  { intros H0. subst defender2. destruct (0 <? damage2) eqn:Hd; cbn; lia. }
  split.
  { intros (sm & Hsm & Hend) Hgt. subst defender2 damage2 endures.
    rewrite Hsm1, Hsm, (bool_decide_eq_true_2 _ Hend), andb_true_r.
    destruct (current_hp defender1 <=? damage1) eqn:Hle.
    - assert ((1 <? current_hp defender1) = true) as -> by lia. cbn [andb].
      assert ((0 <? current_hp defender1 - 1) = true) as -> by lia. cbn. lia.
    - cbn [andb]. destruct (0 <? damage1) eqn:Hd; cbn; lia. }
  split.
  { subst defender2. by destruct (0 <? damage2). }
  split.
  - intros m Hm. rewrite get_put_pokemon_ne by done.
    rewrite get_put_pokemon_other by apply other_side_ne.
    by rewrite get_put_pokemon_ne.
  - intros m Hm. rewrite get_put_pokemon_other by (intros H; by destruct s).
    rewrite get_put_pokemon_ne by done.
    apply get_put_pokemon_other. intros H; by destruct s.
Qed.

(** The defender's side after the faint / daze block: as it was, or dazed. *)
Lemma faint_or_daze_defender (b : BattleState) (def_side : Side) (def_n : nat)
    (defender : Pokemon) :
  let b' := (faint_or_daze b def_side def_n defender).2 in
  party (battler b' def_side) = party (battler b def_side)
  ∨ (def_side = Opponent ∧ b' = dazed b def_n defender).
Proof.
  cbv zeta. unfold faint_or_daze.
  destruct (bool_decide (battle_type b = WILD) && bool_decide (def_side = Opponent))
    eqn:Hwild.
  { right. apply andb_true_iff in Hwild as [_ Hs].
    apply bool_decide_eq_true in Hs. by subst. }
  left.
  destruct (bool_decide (def_side = Trainer) && negb (is_ai (battler b def_side))).
  { destruct (has_usable_pokemon _); [|done].
    destruct (0 <? _); cbn; [by destruct def_side|apply party_check_battle_end]. }
  destruct (is_ai _ && _); [|done].
  destruct (has_usable_pokemon _); cbn; [|apply party_check_battle_end].
  destruct (first_healthy _ _ _); cbn; by destruct def_side.
Qed.

(** The two ways [_execute_move] returns. *)
Lemma execute_move_cases (E : BattleEngine) (b b' : BattleState)
    (action : BattleAction) (g g' : nat) (msgs : list Msg) (s : Side) (n : nat)
    (attacker : Pokemon) :
  _execute_move E b action g = Some (msgs, b', g') →
  move_attacker b action = Some (s, n) →
  get_pokemon b s n = Some attacker →
  ∃ n' defender,
    move_defender b action = Some (other_side s, n')
    ∧ get_pokemon b (other_side s) n' = Some defender
    ∧ ((∃ msg, move_refusal E b action attacker = inl msg ∧ b' = b)
       ∨ (∃ move_data,
            move_refusal E b action attacker = inr move_data
            ∧ perform_move E b action move_data s n attacker (other_side s) n'
                           defender g = (msgs, b', g'))).
Proof.
  intros Hexec Hatt Hget. unfold _execute_move in Hexec.
  rewrite Hatt in Hexec. cbn [mbind option_bind] in Hexec.
  destruct (move_defender b action) as [[def_side def_n]|] eqn:Hdef;
    cbn [mbind option_bind] in Hexec; [|done].
  rewrite Hget in Hexec. cbn [mbind option_bind] in Hexec.
  destruct (get_pokemon b def_side def_n) as [defender|] eqn:Hgetd;
    cbn [mbind option_bind] in Hexec; [|done].
  assert (def_side = other_side s) as ->.
  { unfold move_attacker in Hatt. unfold move_defender in Hdef.
    destruct (get_active_pokemon (battler b (side_of b _))) as [l|];
      cbn in Hatt; [|done].
    destruct (l !! 0%nat); cbn in Hatt; [|done]. injection Hatt as <- _.
    destruct (get_active_pokemon (battler b (other_side _))) as [l'|];
      cbn in Hdef; [|done].
    destruct (py_index l' _); cbn in Hdef; [|done]. by injection Hdef as <- _. }
  exists def_n, defender. split; [done|]. split; [done|].
  destruct (move_refusal E b action attacker) as [msg|md].
  - left. exists msg. split; [done|]. by injection Hexec as _ <- _.
  - right. exists md. split; [done|]. by injection Hexec.
Qed.

(** What a move that returns does to the two combatants. *)
Lemma execute_move_outcome (E : BattleEngine) (b b' : BattleState)
    (action : BattleAction) (g g' : nat) (msgs : list Msg) (s : Side) (n : nat)
    (attacker : Pokemon) :
  _execute_move E b action g = Some (msgs, b', g') →
  move_attacker b action = Some (s, n) →
  get_pokemon b s n = Some attacker →
  ∃ n' defender attacker' defender',
    move_defender b action = Some (other_side s, n')
    ∧ get_pokemon b (other_side s) n' = Some defender
    ∧ get_pokemon b' s n = Some attacker'
    ∧ get_pokemon b' (other_side s) n' = Some defender'
    ∧ (0 ≤ current_hp attacker →
       0 ≤ current_hp attacker' ≤ current_hp attacker)
    ∧ (0 < current_hp defender →
       0 ≤ current_hp defender' ≤ current_hp defender)
    ∧ ((∃ sm, status_manager defender = Some sm
              ∧ "endure" ∈ volatile_statuses sm) →
       1 < current_hp defender →
       1 ≤ current_hp defender' ∧ control b' = control b)
    ∧ moves defender' = moves defender
    ∧ (∀ m, m ≠ n → get_pokemon b' s m = get_pokemon b s m)
    ∧ (∀ m, m ≠ n' →
            get_pokemon b' (other_side s) m = get_pokemon b (other_side s) m).
Proof.
  intros Hexec Hatt Hget.
  destruct (execute_move_cases _ _ _ _ _ _ _ _ _ _ Hexec Hatt Hget)
    as (n' & defender & Hdef & Hgetd & Hcase).
  exists n', defender.
  destruct Hcase as [(msg & _ & ->)|(md & _ & Hperf)].
  { exists attacker, defender.
    split; [done|]. split; [done|]. split; [done|]. split; [done|].
    split; [lia|]. split; [lia|]. split; [intros _ Hgt; split; [lia|done]|].
    done. }
  unfold perform_move in Hperf.
  destruct (strike_spec E b action md s n attacker n' defender g Hget Hgetd)
    as (attacker2 & Ha2 & Hd2 & Hhpa & Hhpd & Hend & Hmoves & Hoa & Hod).
  pose proof (control_strike E b action md s (other_side s) n n' attacker
                defender g) as Hctl.
  destruct (strike E b action md s n attacker (other_side s) n' defender g)
    as [[[smsgs b3] defender2] g1].
  cbn [fst snd] in Ha2, Hd2, Hhpd, Hend, Hmoves, Hoa, Hod, Hctl.
  destruct (current_hp defender2 <=? 0) eqn:Hko.
  - pose proof (party_faint_or_daze b3 (other_side s) s n' defender2
                  (other_side_ne s)) as Hps.
    pose proof (faint_or_daze_defender b3 (other_side s) n' defender2) as Hpd.
    destruct (faint_or_daze b3 (other_side s) n' defender2) as [fm b4].
    cbn [snd] in Hps, Hpd. cbv zeta in Hpd. injection Hperf as _ <- _.
    assert (∀ m, get_pokemon b4 s m = get_pokemon b3 s m) as Hsame.
    { intros m. unfold get_pokemon. by rewrite Hps. }
    destruct Hpd as [Hpd|[Hside ->]].
    + exists attacker2, defender2. rewrite Hsame.
      assert (∀ m, get_pokemon b4 (other_side s) m
                   = get_pokemon b3 (other_side s) m) as Hsame'.
      { intros m. unfold get_pokemon. by rewrite Hpd. }
      rewrite Hsame'.
      split; [done|]. split; [done|]. split; [done|]. split; [done|].
      split; [exact Hhpa|]. split; [intros H0; apply Hhpd; lia|].
      split; [intros Hsm Hgt; specialize (Hend Hsm Hgt); lia|].
      split; [exact Hmoves|]. split.
      * intros m Hm. rewrite Hsame. by apply Hoa.
      * intros m Hm. rewrite Hsame'. by apply Hod.
    + destruct (dazed_fields b3 n' defender2)
        as (_ & _ & _ & _ & _ & _ & Htr & Hop).
      cbv zeta in Htr, Hop.
      assert (s = Trainer) as -> by (by destruct s).
      cbn [other_side] in *.
      assert (∀ m, get_pokemon (dazed b3 n' defender2) Trainer m
                   = get_pokemon b3 Trainer m) as Hsame2.
      { intros m. unfold get_pokemon. cbn [battler]. by rewrite Htr. }
      apply lookup_lt_Some in Hd2 as Hlen.
      exists attacker2, (set_current_hp defender2 1). rewrite Hsame2.
      split; [done|]. split; [done|]. split; [done|].
      split.
      { unfold get_pokemon. cbn [battler]. rewrite Hop.
        by apply list_lookup_insert_eq. }
      split; [exact Hhpa|]. split; [intros H0; cbn; lia|].
      split; [intros Hsm Hgt; specialize (Hend Hsm Hgt); lia|].
      split; [exact Hmoves|]. split.
      * intros m Hm. rewrite Hsame2. by apply Hoa.
      * intros m Hm. unfold get_pokemon at 1. cbn [battler]. rewrite Hop.
        rewrite list_lookup_insert_ne by done. by apply Hod.
  - injection Hperf as _ <- _. exists attacker2, defender2.
    split; [done|]. split; [done|]. split; [done|]. split; [done|].
    split; [exact Hhpa|]. split; [intros H0; apply Hhpd; lia|].
    split; [intros Hsm Hgt; split; [by apply Hend|exact Hctl]|]. done.
Qed.

(** X8.  A move that returns never raises the HP of the attacker or of a
    defender that had HP left, and never takes either below 0; it leaves the
    defender's move list and every other member of both parties as they
    were. *)
Theorem move_hp_bounds (E : BattleEngine) (b b' : BattleState)
    (action : BattleAction) (g g' : nat) (msgs : list Msg) (s : Side) (n : nat)
    (attacker : Pokemon) :
  _execute_move E b action g = Some (msgs, b', g') →
  move_attacker b action = Some (s, n) →
  get_pokemon b s n = Some attacker →
  ∃ n' defender attacker' defender',
    move_defender b action = Some (other_side s, n')
    ∧ get_pokemon b (other_side s) n' = Some defender
    ∧ get_pokemon b' s n = Some attacker'
    ∧ get_pokemon b' (other_side s) n' = Some defender'
    ∧ (0 ≤ current_hp attacker →
       0 ≤ current_hp attacker' ≤ current_hp attacker)
    ∧ (0 < current_hp defender →
       0 ≤ current_hp defender' ≤ current_hp defender)
    ∧ moves defender' = moves defender
    ∧ (∀ m, m ≠ n → get_pokemon b' s m = get_pokemon b s m)
    ∧ (∀ m, m ≠ n' →
            get_pokemon b' (other_side s) m = get_pokemon b (other_side s) m).
Proof.
  intros Hexec Hatt Hget.
  destruct (execute_move_outcome _ _ _ _ _ _ _ _ _ _ Hexec Hatt Hget)
    as (n' & defender & attacker' & defender' & H1 & H2 & H3 & H4 & H5 & H6
        & _ & H8 & H9 & H10).
  by exists n', defender, attacker', defender'.
Qed.

Lemma move_hp_bounds_witness :
  ∃ defender',
    get_pokemon duel_after_tackle.1.2 Opponent 0 = Some defender'
    ∧ 0 ≤ current_hp defender' ≤ 100.
Proof.
  destruct (move_hp_bounds plain_engine duel duel_after_tackle.1.2
              (move_tackle 7) 0 duel_after_tackle.2 duel_after_tackle.1.1
              Trainer 0 (hundred_hp ["normal"]) eq_refl eq_refl eq_refl)
    as (n' & defender & attacker' & defender' & Hdef & Hget & _ & Hget'
        & _ & Hhp & _).
  injection Hdef as <-. injection Hget as <-.
  exists defender'. split; [exact Hget'|]. apply Hhp. cbn. lia.
Defined.

(** X9.  A defender under endure with more than 1 HP is left with at least
    1 HP by any move that returns, so the faint block does not run: the
    control fields of the battle (phase, forced switch, end of battle,
    pending actions, active positions) are as before the move. *)
Theorem endure_leaves_one_hp (E : BattleEngine) (b b' : BattleState)
    (action : BattleAction) (g g' : nat) (msgs : list Msg) (s : Side)
    (n n' : nat) (attacker defender : Pokemon) (sm : StatusManager) :
  _execute_move E b action g = Some (msgs, b', g') →
  move_attacker b action = Some (s, n) →
  get_pokemon b s n = Some attacker →
  move_defender b action = Some (other_side s, n') →
  get_pokemon b (other_side s) n' = Some defender →
  status_manager defender = Some sm →
  "endure" ∈ volatile_statuses sm →
  1 < current_hp defender →
  ∃ defender',
    get_pokemon b' (other_side s) n' = Some defender'
    ∧ 1 ≤ current_hp defender' ≤ current_hp defender
    ∧ control b' = control b.
Proof.
  intros Hexec Hatt Hget Hdef Hgetd Hsm Hendure Hhp.
  destruct (execute_move_outcome _ _ _ _ _ _ _ _ _ _ Hexec Hatt Hget)
    as (n0 & defender0 & attacker' & defender' & H1 & H2 & _ & H4 & _ & H6
        & H7 & _).
  rewrite Hdef in H1. injection H1 as <-.
  rewrite Hgetd in H2. injection H2 as <-.
  exists defender'. split; [exact H4|].
  destruct H7 as [Hone Hctl]; [by exists sm|done|].
  split; [|exact Hctl]. split; [exact Hone|]. apply H6. lia.
Qed.

Lemma endure_leaves_one_hp_witness :
  ∃ defender',
    get_pokemon endured_tackle.1.2 Opponent 0 = Some defender'
    ∧ 1 ≤ current_hp defender' ≤ 5
    ∧ control endured_tackle.1.2 = control endure_duel.
Proof.
  refine (endure_leaves_one_hp plain_engine endure_duel endured_tackle.1.2
            (move_tackle 7) 0 endured_tackle.2 endured_tackle.1.1
            Trainer 0 0 (hundred_hp ["normal"]) enduring
            {| major_status := None; volatile_statuses := ["endure"] |}
            eq_refl eq_refl eq_refl eq_refl eq_refl eq_refl _ _).
  - apply list_elem_of_here.
  - cbn. lia.
Defined.

(** ** The faint block *)








(** ** The first active slot *)





(** ** Registering actions *)

Lemma dict_get_set_eq {V} (k : Z) (v : V) (d : list (Z * V)) :
  dict_get k (dict_set k v d) = Some v.
Proof.
  induction d as [|[k' v'] r IH]; cbn.
  - by rewrite Z.eqb_refl.
  - destruct (k' =? k) eqn:Hk; cbn; [by rewrite Z.eqb_refl|by rewrite Hk].
Qed.

Lemma dict_get_set_ne {V} (k k0 : Z) (v : V) (d : list (Z * V)) :
  k0 ≠ k → dict_get k0 (dict_set k v d) = dict_get k0 d.
Proof.
  intros Hne. assert ((k =? k0) = false) as Hf by (apply Z.eqb_neq; congruence).
  induction d as [|[k' v'] r IH]; cbn.
  - by rewrite Hf.
  - destruct (k' =? k) eqn:Hk; cbn.
    + apply Z.eqb_eq in Hk as ->. by rewrite Hf.
    + by rewrite IH.
Qed.

Lemma dict_mem_set {V} (k k0 : Z) (v : V) (d : list (Z * V)) :
  dict_mem k0 (dict_set k v d) = (k0 =? k) || dict_mem k0 d.
Proof.
  unfold dict_mem. induction d as [|[k' v'] r IH]; cbn.
  - by rewrite (Z.eqb_sym k k0).
  - destruct (k' =? k) eqn:Hk; cbn.
    + apply Z.eqb_eq in Hk as ->. rewrite (Z.eqb_sym k k0).
      by destruct (k0 =? k).
    + rewrite IH. destruct (k' =? k0), (k0 =? k); done.
Qed.

Lemma dict_set_set {V} (k : Z) (v1 v2 : V) (d : list (Z * V)) :
  dict_set k v2 (dict_set k v1 d) = dict_set k v2 d.
Proof.
  induction d as [|[k' v'] r IH]; cbn.
  - by rewrite Z.eqb_refl.
  - destruct (k' =? k) eqn:Hk; cbn; [by rewrite Z.eqb_refl|].
    by rewrite Hk, IH.
Qed.

Lemma forallb_filter_nil {A} (f : A → bool) (l : list A) :
  forallb f l = true ↔ filter (fun x => f x = false) l = [].
Proof.
  induction l as [|x r IH]; [done|].
  cbn [forallb]. rewrite filter_cons. destruct (f x) eqn:Hx; cbn [andb].
  - rewrite decide_False by done. exact IH.
  - rewrite decide_True by done. done.
Qed.

(** X12.  A registration that passes the forced-switch gate for a battle
    that is not over, under the id of one of the two sides, stores the action
    under that id (in the place of an earlier one, if any) and leaves the
    other pending actions alone; the combatants are not touched, a forced
    switch is cleared but not performed.  The reply lists as waited for
    exactly the sides run by a person that have no pending action, never the
    registering side, and says the turn is ready exactly when that list is
    empty. *)
Theorem register_action_accepts (b : BattleState) (id : Z) (action : BattleAction) :
  (phase b = FORCED_SWITCH →
   forced_switch_battler_id b = Some id ∧ action_type action = A_switch) →
  is_over b = false →
  id = battler_id (trainer b) ∨ id = battler_id (opponent b) →
  ∃ waiting ready,
    register_action_on b id action
    = (Reg_ok waiting ready,
       set_pending_actions (past_gate b)
         (dict_set id action (pending_actions b)))
    ∧ dict_get id (dict_set id action (pending_actions b)) = Some action
    ∧ (∀ other, other ≠ id →
         dict_get other (dict_set id action (pending_actions b))
         = dict_get other (pending_actions b))
    ∧ (ready = true ↔ waiting = [])
    ∧ (∀ rid, rid ∈ waiting ↔
         rid ≠ id ∧ dict_mem rid (pending_actions b) = false
         ∧ (rid = battler_id (trainer b) ∧ is_ai (trainer b) = false
            ∨ rid = battler_id (opponent b) ∧ is_ai (opponent b) = false)).
Proof.
  intros Hgate Hover Hid.
  set (pending := dict_set id action (pending_actions b)).
  set (required :=
         (if is_ai (trainer b) then [] else [battler_id (trainer b)])
         ++ (if is_ai (opponent b) then [] else [battler_id (opponent b)])).
  exists (filter (fun rid => dict_mem rid pending = false) required),
         (forallb (fun rid => dict_mem rid pending) required).
  assert ((id =? battler_id (trainer b)) || (id =? battler_id (opponent b))
          = true) as Hvalid.
  { destruct Hid as [<-| <-]; rewrite Z.eqb_refl; [done|apply orb_true_r]. }
  split.
  { unfold register_action_on, past_gate. cbv zeta.
    case_bool_decide as Hphase.
    - destruct (Hgate Hphase) as [Hforced Hswitch].
      rewrite (bool_decide_eq_true_2 _ Hforced).
      rewrite (bool_decide_eq_true_2 _ Hswitch). cbn [negb].
      change (is_over (set_forced_switch_battler_id
                         (set_phase b WAITING_ACTIONS) None))
        with (is_over b).
      rewrite Hover.
      change (trainer (set_forced_switch_battler_id
                         (set_phase b WAITING_ACTIONS) None))
        with (trainer b).
      change (opponent (set_forced_switch_battler_id
                          (set_phase b WAITING_ACTIONS) None))
        with (opponent b).
      rewrite Hvalid. reflexivity.
    - rewrite Hover, Hvalid. reflexivity. }
  split; [apply dict_get_set_eq|].
  split; [intros other Hne; by apply dict_get_set_ne|].
  split; [apply forallb_filter_nil|].
  intros rid. rewrite list_elem_of_filter. subst pending.
  rewrite dict_mem_set, orb_false_iff, Z.eqb_neq.
  assert (rid ∈ required
          ↔ rid = battler_id (trainer b) ∧ is_ai (trainer b) = false
            ∨ rid = battler_id (opponent b) ∧ is_ai (opponent b) = false)
    as Hreq.
  { subst required. rewrite elem_of_app.
    destruct (is_ai (trainer b)), (is_ai (opponent b));
      rewrite ?list_elem_of_singleton, ?elem_of_nil; intuition congruence. }
  rewrite Hreq. tauto.
Qed.

Lemma register_action_accepts_witness :
  (register_action_on duel 7 (move_tackle 7)).2
  = set_pending_actions duel [(7, move_tackle 7)].
Proof.
  destruct (register_action_accepts duel 7 (move_tackle 7)
              ltac:(discriminate) eq_refl ltac:(by left))
    as (waiting & ready & Hreg & _).
  rewrite Hreg. reflexivity.
Defined.

(** X13.  Outside a forced switch the last registration wins: registering
    twice under the same id gives the reply and the battle that registering
    the second action alone gives. *)
Theorem register_action_last_wins (b : BattleState) (id : Z)
    (first second : BattleAction) :
  phase b ≠ FORCED_SWITCH →
  register_action_on (register_action_on b id first).2 id second
  = register_action_on b id second.
Proof.
  intros Hphase. unfold register_action_on at 2.
  rewrite (bool_decide_eq_false_2 _ Hphase).
  destruct (is_over b) eqn:Hover; [done|].
  destruct (negb _) eqn:Hvalid; [done|].
  cbn [snd]. unfold register_action_on.
  change (phase (set_pending_actions b
                   (dict_set id first (pending_actions b))))
    with (phase b).
  rewrite (bool_decide_eq_false_2 _ Hphase).
  change (is_over (set_pending_actions b
                     (dict_set id first (pending_actions b))))
    with (is_over b).
  rewrite Hover.
  change (trainer (set_pending_actions b
                     (dict_set id first (pending_actions b))))
    with (trainer b).
  change (opponent (set_pending_actions b
                      (dict_set id first (pending_actions b))))
    with (opponent b).
  rewrite Hvalid.
  change (pending_actions (set_pending_actions b
                             (dict_set id first (pending_actions b))))
    with (dict_set id first (pending_actions b)).
  rewrite dict_set_set. reflexivity.
Qed.

Lemma register_action_last_wins_witness :
  register_action_on (register_action_on duel 7 (switch_to 7 1)).2 7
    (move_tackle 7)
  = (Reg_ok [8] false, set_pending_actions duel [(7, move_tackle 7)]).
Proof.
  rewrite (register_action_last_wins duel 7 (switch_to 7 1) (move_tackle 7));
    [reflexivity|discriminate].
Defined.

(** X14.  A refused registration never touches the pending actions or the
    two sides.  The two forced-switch refusals leave the battle as it was;
    the refusals for a finished battle and for an unknown id leave it as it
    was too, except that a forced switch that was pending has been cleared
    before the refusal. *)
Theorem register_action_refusals (b b' : BattleState) (id : Z)
    (action : BattleAction) (e : Error) :
  register_action_on b id action = (Reg_error e, b') →
  pending_actions b' = pending_actions b
  ∧ trainer b' = trainer b ∧ opponent b' = opponent b
  ∧ match e with
    | You_must_switch =>
        b' = b ∧ phase b = FORCED_SWITCH
        ∧ forced_switch_battler_id b = Some id
        ∧ action_type action ≠ A_switch
    | Waiting_for_opponent_to_switch =>
        b' = b ∧ phase b = FORCED_SWITCH
        ∧ forced_switch_battler_id b ≠ Some id
    | Battle_is_already_over => is_over b = true ∧ b' = past_gate b
    | Invalid_battler_ID =>
        is_over b = false ∧ id ≠ battler_id (trainer b)
        ∧ id ≠ battler_id (opponent b) ∧ b' = past_gate b
    | _ => False
    end.
Proof.
  assert (∀ b1 : BattleState,
            is_over b1 = is_over b → trainer b1 = trainer b →
            opponent b1 = opponent b →
            pending_actions b1 = pending_actions b →
            (if is_over b1 then (Reg_error Battle_is_already_over, b1)
             else if negb ((id =? battler_id (trainer b1))
                           || (id =? battler_id (opponent b1)))
             then (Reg_error Invalid_battler_ID, b1)
             else
               let b2 := set_pending_actions b1
                           (dict_set id action (pending_actions b1)) in
               let required_actions :=
                 (if is_ai (trainer b2) then [] else [battler_id (trainer b2)])
                 ++ (if is_ai (opponent b2) then []
                     else [battler_id (opponent b2)]) in
               (Reg_ok (filter (fun rid => dict_mem rid (pending_actions b2) = false)
                               required_actions)
                       (forallb (fun rid => dict_mem rid (pending_actions b2))
                                required_actions), b2))
            = (Reg_error e, b') →
            b' = b1
            ∧ match e with
              | Battle_is_already_over => is_over b = true
              | Invalid_battler_ID =>
                  is_over b = false ∧ id ≠ battler_id (trainer b)
                  ∧ id ≠ battler_id (opponent b)
              | _ => False
              end) as Hrest.
  { intros b1 Hover Htr Hop Hpend. rewrite Hover, Htr, Hop.
    destruct (is_over b); [by intros [= <- <-]|].
    destruct (negb _) eqn:Hvalid; [|done].
    intros [= <- <-]. apply negb_true_iff, orb_false_iff in Hvalid as [H1 H2].
    apply Z.eqb_neq in H1, H2. done. }
  unfold register_action_on, past_gate.
  destruct (bool_decide (phase b = FORCED_SWITCH)) eqn:Hphase.
  - apply bool_decide_eq_true in Hphase.
    destruct (bool_decide (forced_switch_battler_id b = Some id)) eqn:Hforced.
    + apply bool_decide_eq_true in Hforced.
      destruct (bool_decide (action_type action = A_switch)) eqn:Hswitch;
        cbn [negb].
      * intros Hreg.
        apply Hrest in Hreg as [-> He]; [|done..].
        split; [done|]. split; [done|]. split; [done|].
        destruct e; try done. tauto.
      * apply bool_decide_eq_false in Hswitch. by intros [= <- <-].
    + apply bool_decide_eq_false in Hforced. by intros [= <- <-].
  - intros Hreg. apply Hrest in Hreg as [-> He]; [|done..].
    split; [done|]. split; [done|]. split; [done|].
    destruct e; try done. tauto.
Qed.

Lemma register_action_refusals_witness :
  phase human_faint_battle' = FORCED_SWITCH
  ∧ forced_switch_battler_id human_faint_battle' = Some 7.
Proof.
  destruct (register_action_refusals human_faint_battle' human_faint_battle'
              7 (move_tackle 7) You_must_switch eq_refl)
    as (_ & _ & _ & _ & Hphase & Hforced & _).
  by split.
Defined.

(** ** What a turn leaves alone *)

Lemma frame_fields (b b' : BattleState) :
  frame b' = frame b →
  settings b' = settings b ∧ turn_number b' = turn_number b.
Proof.
  intros H. split; [exact (f_equal fst H)|exact (f_equal snd H)].
Qed.

Lemma frame_put_pokemon (b : BattleState) (s : Side) (n : nat) (p : Pokemon) :
  frame (put_pokemon b s n p) = frame b.
Proof.
  destruct s; unfold frame, settings, side_settings, put_pokemon; simpl;
    by rewrite length_insert.
Qed.

Lemma frame_set_hazards_of (b : BattleState) (s : Side) (h : gmap string Z) :
  frame (set_hazards_of b s h) = frame b.
Proof. by destruct s. Qed.

Lemma frame_apply_entry_effects (b : BattleState) (e : EntryEffects) :
  frame (apply_entry_effects b e) = frame b.
Proof.
  unfold frame, settings, side_settings, apply_entry_effects; simpl.
  by rewrite !length_imap.
Qed.

Lemma frame_apply_entry_hazards (E : BattleEngine) (b b' : BattleState)
    (s : Side) (n : nat) (msgs : list Msg) :
  _apply_entry_hazards E b s n = Some (msgs, b') → frame b' = frame b.
Proof.
  unfold _apply_entry_hazards. case_bool_decide; [by intros [= _ <-]|].
  destruct (get_pokemon b s n) as [p0|]; simpl; [|discriminate].
  destruct (stealth_rock_step E _ p0) as [m1 p1].
  destruct (spikes_step _ p1) as [m2 p2].
  destruct (toxic_spikes_step E _ p2) as [[m3 p3] absorbed].
  destruct (sticky_web_step _ _ p3) as [m4 p4].
  intros [= _ <-]. destruct absorbed.
  - by rewrite frame_set_hazards_of, frame_put_pokemon.
  - by rewrite frame_put_pokemon.
Qed.

Lemma frame_execute_switch (E : BattleEngine) (b b' : BattleState)
    (action : BattleAction) (forced : bool) (msgs : list Msg) :
  _execute_switch E b action forced = Some (msgs, b') → frame b' = frame b.
Proof.
  unfold _execute_switch. cbv zeta.
  set (s := side_of b (action_battler_id action)).
  set (x := battler b s).
  destruct (get_active_pokemon x) as [actives|]; simpl; [|discriminate].
  destruct (actives !! 0%nat) as [old_n|]; simpl; [|discriminate].
  destruct (party x !! old_n) as [old_pokemon|]; simpl; [|discriminate].
  destruct (switch_to_position action) as [target|]; simpl; [|discriminate].
  destruct (norm_index (length (party x)) target) as [new_n|]; simpl; [|discriminate].
  destruct (party x !! new_n) as [new0|]; simpl; [|discriminate].
  destruct (active_positions x) as [|a0 others] eqn:Hact; [discriminate|].
  set (b1 := set_battler b s (set_active_positions x (target :: others))).
  assert (frame b1 = frame b) as H10 by (subst b1 x; by destruct s).
  set (b2 := if held_item_manager E then _ else b1).
  assert (frame b2 = frame b1) as H21.
  { subst b2. destruct (held_item_manager E); [apply frame_put_pokemon|done]. }
  destruct (get_pokemon b2 s new_n) as [new_pokemon|]; simpl; [|discriminate].
  set (r3 := if ENHANCED_SYSTEMS_AVAILABLE E then _ else _).
  assert (frame r3.2 = frame b2) as H32.
  { subst r3. destruct (ENHANCED_SYSTEMS_AVAILABLE E); simpl;
      [apply frame_apply_entry_effects|done]. }
  destruct r3 as [ability_msgs b3]. simpl in H32.
  destruct (_apply_entry_hazards E b3 s new_n) as [[hazard_msgs b4]|] eqn:Hhz;
    simpl; [|discriminate].
  apply frame_apply_entry_hazards in Hhz.
  destruct (get_pokemon b4 s old_n); simpl; [|discriminate].
  destruct (get_pokemon b4 s new_n); simpl; [|discriminate].
  intros [= _ <-]. congruence.
Qed.

Lemma frame_strike (E : BattleEngine) (b : BattleState) (action : BattleAction)
    (move_data : MoveData) (s s' : Side) (n n' : nat) (attacker defender : Pokemon)
    (g : nat) :
  frame (strike E b action move_data s n attacker s' n' defender g).1.1.2
  = frame b.
Proof.
  unfold strike. cbv zeta.
  destruct (if ENHANCED_SYSTEMS_AVAILABLE E then _ else _)
    as [[[damage0 is_crit] effectiveness] effect_msgs].
  destruct (if held_item_manager E
            then HeldItemManager.modify_damage _ _ _ _ _ _ _ else _)
    as [[[damage1 held_msgs] defender1] g1].
  destruct (if held_item_manager E
            then HeldItemManager.apply_after_damage _ _ _ _ else _)
    as [post_msgs attacker2].
  simpl. by rewrite !frame_put_pokemon.
Qed.

Lemma frame_check_battle_end (b : BattleState) :
  frame (_check_battle_end b) = frame b.
Proof.
  unfold _check_battle_end.
  destruct (negb _ && negb _); [done|].
  destruct (negb _); [done|]. by destruct (negb _).
Qed.

Lemma frame_faint_or_daze (b : BattleState) (def_side : Side) (def_n : nat)
    (defender : Pokemon) :
  frame (faint_or_daze b def_side def_n defender).2 = frame b.
Proof.
  unfold faint_or_daze. cbv zeta.
  destruct (bool_decide (battle_type b = WILD) && bool_decide (def_side = Opponent)).
  { cbn [snd].
    transitivity (frame (put_pokemon b def_side def_n (set_current_hp defender 1)));
      [done|apply frame_put_pokemon]. }
  destruct (bool_decide (def_side = Trainer) && negb (is_ai (battler b def_side))).
  { destruct (has_usable_pokemon _); [|done].
    destruct (0 <? _); cbn [snd]; [done|apply frame_check_battle_end]. }
  destruct (is_ai _ && _); [|done].
  destruct (has_usable_pokemon _); cbn [snd]; [|apply frame_check_battle_end].
  by destruct (first_healthy _ _ _).
Qed.

Lemma frame_execute_move (E : BattleEngine) (b b' : BattleState)
    (action : BattleAction) (g g' : nat) (msgs : list Msg) :
  _execute_move E b action g = Some (msgs, b', g') → frame b' = frame b.
Proof.
  unfold _execute_move.
  destruct (move_attacker b action) as [[s n]|]; simpl; [|done].
  destruct (move_defender b action) as [[s' n']|]; simpl; [|done].
  destruct (get_pokemon b s n) as [attacker|]; simpl; [|done].
  destruct (get_pokemon b s' n') as [defender|]; simpl; [|done].
  destruct (move_refusal E b action attacker) as [msg|md].
  { by intros [= _ <- _]. }
  unfold perform_move.
  pose proof (frame_strike E b action md s s' n n' attacker defender g) as Hc.
  destruct (strike E b action md s n attacker s' n' defender g)
    as [[[smsgs b3] defender2] g1]. simpl in Hc.
  destruct (current_hp defender2 <=? 0).
  - pose proof (frame_faint_or_daze b3 s' n' defender2) as Hf.
    destruct (faint_or_daze b3 s' n' defender2) as [fm b4]. simpl in Hf.
    intros [= _ <- _]. congruence.
  - by intros [= _ <- _].
Qed.

Lemma frame_execute_action (E : BattleEngine) (b b' : BattleState)
    (action : BattleAction) (g g' : nat) (msgs : list Msg) :
  _execute_action E b action g = Some (msgs, b', g') → frame b' = frame b.
Proof.
  unfold _execute_action. destruct (action_type action).
  - apply frame_execute_move.
  - destruct (_execute_switch E b action false) as [[m b1]|] eqn:Hsw;
      simpl; [|done].
    intros [= _ <- _]. by apply frame_execute_switch in Hsw.
  - simpl. by intros [= _ <- _].
  - unfold _execute_flee.
    destruct (negb (bool_decide (battle_type b = WILD))).
    + by intros [= _ <- _].
    + unfold random. by destruct (negb (Qle_bool _ _)); intros [= _ <- _].
Qed.

Lemma frame_run_actions (E : BattleEngine) (actions : list BattleAction)
    (b b' : BattleState) (g g' : nat) (sw sw' : list Msg) :
  run_actions E actions b g sw = Some (b', g', sw') → frame b' = frame b.
Proof.
  revert b g sw. induction actions as [|action rest IH]; intros b g sw; simpl.
  { by intros [= <- _ _]. }
  destruct (is_over b || wild_dazed b); [by intros [= <- _ _]|].
  destruct (get_active_pokemon _) as [actives|]; simpl; [|done].
  destruct (bool_decide (actives = []) || all_fainted _ actives); [apply IH|].
  destruct (bool_decide (phase b = FORCED_SWITCH) && _ && _); [apply IH|].
  destruct (_execute_action E b action g) as [[[msgs b1] g1]|] eqn:Hexec;
    simpl; [|done].
  apply frame_execute_action in Hexec.
  destruct (bool_decide (action_type action = A_switch)); intros Hrun.
  - apply IH in Hrun. congruence.
  - apply IH in Hrun. rewrite Hrun, <- Hexec. done.
Qed.

Lemma frame_eot_status_step (E : BattleEngine) (acc : list Msg * BattleState)
    (ref : Side * nat) :
  frame (eot_status_step E acc ref).2 = frame acc.2.
Proof.
  unfold eot_status_step. destruct acc as [msgs b], ref as [s n].
  destruct (get_pokemon b s n) as [p0|]; [|done].
  destruct (match status_manager p0 with Some _ => _ | None => _ end) as [m1 p1].
  destruct (if held_item_manager E then _ else _) as [m2 p2].
  simpl. apply frame_put_pokemon.
Qed.

Lemma frame_eot_weather_step (E : BattleEngine) (w : string)
    (acc : list Msg * BattleState) (ref : Side * nat) :
  frame (eot_weather_step E w acc ref).2 = frame acc.2.
Proof.
  unfold eot_weather_step. destruct acc as [msgs b], ref as [s n].
  destruct (get_pokemon b s n) as [p0|]; [|done].
  destruct (apply_weather_damage E p0 w) as [wm p1].
  destruct (apply_weather_healing E p1 w) as [hm p2].
  simpl. apply frame_put_pokemon.
Qed.

Lemma frame_foldl (f : list Msg * BattleState → Side * nat → list Msg * BattleState)
    (refs : list (Side * nat)) (acc : list Msg * BattleState) :
  (∀ a r, frame (f a r).2 = frame a.2) →
  frame (foldl f acc refs).2 = frame acc.2.
Proof.
  intros Hf. revert acc. induction refs as [|r rest IH]; intros acc; simpl; [done|].
  by rewrite IH, Hf.
Qed.

Lemma frame_process_end_of_turn (E : BattleEngine) (b b' : BattleState)
    (msgs : list Msg) :
  _process_end_of_turn E b = Some (msgs, b') → frame b' = frame b.
Proof.
  unfold _process_end_of_turn.
  destruct (negb (ENHANCED_SYSTEMS_AVAILABLE E)); [by intros [= _ <-]|].
  destruct (active_refs b Trainer) as [ts|]; simpl; [|done].
  destruct (active_refs b Opponent) as [os|]; simpl; [|done].
  pose proof (frame_foldl (eot_status_step E) (ts ++ os) ([], b)
                (frame_eot_status_step E)) as H1.
  destruct (foldl (eot_status_step E) ([], b) (ts ++ os)) as [m1 b1].
  simpl in H1.
  assert (∀ r : list Msg * BattleState,
            match weather b1 with
            | Some w =>
                if truthy_str w then
                  ts' ← active_refs b1 Trainer;
                  let '(mt, bt) := foldl (eot_weather_step E w) (m1, b1) ts' in
                  os' ← active_refs bt Opponent;
                  let '(mo, bo) := foldl (eot_weather_step E w) (mt, bt) os' in
                  let bw := set_weather_turns bo (weather_turns bo - 1) in
                  if weather_turns bw <=? 0
                  then Some (mo ++ [M_weather_subsided w], set_weather bw None)
                  else Some (mo, bw)
                else Some (m1, b1)
            | None => Some (m1, b1)
            end = Some r → frame r.2 = frame b1) as Hw.
  { intros r. destruct (weather b1) as [w|]; [|by intros [= <-]].
    destruct (truthy_str w); [|by intros [= <-]].
    destruct (active_refs b1 Trainer) as [ts'|]; simpl; [|done].
    pose proof (frame_foldl (eot_weather_step E w) ts' (m1, b1)
                  (frame_eot_weather_step E w)) as Ht.
    destruct (foldl (eot_weather_step E w) (m1, b1) ts') as [mt bt]. simpl in Ht.
    destruct (active_refs bt Opponent) as [os'|]; simpl; [|done].
    pose proof (frame_foldl (eot_weather_step E w) os' (mt, bt)
                  (frame_eot_weather_step E w)) as Ho.
    destruct (foldl (eot_weather_step E w) (mt, bt) os') as [mo bo]. simpl in Ho.
    destruct (_ <=? 0); intros [= <-]; cbn [snd];
      (transitivity (frame bo); [done|congruence]). }
  destruct (match weather b1 with Some _ => _ | None => _ end) as [[m2 b2]|];
    simpl; [|done].
  specialize (Hw _ eq_refl). simpl in Hw.
  destruct (terrain b2) as [t|]; [|intros [= _ <-]; congruence].
  destruct (truthy_str t); [|intros [= _ <-]; congruence].
  destruct (_ <=? 0); intros [= _ <-];
    (transitivity (frame b2); [done|congruence]).
Qed.

Lemma frame_force_switch_on (E : BattleEngine) (b b' : BattleState) (id pos : Z)
    (r : Reply) :
  force_switch_on E b id pos = Some (r, b') → frame b' = frame b.
Proof.
  unfold force_switch_on.
  destruct (negb _ || negb _); [by intros [= _ <-]|].
  destruct ((pos <? 0) || _); [by intros [= _ <-]|].
  destruct (party _ !! Z.to_nat pos) as [target|]; simpl; [|done].
  destruct (current_hp target <=? 0); [by intros [= _ <-]|].
  destruct (_execute_switch E b _ true) as [[m b1]|] eqn:Hsw; simpl; [|done].
  intros [= _ <-]. apply frame_execute_switch in Hsw.
  transitivity (frame b1); [done|exact Hsw].
Qed.

Lemma frame_auto_switch (E : BattleEngine) (b b' : BattleState) (msgs : list Msg) :
  auto_switch_if_forced_ai E b = Some (msgs, b') → frame b' = frame b.
Proof.
  unfold auto_switch_if_forced_ai.
  destruct (forced_switch_battler_id b) as [fid|]; [|by intros [= _ <-]].
  destruct (negb (bool_decide (phase b = FORCED_SWITCH))); [by intros [= _ <-]|].
  destruct (negb (is_ai _)); [by intros [= _ <-]|].
  destruct (match pending_ai_switch_index b with Some _ => _ | None => _ end)
    as [i|]; [|by intros [= _ <-]].
  destruct (force_switch_on E b _ i) as [[r b1]|] eqn:Hf; simpl; [|done].
  intros [= _ <-]. by apply frame_force_switch_on in Hf.
Qed.

Lemma frame_ensure_ai_action (E : BattleEngine) (s : Side) (b b' : BattleState)
    (g g' : nat) :
  ensure_ai_action E s b g = Some (b', g') → frame b' = frame b.
Proof.
  unfold ensure_ai_action.
  destruct (is_ai _ && negb _); [|by intros [= <- _]].
  destruct (generate_ai_action E b _ g) as [[a g1]|]; simpl; [|done].
  by intros [= <- _].
Qed.

(** The state [finish_turn] returns, field by field. *)
Lemma finish_turn_fields (E : BattleEngine) (b b' : BattleState) (g g' : nat)
    (sw : list Msg) (r : TurnResult) :
  finish_turn E b g sw = Some (r, b', g') →
  settings b' = settings b
  ∧ turn_number b' = turn_number b + 1
  ∧ pending_actions b' = []
  ∧ g' = g
  ∧ ∃ switch_messages,
      r = T_done (turn_number b) (turn_log b') switch_messages (is_over b')
                 (winner b').
Proof.
  unfold finish_turn. intros Hfin.
  assert (∀ x : list Msg * list Msg * BattleState,
            (if wild_dazed b then Some ([], [], b)
             else '(eot, b1) ← _process_end_of_turn E b;
                  '(auto, b2) ← auto_switch_if_forced_ai E b1;
                  Some (eot, auto, b2)) = Some x →
            frame x.2 = frame b) as Hmid.
  { intros x. destruct (wild_dazed b); [by intros [= <-]|].
    destruct (_process_end_of_turn E b) as [[eot b1]|] eqn:Heot; simpl; [|done].
    destruct (auto_switch_if_forced_ai E b1) as [[auto b2]|] eqn:Hauto;
      simpl; [|done].
    intros [= <-]. simpl.
    apply frame_process_end_of_turn in Heot.
    apply frame_auto_switch in Hauto. congruence. }
  destruct (if wild_dazed b then _ else _) as [[[eot auto] b5]|];
    simpl in Hfin; [|done].
  specialize (Hmid _ eq_refl). cbn [snd] in Hmid.
  set (b7 := _check_battle_end (set_turn_log b5 (turn_log b5 ++ eot))) in *.
  assert (frame b7 = frame b) as H7.
  { subst b7. rewrite frame_check_battle_end. rewrite <- Hmid. done. }
  apply frame_fields in H7 as [Hset Hturn]. clearbody b7.
  injection Hfin as <- <- <-.
  split; [exact Hset|]. split; [cbn; lia|]. split; [done|]. split; [done|].
  exists (sw ++ auto). cbn. f_equal. lia.
Qed.

(** X15.  A call to [process_turn] that resolves a turn reports the number
    of the turn it resolved, the turn log and the end-of-battle state it
    leaves; it advances the turn counter by one, empties the pending
    actions, keeps the settings of the battle (type, format, ranking,
    ruleset, logs, screens, each side's identity and party size) and touches
    no other battle of the registry. *)
Theorem process_turn_bookkeeping (E : BattleEngine) (st st' : EngineState)
    (battle_id : string) (b : BattleState) (r : TurnResult) :
  active_battles st !! battle_id = Some b →
  process_turn E st battle_id = Some (r, st') →
  ∃ b' switch_messages,
    active_battles st' !! battle_id = Some b'
    ∧ r = T_done (turn_number b) (turn_log b') switch_messages (is_over b')
                 (winner b')
    ∧ turn_number b' = turn_number b + 1
    ∧ pending_actions b' = []
    ∧ settings b' = settings b
    ∧ ∀ other, other ≠ battle_id →
        active_battles st' !! other = active_battles st !! other.
Proof.
  intros Hb. unfold process_turn. rewrite Hb.
  destruct (resolve_turn E b (rng st)) as [[[r' b'] g']|] eqn:Hres; simpl; [|done].
  intros [= -> <-]. unfold resolve_turn in Hres.
  destruct (ensure_ai_action E Trainer b (rng st)) as [[b1 g1]|] eqn:H1;
    simpl in Hres; [|done].
  destruct (ensure_ai_action E Opponent b1 g1) as [[b2 g2]|] eqn:H2;
    simpl in Hres; [|done].
  destruct (_sort_actions E _ _) as [actions|]; simpl in Hres; [|done].
  destruct (run_actions E actions _ g2 []) as [[[b4 g4] sw]|] eqn:Hrun;
    simpl in Hres; [|done].
  apply frame_ensure_ai_action in H1, H2. apply frame_run_actions in Hrun.
  assert (frame b4 = frame b) as H4.
  { rewrite Hrun. transitivity (frame b2); [done|congruence]. }
  apply frame_fields in H4 as [Hset Hturn].
  apply finish_turn_fields in Hres
    as (Hset' & Hturn' & Hpend & _ & switch_messages & ->).
  exists b', switch_messages.
  split; [apply lookup_insert_eq|].
  split; [by rewrite Hturn|]. split; [lia|]. split; [done|].
  split; [congruence|].
  intros other Hne. cbn. by apply lookup_insert_ne.
Qed.

Lemma process_turn_bookkeeping_witness :
  ∃ b' switch_messages,
    active_battles duel_turn.2 !! "battle-9" = Some b'
    ∧ duel_turn.1
      = T_done 1 (turn_log b') switch_messages (is_over b') (winner b')
    ∧ turn_number b' = 2
    ∧ pending_actions b' = [].
Proof.
  assert (active_battles duel_ready !! "battle-9" = Some duel_registered)
    as Hb by (vm_compute; reflexivity).
  assert (process_turn plain_engine duel_ready "battle-9"
          = Some (duel_turn.1, duel_turn.2)) as Hturn
    by (vm_compute; reflexivity).
  destruct (process_turn_bookkeeping plain_engine duel_ready duel_turn.2
              "battle-9" duel_registered duel_turn.1 Hb Hturn)
    as (b' & sm & H1 & H2 & H3 & H4 & _).
  exists b', sm.
  split; [exact H1|]. split; [exact H2|]. split; [exact H3|]. exact H4.
Defined.

(** ** The choice of the computer-run side *)

(** X16.  For a side whose first active position holds a party member,
    [generate_ai_action] always returns a move action of that side aimed at
    target 0; it never chooses a move without PP: it answers "struggle",
    without a random draw, exactly when no move of the active combatant has
    PP left, and otherwise the id of one of its moves with PP left, after
    one draw. *)
Theorem generate_ai_action_choice (E : BattleEngine) (b : BattleState) (id : Z)
    (g : nat) (n : nat) (rest : list nat) (active : Pokemon) :
  let x := battler b (side_of b id) in
  get_active_pokemon x = Some (n :: rest) →
  party x !! n = Some active →
  ∃ action g',
    generate_ai_action E b id g = Some (action, g')
    ∧ action_type action = A_move
    ∧ action_battler_id action = id
    ∧ target_position action = Some 0
    ∧ ((Forall (λ m, pp m ≤ 0) (moves active)
        ∧ action_move_id action = Some "struggle" ∧ g' = g)
       ∨ (∃ m, m ∈ moves active ∧ 0 < pp m
               ∧ action_move_id action = Some (move_id m) ∧ g' = S g)).
Proof.
  intros x Hactives Hactive. unfold generate_ai_action. fold x.
  rewrite Hactives. cbn [mbind option_bind lookup list_lookup].
  rewrite Hactive. cbn [mbind option_bind].
  destruct (filter (λ m, 0 < pp m) (moves active)) as [|m0 ms] eqn:Hfilter.
  - eexists _, g. split; [done|]. split; [done|]. split; [done|].
    split; [done|]. left. split; [|done].
    apply Forall_forall. intros m Hm.
    destruct (decide (0 < pp m)) as [Hpos|]; [|lia].
    assert (m ∈ filter (λ m, 0 < pp m) (moves active)) as Hin
      by (by apply list_elem_of_filter).
    rewrite Hfilter in Hin. by apply elem_of_nil in Hin.
  - unfold random_below.
    set (len := Z.of_nat (length (m0 :: ms))).
    set (i := Qfloor _ `mod` len).
    assert (0 ≤ i < len) as Hi.
    { apply Z.mod_pos_bound. subst len. cbn [length]. lia. }
    destruct (lookup_lt_is_Some_2 (m0 :: ms) (Z.to_nat i)) as [m Hm].
    { subst len. lia. }
    rewrite Hm. cbn [mbind option_bind].
    eexists _, (S g). split; [done|]. split; [done|]. split; [done|].
    split; [done|]. right. exists m.
    apply list_elem_of_lookup_2 in Hm. rewrite <- Hfilter in Hm.
    apply list_elem_of_filter in Hm as [Hpp Hin]. done.
Qed.

Lemma generate_ai_action_choice_witness :
  ∃ action g',
    generate_ai_action plain_engine npc_faint (-1) 0 = Some (action, g')
    ∧ action_type action = A_move.
Proof.
  destruct (generate_ai_action_choice plain_engine npc_faint (-1) 0 0 []
              (fainted "Rattata") eq_refl eq_refl)
    as (action & g' & H1 & H2 & _).
  by exists action, g'.
Defined.

(** ** Finished battles *)

Lemma is_over_check_battle_end (b : BattleState) :
  is_over b = true → is_over (_check_battle_end b) = true.
Proof.
  intros H. unfold _check_battle_end.
  destruct (negb _ && negb _); [done|].
  destruct (negb _); [done|]. by destruct (negb _).
Qed.

Lemma control_force_switch_on (E : BattleEngine) (b b' : BattleState) (id pos : Z)
    (r : Reply) :
  force_switch_on E b id pos = Some (r, b') →
  is_over b' = is_over b ∧ winner b' = winner b.
Proof.
  unfold force_switch_on.
  destruct (negb _ || negb _); [by intros [= _ <-]|].
  destruct ((pos <? 0) || _); [by intros [= _ <-]|].
  destruct (party _ !! Z.to_nat pos) as [target|]; simpl; [|done].
  destruct (current_hp target <=? 0); [by intros [= _ <-]|].
  destruct (_execute_switch E b _ true) as [[m b1]|] eqn:Hsw; simpl; [|done].
  intros [= _ <-].
  apply execute_switch_active in Hsw
    as (_ & _ & _ & _ & _ & _ & _ & Hover & Hwin & _).
  by split.
Qed.

Lemma is_over_auto_switch (E : BattleEngine) (b b' : BattleState) (msgs : list Msg) :
  auto_switch_if_forced_ai E b = Some (msgs, b') → is_over b' = is_over b.
Proof.
  unfold auto_switch_if_forced_ai.
  destruct (forced_switch_battler_id b) as [fid|]; [|by intros [= _ <-]].
  destruct (negb (bool_decide (phase b = FORCED_SWITCH))); [by intros [= _ <-]|].
  destruct (negb (is_ai _)); [by intros [= _ <-]|].
  destruct (match pending_ai_switch_index b with Some _ => _ | None => _ end)
    as [i|]; [|by intros [= _ <-]].
  destruct (force_switch_on E b _ i) as [[r b1]|] eqn:Hf; simpl; [|done].
  intros [= _ <-]. by apply control_force_switch_on in Hf as [? _].
Qed.

Lemma is_over_ensure_ai_action (E : BattleEngine) (s : Side) (b b' : BattleState)
    (g g' : nat) :
  ensure_ai_action E s b g = Some (b', g') →
  is_over b' = is_over b ∧ trainer b' = trainer b ∧ opponent b' = opponent b.
Proof.
  unfold ensure_ai_action.
  destruct (is_ai _ && negb _); [|by intros [= <- _]].
  destruct (generate_ai_action E b _ g) as [[a g1]|]; simpl; [|done].
  by intros [= <- _].
Qed.

(** X17.  A finished battle stays finished: every registration is refused
    and leaves the pending actions alone, a forced switch leaves [is_over]
    set, and a turn resolved on it leaves it set and reports the battle as
    over. *)
Theorem finished_battle_stays_finished (E : BattleEngine) (b : BattleState) :
  is_over b = true →
  (∀ id action,
     ∃ e, (register_action_on b id action).1 = Reg_error e
          ∧ is_over (register_action_on b id action).2 = true
          ∧ pending_actions (register_action_on b id action).2
            = pending_actions b)
  ∧ (∀ id position r b',
       force_switch_on E b id position = Some (r, b') → is_over b' = true)
  ∧ (∀ g r b' g',
       resolve_turn E b g = Some (r, b', g') →
       is_over b' = true
       ∧ ∃ turn msgs sw win, r = T_done turn msgs sw true win).
Proof.
  intros Hover. split; [|split].
  - intros id action. unfold register_action_on.
    destruct (bool_decide (phase b = FORCED_SWITCH)).
    + destruct (bool_decide (forced_switch_battler_id b = Some id)).
      * destruct (negb _); [by eexists|].
        change (is_over (set_forced_switch_battler_id
                           (set_phase b WAITING_ACTIONS) None))
          with (is_over b).
        rewrite Hover. by eexists.
      * by eexists.
    + rewrite Hover. by eexists.
  - intros id position r b' Hf.
    apply control_force_switch_on in Hf as [-> _]. exact Hover.
  - intros g r b' g' Hres. unfold resolve_turn in Hres.
    destruct (ensure_ai_action E Trainer b g) as [[b1 g1]|] eqn:H1;
      cbn [mbind option_bind] in Hres; [|done].
    destruct (ensure_ai_action E Opponent b1 g1) as [[b2 g2]|] eqn:H2;
      cbn [mbind option_bind] in Hres; [|done].
    apply is_over_ensure_ai_action in H1 as (Ho1 & _).
    apply is_over_ensure_ai_action in H2 as (Ho2 & _).
    destruct (_sort_actions E _ _) as [actions|];
      cbn [mbind option_bind] in Hres; [|done].
    set (b3 := set_turn_log b2 []) in *.
    assert (is_over b3 = true) as Ho3 by (subst b3; cbn; congruence).
    clearbody b3.
    rewrite run_actions_stops in Hres by (by rewrite Ho3).
    cbn [mbind option_bind] in Hres. unfold finish_turn in Hres.
    assert (∀ x : list Msg * list Msg * BattleState,
              (if wild_dazed b3 then Some ([], [], b3)
               else '(eot, b') ← _process_end_of_turn E b3;
                    '(auto, b'') ← auto_switch_if_forced_ai E b';
                    Some (eot, auto, b'')) = Some x →
              is_over x.2 = true) as Hmid.
    { intros x. destruct (wild_dazed b3); [by intros [= <-]|].
      destruct (_process_end_of_turn E b3) as [[eot b5]|] eqn:Heot;
        cbn [mbind option_bind]; [|done].
      destruct (auto_switch_if_forced_ai E b5) as [[auto b6]|] eqn:Hauto;
        cbn [mbind option_bind]; [|done].
      intros [= <-]. cbn [snd].
      apply control_process_end_of_turn, control_fields in Heot
        as (_ & _ & _ & Hov5 & _).
      apply is_over_auto_switch in Hauto. congruence. }
    destruct (if wild_dazed b3 then _ else _) as [[[eot auto] b5]|];
      cbn [mbind option_bind] in Hres; [|done].
    specialize (Hmid _ eq_refl). cbn [snd] in Hmid.
    set (b7 := _check_battle_end (set_turn_log b5 (turn_log b5 ++ eot))) in *.
    assert (is_over b7 = true) as Ho7
      by (subst b7; by apply is_over_check_battle_end).
    clearbody b7. injection Hres as <- <- _.
    split; [exact Ho7|].
    change (is_over (set_turn_number (set_pending_actions b7 [])
                       (turn_number (set_pending_actions b7 []) + 1)))
      with (is_over b7).
    rewrite Ho7. by eexists _, _, _, _.
Qed.

Lemma finished_battle_stays_finished_witness :
  ∃ e, (register_action_on (set_is_over duel true) 7 (move_tackle 7)).1
       = Reg_error e.
Proof.
  destruct (proj1 (finished_battle_stays_finished plain_engine
                     (set_is_over duel true) eq_refl) 7 (move_tackle 7))
    as (e & He & _).
  by exists e.
Defined.

(** ** Switching *)

(** X18.  A forced switch that passes the checks of [force_switch] (a
    forced switch of that side is pending, the slot is in the party and its
    member has HP left) goes through whenever the side's first active
    position holds a party member: the slot becomes the first active
    position, the rest of the active list is kept, the battle is back in
    WAITING_ACTIONS with no forced switch and no queued replacement, the
    pending action of that side is dropped and the others are kept. *)
Theorem forced_switch_goes_through (E : BattleEngine) (b : BattleState)
    (id position a0 : Z) (rest : list Z) (actives : list nat)
    (target : Pokemon) :
  let s := side_of b id in
  let x := battler b s in
  phase b = FORCED_SWITCH →
  forced_switch_battler_id b = Some id →
  0 ≤ position →
  party x !! Z.to_nat position = Some target →
  0 < current_hp target →
  get_active_pokemon x = Some actives →
  active_positions x = a0 :: rest →
  0 ≤ a0 < Z.of_nat (length (party x)) →
  ∃ msgs b',
    force_switch_on E b id position = Some (R_messages msgs, b')
    ∧ active_positions (battler b' s) = position :: rest
    ∧ active_positions (battler b' (other_side s))
      = active_positions (battler b (other_side s))
    ∧ phase b' = WAITING_ACTIONS
    ∧ forced_switch_battler_id b' = None
    ∧ pending_ai_switch_index b' = None
    ∧ pending_actions b' = dict_pop id (pending_actions b)
    ∧ is_over b' = is_over b.
Proof.
  intros s x Hphase Hforced Hpos Htarget Hhp Hactives Hact Ha0.
  unfold force_switch_on. fold s. fold x.
  rewrite (bool_decide_eq_true_2 _ Hphase), (bool_decide_eq_true_2 _ Hforced).
  cbn [negb orb].
  apply lookup_lt_Some in Htarget as Hlt.
  assert ((position <? 0) || (Z.of_nat (length (party x)) <=? position) = false)
    as -> by lia.
  rewrite Htarget. cbn [mbind option_bind].
  assert ((current_hp target <=? 0) = false) as -> by lia.
  set (action := mk_action A_switch id None None (Some position)).
  pose proof (execute_switch_total E b action true a0 position rest actives
                (Z.to_nat position)) as Htotal.
  cbv zeta in Htotal.
  destruct (Htotal Hactives Hact Ha0 eq_refl) as [[msgs b1] Hsw].
  { assert (0 ≤ position < Z.of_nat (length (party x))) as Hrange by lia.
    exact (norm_index_nonneg _ _ Hrange). }
  clear Htotal.
  rewrite Hsw. cbn [mbind option_bind].
  apply execute_switch_active in Hsw
    as (t & Ht & Hap & Hap' & _ & _ & _ & Hover & _ & Hpend & _).
  cbv zeta in Hap, Hap'. cbn in Ht. injection Ht as <-.
  change (side_of b (action_battler_id action)) with s in Hap, Hap'.
  fold x in Hap. rewrite Hact in Hap. cbn [tail] in Hap.
  exists msgs. eexists. split; [done|].
  split. { clear -Hap. by destruct s. }
  split. { clear -Hap'. by destruct s. }
  split; [done|]. split; [done|]. split; [done|].
  split; [cbn; by rewrite Hpend|]. exact Hover.
Qed.

Lemma forced_switch_goes_through_witness :
  ∃ msgs b',
    force_switch_on plain_engine human_faint_battle' 7 1
    = Some (R_messages msgs, b')
    ∧ active_positions (trainer b') = [1].
Proof.
  pose proof (forced_switch_goes_through plain_engine human_faint_battle' 7 1 0
                [] [0%nat] (hundred_hp ["normal"])) as H.
  cbv zeta in H.
  destruct H as (msgs & b' & H1 & H2 & _);
    [reflexivity|reflexivity|lia|reflexivity|reflexivity|reflexivity
    |reflexivity|split; [lia|reflexivity]|].
  exists msgs, b'. split; [exact H1|exact H2].
Defined.

(** ** Weather and terrain timers *)

Lemma climate_put_pokemon (b : BattleState) (s : Side) (n : nat) (p : Pokemon) :
  climate (put_pokemon b s n p) = climate b.
Proof. by destruct s. Qed.

Lemma climate_eot_status_step (E : BattleEngine) (acc : list Msg * BattleState)
    (ref : Side * nat) :
  climate (eot_status_step E acc ref).2 = climate acc.2.
Proof.
  unfold eot_status_step. destruct acc as [msgs b], ref as [s n].
  destruct (get_pokemon b s n) as [p0|]; [|done].
  destruct (match status_manager p0 with Some _ => _ | None => _ end) as [m1 p1].
  destruct (if held_item_manager E then _ else _) as [m2 p2].
  cbn [snd]. apply climate_put_pokemon.
Qed.

Lemma climate_eot_weather_step (E : BattleEngine) (w : string)
    (acc : list Msg * BattleState) (ref : Side * nat) :
  climate (eot_weather_step E w acc ref).2 = climate acc.2.
Proof.
  unfold eot_weather_step. destruct acc as [msgs b], ref as [s n].
  destruct (get_pokemon b s n) as [p0|]; [|done].
  destruct (apply_weather_damage E p0 w) as [wm p1].
  destruct (apply_weather_healing E p1 w) as [hm p2].
  cbn [snd]. apply climate_put_pokemon.
Qed.

Lemma climate_foldl (f : list Msg * BattleState → Side * nat → list Msg * BattleState)
    (refs : list (Side * nat)) (acc : list Msg * BattleState) :
  (∀ a r, climate (f a r).2 = climate a.2) →
  climate (foldl f acc refs).2 = climate acc.2.
Proof.
  intros Hf. revert acc. induction refs as [|r rest IH]; intros acc; simpl; [done|].
  by rewrite IH, Hf.
Qed.

Lemma climate_fields (b b' : BattleState) :
  climate b' = climate b →
  weather b' = weather b ∧ weather_turns b' = weather_turns b
  ∧ terrain b' = terrain b ∧ terrain_turns b' = terrain_turns b
  ∧ trainer_hazards b' = trainer_hazards b
  ∧ opponent_hazards b' = opponent_hazards b.
Proof. unfold climate. intros [=]. done. Qed.

(** X19.  The end-of-turn step does nothing at all without the enhanced
    systems.  With them, a weather in force loses one turn and is lifted,
    with its message, exactly when no turn is left; the same holds for a
    terrain; without a weather or a terrain the counter is not touched; and
    the hazards of both sides are left as they were. *)
Theorem end_of_turn_timers (E : BattleEngine) (b b' : BattleState)
    (msgs : list Msg) :
  _process_end_of_turn E b = Some (msgs, b') →
  (ENHANCED_SYSTEMS_AVAILABLE E = false → b' = b ∧ msgs = [])
  ∧ (ENHANCED_SYSTEMS_AVAILABLE E = true →
     (∀ w, weather b = Some w → w ≠ "" →
        weather_turns b' = weather_turns b - 1
        ∧ (weather_turns b ≤ 1 ∧ weather b' = None
           ∧ M_weather_subsided w ∈ msgs
           ∨ 1 < weather_turns b ∧ weather b' = Some w))
     ∧ (weather b = None →
        weather b' = None ∧ weather_turns b' = weather_turns b)
     ∧ (∀ t, terrain b = Some t → t ≠ "" →
          terrain_turns b' = terrain_turns b - 1
          ∧ (terrain_turns b ≤ 1 ∧ terrain b' = None
             ∧ M_terrain_faded t ∈ msgs
             ∨ 1 < terrain_turns b ∧ terrain b' = Some t))
     ∧ (terrain b = None →
        terrain b' = None ∧ terrain_turns b' = terrain_turns b)
     ∧ trainer_hazards b' = trainer_hazards b
     ∧ opponent_hazards b' = opponent_hazards b).
Proof.
  unfold _process_end_of_turn. intros Heot. split.
  { intros Hplain. rewrite Hplain in Heot. by injection Heot as <- <-. }
  intros Henh. rewrite Henh in Heot. cbn [negb] in Heot.
  destruct (active_refs b Trainer) as [ts|]; cbn [mbind option_bind] in Heot;
    [|done].
  destruct (active_refs b Opponent) as [os|]; cbn [mbind option_bind] in Heot;
    [|done].
  pose proof (climate_foldl (eot_status_step E) (ts ++ os) ([], b)
                (climate_eot_status_step E)) as H1.
  destruct (foldl (eot_status_step E) ([], b) (ts ++ os)) as [m1 b1].
  cbn [snd] in H1. apply climate_fields in H1
    as (Hw1 & Hwt1 & Ht1 & Htt1 & Hth1 & Hoh1).
  (* the weather block *)
  assert (∀ r : list Msg * BattleState,
            match weather b1 with
            | Some w =>
                if truthy_str w then
                  ts' ← active_refs b1 Trainer;
                  let '(mt, bt) := foldl (eot_weather_step E w) (m1, b1) ts' in
                  os' ← active_refs bt Opponent;
                  let '(mo, bo) := foldl (eot_weather_step E w) (mt, bt) os' in
                  let bw := set_weather_turns bo (weather_turns bo - 1) in
                  if weather_turns bw <=? 0
                  then Some (mo ++ [M_weather_subsided w], set_weather bw None)
                  else Some (mo, bw)
                else Some (m1, b1)
            | None => Some (m1, b1)
            end = Some r →
            terrain r.2 = terrain b ∧ terrain_turns r.2 = terrain_turns b
            ∧ trainer_hazards r.2 = trainer_hazards b
            ∧ opponent_hazards r.2 = opponent_hazards b
            ∧ (∀ w, weather b = Some w → w ≠ "" →
                 weather_turns r.2 = weather_turns b - 1
                 ∧ (weather_turns b ≤ 1 ∧ weather r.2 = None
                    ∧ M_weather_subsided w ∈ r.1
                    ∨ 1 < weather_turns b ∧ weather r.2 = Some w))
            ∧ (weather b = None →
               weather r.2 = None ∧ weather_turns r.2 = weather_turns b))
    as Hweather.
  { intros r. rewrite Hw1. destruct (weather b) as [w|].
    2:{ intros [= <-]. cbn [fst snd].
        split; [done|]. split; [done|]. split; [done|]. split; [done|].
        split; [by intros w [=]|]. intros _. split; [|done].
        by rewrite Hw1. }
    destruct (truthy_str w) eqn:Htruthy.
    2:{ intros [= <-]. cbn [fst snd].
        split; [done|]. split; [done|]. split; [done|]. split; [done|].
        split; [|done]. intros w' [= <-] Hne.
        by rewrite (truthy_str_true _ Hne) in Htruthy. }
    destruct (active_refs b1 Trainer) as [ts'|]; cbn [mbind option_bind];
      [|done].
    pose proof (climate_foldl (eot_weather_step E w) ts' (m1, b1)
                  (climate_eot_weather_step E w)) as Hct.
    destruct (foldl (eot_weather_step E w) (m1, b1) ts') as [mt bt].
    cbn [snd] in Hct.
    destruct (active_refs bt Opponent) as [os'|]; cbn [mbind option_bind];
      [|done].
    pose proof (climate_foldl (eot_weather_step E w) os' (mt, bt)
                  (climate_eot_weather_step E w)) as Hco.
    destruct (foldl (eot_weather_step E w) (mt, bt) os') as [mo bo].
    cbn [snd] in Hco.
    assert (climate bo = climate b1) as Hc by congruence.
    apply climate_fields in Hc as (Hwo & Hwto & Hto & Htto & Htho & Hoho).
    change (weather_turns (set_weather_turns bo (weather_turns bo - 1)))
      with (weather_turns bo - 1).
    destruct (weather_turns bo - 1 <=? 0) eqn:Hexp; intros [= <-];
      cbn [fst snd].
    - split; [cbn; congruence|]. split; [cbn; congruence|].
      split; [cbn; congruence|]. split; [cbn; congruence|].
      split; [|done]. intros w' [= <-] Hne. split; [cbn; lia|].
      left. split; [lia|]. split; [done|].
      apply elem_of_app. right. apply list_elem_of_here.
    - split; [cbn; congruence|]. split; [cbn; congruence|].
      split; [cbn; congruence|]. split; [cbn; congruence|].
      split; [|done]. intros w' [= <-] Hne. split; [cbn; lia|].
      right. split; [lia|]. cbn. congruence. }
  destruct (match weather b1 with Some _ => _ | None => _ end) as [[m2 b2]|];
    cbn [mbind option_bind] in Heot; [|done].
  destruct (Hweather _ eq_refl) as (Ht2 & Htt2 & Hth2 & Hoh2 & Hwa & Hwn).
  cbn [fst snd] in Ht2, Htt2, Hth2, Hoh2, Hwa, Hwn. clear Hweather.
  (* the terrain block *)
  rewrite Ht2 in Heot. destruct (terrain b) as [t|].
  2:{ injection Heot as <- <-.
      split; [exact Hwa|]. split; [exact Hwn|]. split; [by intros t [=]|].
      done. }
  destruct (truthy_str t) eqn:Htruthy.
  2:{ injection Heot as <- <-.
      split; [exact Hwa|]. split; [exact Hwn|].
      split; [|done]. intros t' [= <-] Hne.
      by rewrite (truthy_str_true _ Hne) in Htruthy. }
  change (terrain_turns (set_terrain_turns b2 (terrain_turns b2 - 1)))
    with (terrain_turns b2 - 1) in Heot.
  destruct (terrain_turns b2 - 1 <=? 0) eqn:Hexp; injection Heot as <- <-.
  - split.
    { intros w Hw Hne. destruct (Hwa w Hw Hne) as [Hturns Hcase].
      split; [exact Hturns|]. destruct Hcase as [(? & ? & Hin)|?]; [left|by right].
      split; [done|]. split; [done|]. apply elem_of_app. by left. }
    split; [exact Hwn|]. split.
    { intros t' [= <-] Hne. split; [cbn; lia|]. left. split; [lia|].
      split; [done|]. apply elem_of_app. right. apply list_elem_of_here. }
    done.
  - split; [exact Hwa|]. split; [exact Hwn|]. split.
    { intros t' [= <-] Hne. split; [cbn; lia|]. right. split; [lia|].
      cbn. done. }
    done.
Qed.

Lemma end_of_turn_timers_witness :
  weather rainy_end.2 = None ∧ M_weather_subsided "rain" ∈ rainy_end.1.
Proof.
  assert (_process_end_of_turn enhanced_engine rainy_duel
          = Some (rainy_end.1, rainy_end.2)) as Heot
    by (vm_compute; reflexivity).
  destruct (proj2 (end_of_turn_timers enhanced_engine rainy_duel rainy_end.2
                     rainy_end.1 Heot) eq_refl) as (Hweather & _).
  destruct (Hweather "rain" eq_refl ltac:(discriminate))
    as [_ [(_ & Hnone & Hin)|(Hlt & _)]].
  - split; [exact Hnone|exact Hin].
  - exfalso. cbn in Hlt. lia.
Defined.

(** ** A move the database does not know *)

Lemma dict_set_fresh {V} (k : Z) (v : V) (d : list (Z * V)) :
  dict_mem k d = false → dict_set k v d = d ++ [(k, v)].
Proof.
  unfold dict_mem. induction d as [|[k' v'] r IH]; cbn; [done|].
  intros H. apply orb_false_iff in H as [Hk Hr]. rewrite Hk.
  by rewrite IH.
Qed.

Lemma ensure_ai_action_pending (E : BattleEngine) (s : Side) (b b' : BattleState)
    (g g' : nat) (kv : Z * BattleAction) :
  ensure_ai_action E s b g = Some (b', g') →
  kv ∈ pending_actions b →
  kv ∈ pending_actions b'
  ∧ trainer b' = trainer b ∧ opponent b' = opponent b.
Proof.
  unfold ensure_ai_action.
  destruct (is_ai _ && negb _) eqn:Hai; [|by intros [= <- _]].
  destruct (generate_ai_action E b _ g) as [[a g1]|];
    cbn [mbind option_bind]; [|done].
  intros [= <- _] Hin. split; [|done].
  apply andb_true_iff in Hai as [_ Hfresh]. apply negb_true_iff in Hfresh.
  cbn. rewrite (dict_set_fresh _ _ _ Hfresh). apply elem_of_app. by left.
Qed.

(** X20.  A pending move action whose move the move database does not know
    makes the turn raise: the scheduler fails on it before any action
    runs. *)
Theorem unknown_move_raises (E : BattleEngine) (b : BattleState) (g : nat)
    (k : Z) (action : BattleAction) :
  (k, action) ∈ pending_actions b →
  action_type action = A_move →
  get_move E (action_move_id action) = None →
  resolve_turn E b g = None.
Proof.
  intros Hin Htype Hmove. unfold resolve_turn.
  destruct (ensure_ai_action E Trainer b g) as [[b1 g1]|] eqn:H1;
    cbn [mbind option_bind]; [|done].
  destruct (ensure_ai_action E Opponent b1 g1) as [[b2 g2]|] eqn:H2;
    cbn [mbind option_bind]; [|done].
  apply (ensure_ai_action_pending _ _ _ _ _ _ (k, action)) in H1 as [Hin1 _];
    [|done].
  apply (ensure_ai_action_pending _ _ _ _ _ _ (k, action)) in H2 as [Hin2 _];
    [|done].
  assert (_sort_actions E (set_turn_log b2 [])
            (dict_values (pending_actions (set_turn_log b2 []))) = None) as ->;
    [|done].
  unfold _sort_actions.
  assert (mapM (λ a, k0 ← get_action_priority E (set_turn_log b2 []) a;
                     Some (k0, a))
               (dict_values (pending_actions (set_turn_log b2 []))) = None)
    as ->; [|done].
  apply mapM_None, Exists_exists. exists action. split.
  - unfold dict_values. apply list_elem_of_In, in_map_iff.
    exists (k, action). split; [done|]. by apply list_elem_of_In.
  - unfold get_action_priority. by rewrite Htype, Hmove.
Qed.

Lemma unknown_move_raises_witness :
  resolve_turn plain_engine
    (register_action_on duel 7
       (mk_action A_move 7 (Some "struggle") (Some 0) None)).2 0
  = None.
Proof.
  apply (unknown_move_raises plain_engine _ 0 7
           (mk_action A_move 7 (Some "struggle") (Some 0) None)).
  - apply list_elem_of_here.
  - reflexivity.
  - reflexivity.
Defined.

(** ** The registry *)

(** X21.  Once [end_battle] has removed a battle, its id is unknown to
    every entry point: [get_battle] finds nothing, registering an action,
    resolving a turn and forcing a switch answer that the battle is not
    found and leave the registry as it is, and removing it again changes
    nothing; the other battles are not touched. *)
Theorem ended_battle_is_gone (E : BattleEngine) (st : EngineState)
    (battle_id : string) :
  let st' := end_battle st battle_id in
  get_battle st' battle_id = None
  ∧ (∀ other, other ≠ battle_id → get_battle st' other = get_battle st other)
  ∧ (∀ id action,
       register_action st' battle_id id action
       = (Reg_error Battle_not_found, st'))
  ∧ process_turn E st' battle_id = Some (T_error Battle_not_found, st')
  ∧ (∀ id position,
       force_switch E st' battle_id id position
       = Some (R_error Battle_not_found, st'))
  ∧ end_battle st' battle_id = st'.
Proof.
  intros st'.
  assert (active_battles st' !! battle_id = None) as Hgone
    by apply lookup_delete_eq.
  split; [exact Hgone|]. split.
  { intros other Hne. unfold get_battle. cbn. by apply lookup_delete_ne. }
  split. { intros id action. unfold register_action. by rewrite Hgone. }
  split. { unfold process_turn. by rewrite Hgone. }
  split. { intros id position. unfold force_switch. by rewrite Hgone. }
  unfold end_battle. destruct st as [battles cursor]. cbn.
  by rewrite delete_delete_eq.
Qed.

Lemma ended_battle_is_gone_witness :
  get_battle (end_battle duel_ready "battle-9") "battle-7"
  = get_battle duel_ready "battle-7".
Proof.
  apply (proj1 (proj2 (ended_battle_is_gone plain_engine duel_ready
                         "battle-9"))).
  discriminate.
Defined.

(** ** Starting a battle *)

Lemma entry_step_frames (E : BattleEngine) (s : Side)
    (acc : option (list Msg * BattleState)) (n : nat) (msgs : list Msg)
    (b' : BattleState) :
  entry_step E s acc n = Some (msgs, b') →
  ∃ msgs0 b0,
    acc = Some (msgs0, b0) ∧ control b' = control b0 ∧ frame b' = frame b0.
Proof.
  unfold entry_step. destruct acc as [[msgs0 b0]|]; cbn [mbind option_bind];
    [|done].
  destruct (get_pokemon b0 s n) as [p|]; cbn [mbind option_bind]; [|done].
  destruct (_apply_entry_hazards E _ s n) as [[hm b1]|] eqn:Hhz;
    cbn [mbind option_bind]; [|done].
  intros [= _ <-]. exists msgs0, b0. split; [done|].
  pose proof Hhz as Hhz'.
  apply control_apply_entry_hazards in Hhz.
  apply frame_apply_entry_hazards in Hhz'.
  rewrite control_apply_entry_effects in Hhz.
  rewrite frame_apply_entry_effects in Hhz'. done.
Qed.

Lemma entry_fold_frames (E : BattleEngine) (s : Side) (l : list nat)
    (acc : option (list Msg * BattleState)) (msgs : list Msg)
    (b' : BattleState) :
  foldl (entry_step E s) acc l = Some (msgs, b') →
  ∃ msgs0 b0,
    acc = Some (msgs0, b0) ∧ control b' = control b0 ∧ frame b' = frame b0.
Proof.
  revert acc. induction l as [|n l IH]; intros acc; cbn [foldl].
  - intros ->. by eexists _, _.
  - intros H. apply IH in H as (m1 & b1 & Hstep & Hc & Hf).
    apply entry_step_frames in Hstep as (m0 & b0 & -> & Hc0 & Hf0).
    exists m0, b0. split; [done|]. split; congruence.
Qed.

Lemma trigger_entry_abilities_frames (E : BattleEngine) (b b' : BattleState)
    (msgs : list Msg) :
  _trigger_entry_abilities E b = Some (msgs, b') →
  control b' = control b ∧ frame b' = frame b.
Proof.
  unfold _trigger_entry_abilities.
  destruct (negb (ENHANCED_SYSTEMS_AVAILABLE E)); [by intros [= _ <-]|].
  destruct (get_active_pokemon (trainer b)) as [ts|]; cbn [mbind option_bind];
    [|done].
  destruct (foldl (entry_step E Trainer) (Some ([], b)) ts) as [[m1 b1]|]
    eqn:Hfold; cbn [mbind option_bind]; [|done].
  apply entry_fold_frames in Hfold as (m0 & b0 & [= <- <-] & Hc1 & Hf1).
  destruct (get_active_pokemon (opponent b1)) as [os|];
    cbn [mbind option_bind]; [|done].
  intros Hfold.
  apply entry_fold_frames in Hfold as (m2 & b2 & [= <- <-] & Hc2 & Hf2).
  split; congruence.
Qed.

Lemma frame_start_fields (b b' : BattleState) :
  frame b' = frame b →
  battle_format b' = battle_format b ∧ is_ranked b' = is_ranked b
  ∧ turn_number b' = turn_number b
  ∧ can_flee (trainer b') = can_flee (trainer b)
  ∧ battler_name (opponent b') = battler_name (opponent b)
  ∧ can_switch (opponent b') = can_switch (opponent b)
  ∧ can_use_items (opponent b') = can_use_items (opponent b)
  ∧ trainer_class (opponent b') = trainer_class (opponent b)
  ∧ prize_money (opponent b') = prize_money (opponent b).
Proof. unfold frame, settings, side_settings. intros [=]. done. Qed.

(** The battle [start_battle] stores. *)
Lemma start_battle_spec (E : BattleEngine) (st : EngineState)
    (battle_id : string) (trainer_id : Z) (trainer_name : string)
    (trainer_party opponent_party : list Pokemon)
    (type : BattleType) (format : BattleFormat)
    (opponent_id : option Z) (opponent_name : option string)
    (opponent_is_ai is_ranked_battle : bool)
    (npc_class : option string) (prize : Z) (bid : string)
    (st' : EngineState) :
  let slots := if bool_decide (format = DOUBLES) then 2%nat else 1%nat in
  start_battle E st battle_id trainer_id trainer_name trainer_party
    opponent_party type format opponent_id opponent_name
    opponent_is_ai is_ranked_battle npc_class prize = Some (bid, st') →
  bid = battle_id
  ∧ (∀ other, other ≠ battle_id → get_battle st' other = get_battle st other)
  ∧ ∃ b,
      get_battle st' bid = Some b
      ∧ (battle_type b, battle_format b, is_ranked b)
        = (type, format, is_ranked_battle)
      ∧ (turn_number b, phase b, is_over b, winner b)
        = (1, START, false, None)
      ∧ pending_actions b = []
      ∧ forced_switch_battler_id b = None
      ∧ pending_ai_switch_index b = None
      ∧ wild_dazed b = false
      ∧ is_Some (ruleset b)
      ∧ battler_id (trainer b) = trainer_id
      ∧ is_ai (trainer b) = false
      ∧ is_ai (opponent b) = opponent_is_ai
      ∧ length (party (trainer b)) = length trainer_party
      ∧ length (party (opponent b)) = length opponent_party
      ∧ active_positions (trainer b)
        = py_range (Nat.min (length trainer_party) slots)
      ∧ active_positions (opponent b)
        = py_range (Nat.min (length opponent_party) slots)
      ∧ match opponent_id with
        | Some i => battler_id (opponent b) = i
        | None =>
            if bool_decide (type = WILD)
            then battler_id (opponent b) = -1
            else -9999 ≤ battler_id (opponent b) ≤ -1000
        end
      ∧ can_flee (trainer b) = bool_decide (type = WILD)
      ∧ can_switch (opponent b) = negb (bool_decide (type = WILD))
      ∧ can_use_items (opponent b) = bool_decide (type = TRAINER)
      ∧ trainer_class (opponent b) = npc_class
      ∧ prize_money (opponent b) = prize
      ∧ (∀ name, opponent_name = Some name → name ≠ "" →
           battler_name (opponent b) = name).
Proof.
  intros slots. unfold start_battle.
  destruct trainer_party as [|t0 tr]; [done|].
  destruct opponent_party as [|o0 or]; [done|].
  assert ((length (t0 :: tr) =? 0)%nat || (length (o0 :: or) =? 0)%nat = false)
    as -> by done.
  cbv zeta. fold slots.
  set (id_and_cursor := match opponent_id with Some _ => _ | None => _ end).
  assert (match opponent_id with
          | Some i => id_and_cursor.1 = i
          | None =>
              if bool_decide (type = WILD) then id_and_cursor.1 = -1
              else -9999 ≤ id_and_cursor.1 ≤ -1000
          end) as Hid.
  { subst id_and_cursor. destruct opponent_id as [i|]; [done|].
    destruct (bool_decide (type = WILD)); [done|].
    unfold random_below. cbn [fst].
    pose proof (Z.mod_pos_bound (Qfloor (random_source E (rng st) * inject_Z 9000))
                  9000 ltac:(lia)). lia. }
  destruct id_and_cursor as [oid g]. cbn [fst] in Hid.
  assert (∀ p0 (p : list Pokemon),
            match py_range (Nat.min (length (p0 :: p)) slots) with
            | [] => [0]
            | l => l
            end = py_range (Nat.min (length (p0 :: p)) slots)) as Hpositions.
  { intros p0 p. subst slots. cbn [length].
    destruct (bool_decide (format = DOUBLES)); by destruct p. }
  rewrite !Hpositions. clear Hpositions.
  intros [= <- <-]. split; [done|].
  split. { intros other Hne. unfold get_battle. cbn. by apply lookup_insert_ne. }
  match goal with
  | |- context [_trigger_entry_abilities E ?b0] => set (battle := b0)
  end.
  set (battle1 := match _trigger_entry_abilities E battle with
                  | Some _ => _ | None => _ end).
  assert (control battle1 = control battle
          ∧ battle_format battle1 = battle_format battle
          ∧ is_ranked battle1 = is_ranked battle
          ∧ turn_number battle1 = turn_number battle
          ∧ can_flee (trainer battle1) = can_flee (trainer battle)
          ∧ battler_name (opponent battle1) = battler_name (opponent battle)
          ∧ can_switch (opponent battle1) = can_switch (opponent battle)
          ∧ can_use_items (opponent battle1) = can_use_items (opponent battle)
          ∧ trainer_class (opponent battle1) = trainer_class (opponent battle)
          ∧ prize_money (opponent battle1) = prize_money (opponent battle))
    as (Hc & Hformat & Hranked & Hturn & Hflee & Hname & Hswitch & Hitems
        & Hclass & Hprize).
  { subst battle1.
    destruct (_trigger_entry_abilities E battle) as [[msgs b']|] eqn:Htrigger;
      [|done].
    apply trigger_entry_abilities_frames in Htrigger as [Hc Hf].
    apply frame_start_fields in Hf. split; [exact Hc|exact Hf]. }
  apply control_fields in Hc
    as (Hty & Hph & Hfs & Hov & Hwin & Hpa & Hai & Hwd & Hids & Hap & His
        & Hlen).
  pose proof (Hids Trainer) as Hidt. pose proof (Hids Opponent) as Hido.
  pose proof (Hap Trainer) as Hapt. pose proof (Hap Opponent) as Hapo.
  pose proof (His Trainer) as Hist. pose proof (His Opponent) as Hiso.
  pose proof (Hlen Trainer) as Hlent. pose proof (Hlen Opponent) as Hleno.
  clear Hids Hap His Hlen.
  cbn [battler] in Hidt, Hido, Hapt, Hapo, Hist, Hiso, Hlent, Hleno.
  subst battle.
  cbn [battle_type phase forced_switch_battler_id is_over winner
       pending_actions pending_ai_switch_index wild_dazed battle_format
       is_ranked turn_number trainer opponent battler_id active_positions
       is_ai party can_flee battler_name can_switch can_use_items
       trainer_class prize_money] in *.
  clearbody battle1.
  eexists. split; [apply lookup_insert_eq|].
  cbn [set_ruleset battle_type phase forced_switch_battler_id is_over winner
       pending_actions pending_ai_switch_index wild_dazed battle_format
       is_ranked turn_number trainer opponent ruleset].
  split; [by rewrite Hty, Hformat, Hranked|].
  split; [by rewrite Hturn, Hph, Hov, Hwin|].
  split; [done|]. split; [done|]. split; [done|]. split; [done|].
  split; [by eexists|].
  split; [done|]. split; [done|]. split; [done|]. split; [done|].
  split; [done|]. split; [done|]. split; [done|].
  split; [rewrite Hido; exact Hid|].
  split; [done|]. split; [done|]. split; [done|]. split; [done|].
  split; [done|].
  intros name -> Hne. rewrite Hname. cbn [truthy_opt default].
  by rewrite (truthy_str_true _ Hne).
Qed.

(** X22.  [start_battle] raises exactly when one of the two parties is
    empty.  Otherwise it stores, under the id it returns and without
    touching any other battle, a battle of the requested type, format and
    ranking that is at turn 1 in phase START, not over, without pending
    action or forced switch, under a ruleset; the trainer's side is run by a
    person, the parties have the sizes given, and each side's active
    positions are the first party positions, as many as the format has
    slots, or as the party has members when it has fewer.  An opponent id
    that is not given is -1 in a wild battle and lies between -9999 and
    -1000 otherwise. *)
Theorem start_battle_initial (E : BattleEngine) (st : EngineState)
    (battle_id : string) (trainer_id : Z) (trainer_name : string)
    (trainer_party opponent_party : list Pokemon)
    (type : BattleType) (format : BattleFormat)
    (opponent_id : option Z) (opponent_name : option string)
    (opponent_is_ai is_ranked_battle : bool)
    (npc_class : option string) (prize : Z) :
  let r := start_battle E st battle_id trainer_id trainer_name trainer_party
             opponent_party type format opponent_id opponent_name
             opponent_is_ai is_ranked_battle npc_class prize in
  let slots := if bool_decide (format = DOUBLES) then 2%nat else 1%nat in
  (r = None ↔ trainer_party = [] ∨ opponent_party = [])
  ∧ ∀ bid st',
      r = Some (bid, st') →
      bid = battle_id
      ∧ (∀ other, other ≠ battle_id →
           get_battle st' other = get_battle st other)
      ∧ ∃ b,
          get_battle st' bid = Some b
          ∧ (battle_type b, battle_format b, is_ranked b)
            = (type, format, is_ranked_battle)
          ∧ (turn_number b, phase b, is_over b, winner b)
            = (1, START, false, None)
          ∧ pending_actions b = []
          ∧ forced_switch_battler_id b = None
          ∧ pending_ai_switch_index b = None
          ∧ wild_dazed b = false
          ∧ is_Some (ruleset b)
          ∧ battler_id (trainer b) = trainer_id
          ∧ is_ai (trainer b) = false
          ∧ is_ai (opponent b) = opponent_is_ai
          ∧ length (party (trainer b)) = length trainer_party
          ∧ length (party (opponent b)) = length opponent_party
          ∧ active_positions (trainer b)
            = py_range (Nat.min (length trainer_party) slots)
          ∧ active_positions (opponent b)
            = py_range (Nat.min (length opponent_party) slots)
          ∧ match opponent_id with
            | Some i => battler_id (opponent b) = i
            | None =>
                if bool_decide (type = WILD)
                then battler_id (opponent b) = -1
                else -9999 ≤ battler_id (opponent b) ≤ -1000
            end.
Proof.
  intros r slots. subst r. split.
  - unfold start_battle. destruct trainer_party as [|t0 tr].
    { split; [by left|done]. }
    destruct opponent_party as [|o0 or].
    { split; [by right|done]. }
    split; [|by intros [|]].
    assert ((length (t0 :: tr) =? 0)%nat || (length (o0 :: or) =? 0)%nat
            = false) as -> by done.
    cbv zeta. by destruct (match opponent_id with Some _ => _ | None => _ end).
  - intros bid st' Hstart.
    apply start_battle_spec in Hstart as (Hbid & Hother & b & Hb).
    split; [exact Hbid|]. split; [exact Hother|]. exists b.
    destruct Hb as (H1 & H2 & H3 & H4 & H5 & H6 & H7 & H8 & H9 & H10 & H11
                    & H12 & H13 & H14 & H15 & H16 & _).
    done.
Qed.

Lemma start_battle_initial_witness :
  ∃ b, pvp_battle = Some b ∧ active_positions (trainer b) = [0].
Proof.
  destruct (proj2 (start_battle_initial plain_engine empty_engine_state
                     "battle-3" 7 "Red"
                     [mk_pokemon "Slowpoke" 90 90 15 ["water"] [tackle_slot] None;
                      mk_pokemon "Onix" 35 35 70 ["rock"] [tackle_slot] None]
                     [mk_pokemon "Jolteon" 65 65 130 ["electric"] [tackle_slot] None;
                      mk_pokemon "Eevee" 55 55 55 ["normal"] [tackle_slot] None]
                     PVP SINGLES (Some 8) (Some "Blue") false false None 0)
              "battle-3" _ eq_refl)
    as (_ & _ & b & Hget & _ & _ & _ & _ & _ & _ & _ & _ & _ & _ & _ & _
        & Hactive & _).
  exists b. split; [exact Hget|exact Hactive].
Defined.

(** X23.  The three convenience starters.  A wild battle is a singles
    battle against the one wild combatant, run by the computer under the id
    -1, that cannot switch, and the trainer may flee.  A trainer battle is a
    singles battle against a computer-run side with an id between -9999 and
    -1000 that may use items and carries the class and the prize given, and
    nobody may flee.  A PvP battle is a battle of the format given against a
    side run by a person under the id given. *)
Theorem convenience_starters (E : BattleEngine) (st st' : EngineState)
    (battle_id bid : string) (trainer_id : Z) (trainer_name : string)
    (trainer_party : list Pokemon) :
  (∀ wild_pokemon,
     start_wild_battle E st battle_id trainer_id trainer_name trainer_party
       wild_pokemon = Some (bid, st') →
     ∃ b, get_battle st' bid = Some b
          ∧ (battle_type b, battle_format b) = (WILD, SINGLES)
          ∧ battler_id (opponent b) = -1
          ∧ is_ai (opponent b) = true
          ∧ length (party (opponent b)) = 1%nat
          ∧ active_positions (opponent b) = [0]
          ∧ can_switch (opponent b) = false
          ∧ can_flee (trainer b) = true)
  ∧ (∀ npc_party npc_name npc_class prize is_ranked_battle,
       start_trainer_battle E st battle_id trainer_id trainer_name
         trainer_party npc_party npc_name npc_class prize is_ranked_battle
       = Some (bid, st') →
       ∃ b, get_battle st' bid = Some b
            ∧ (battle_type b, battle_format b) = (TRAINER, SINGLES)
            ∧ -9999 ≤ battler_id (opponent b) ≤ -1000
            ∧ is_ai (opponent b) = true
            ∧ can_use_items (opponent b) = true
            ∧ trainer_class (opponent b) = Some npc_class
            ∧ prize_money (opponent b) = prize
            ∧ can_flee (trainer b) = false)
  ∧ (∀ trainer2_id trainer2_name trainer2_party format is_ranked_battle,
       start_pvp_battle E st battle_id trainer_id trainer_name trainer_party
         trainer2_id trainer2_name trainer2_party format is_ranked_battle
       = Some (bid, st') →
       ∃ b, get_battle st' bid = Some b
            ∧ (battle_type b, battle_format b) = (PVP, format)
            ∧ battler_id (opponent b) = trainer2_id
            ∧ is_ai (trainer b) = false
            ∧ is_ai (opponent b) = false
            ∧ can_flee (trainer b) = false).
Proof.
  split; [|split].
  - intros wild_pokemon Hstart. unfold start_wild_battle in Hstart.
    apply start_battle_spec in Hstart as (_ & _ & b & Hb).
    destruct Hb as (Hget & [= Hty Hfmt _] & _ & _ & _ & _ & _ & _ & _ & _
                    & Hai & _ & Hlen & _ & Hap & Hid & Hflee & Hsw & _).
    exists b. split; [exact Hget|]. split; [by rewrite Hty, Hfmt|].
    split; [exact Hid|]. split; [exact Hai|]. split; [exact Hlen|].
    split; [exact Hap|]. split; [exact Hsw|exact Hflee].
  - intros npc_party npc_name npc_class prize is_ranked_battle Hstart.
    unfold start_trainer_battle in Hstart.
    apply start_battle_spec in Hstart as (_ & _ & b & Hb).
    destruct Hb as (Hget & [= Hty Hfmt _] & _ & _ & _ & _ & _ & _ & _ & _
                    & Hai & _ & _ & _ & _ & Hid & Hflee & _ & Hitems & Hclass
                    & Hprize & _).
    exists b. split; [exact Hget|]. split; [by rewrite Hty, Hfmt|].
    split; [exact Hid|]. split; [exact Hai|]. split; [exact Hitems|].
    split; [exact Hclass|]. split; [exact Hprize|exact Hflee].
  - intros trainer2_id trainer2_name trainer2_party format is_ranked_battle
      Hstart.
    unfold start_pvp_battle in Hstart.
    apply start_battle_spec in Hstart as (_ & _ & b & Hb).
    destruct Hb as (Hget & [= Hty Hfmt _] & _ & _ & _ & _ & _ & _ & _ & Hait
                    & Hai & _ & _ & _ & _ & Hid & Hflee & _).
    exists b. split; [exact Hget|]. split; [by rewrite Hty, Hfmt|].
    split; [exact Hid|]. split; [exact Hait|]. split; [exact Hai|exact Hflee].
Qed.

Lemma convenience_starters_witness :
  ∃ b, wild_battle = Some b ∧ battler_id (opponent b) = -1.
Proof.
  destruct (proj1 (convenience_starters plain_engine empty_engine_state _
                     "battle-5" "battle-5" 7 "Red"
                     [mk_pokemon "Raticate" 50 50 80 ["normal"] [tackle_slot]
                                 None])
              wild_pidgey eq_refl)
    as (b & Hget & _ & Hid & _).
  exists b. split; [exact Hget|exact Hid].
Defined.

(** ** The command parser *)

Lemma parse_moves_spec (E : BattleEngine) (command : string) (id : Z)
    (mvs : list MoveSlot) (action : BattleAction) :
  parse_moves E command id mvs = Some action →
  ∃ mv md,
    mv ∈ mvs
    ∧ get_move E (Some (move_id mv)) = Some md
    ∧ action
      = mk_action A_move id
          (Some (if truthy_opt (md_id md) then default "" (md_id md)
                 else move_id mv))
          (Some 0) None
    ∧ (contains (lower (if truthy_str (md_name md) then md_name md
                        else default "" (md_id md))) command = true
       ∨ contains (if truthy_opt (md_id md) then default "" (md_id md)
                   else move_id mv) command = true).
Proof.
  induction mvs as [|mv r IH]; cbn [parse_moves]; [done|].
  destruct (get_move E (Some (move_id mv))) as [md|] eqn:Hmd.
  - cbv zeta.
    destruct (truthy_str _ && contains _ command
              || truthy_str _ && contains _ command) eqn:Hmatch.
    + intros [= <-]. exists mv, md. split; [apply list_elem_of_here|].
      split; [done|]. split; [done|].
      apply orb_true_iff in Hmatch as [H|H];
        apply andb_true_iff in H as [_ H]; [by left|by right].
    + intros H. destruct (IH H) as (mv' & md' & Hin & Hrest).
      exists mv', md'. split; [by apply list_elem_of_further|done].
  - intros H. destruct (IH H) as (mv' & md' & Hin & Hrest).
    exists mv', md'. split; [by apply list_elem_of_further|done].
Qed.

(** X24.  The command parser answers nothing for an empty command and for a
    command that, lowered and stripped, contains "switch", "swap" or "go ";
    whatever it answers is a move action of the given side aimed at target
    0, for a move of the active combatant that the move database knows and
    whose lowered name or whose id occurs in the lowered, stripped
    command. *)
Theorem parse_result (E : BattleEngine) (command : string)
    (active_pokemon : Pokemon) (id : Z) :
  let cmd := strip (lower command) in
  parse E "" active_pokemon id = None
  ∧ (∀ w, w ∈ ["switch"; "swap"; "go "] → contains w cmd = true →
          parse E command active_pokemon id = None)
  ∧ (∀ action,
       parse E command active_pokemon id = Some action →
       action_type action = A_move
       ∧ action_battler_id action = id
       ∧ target_position action = Some 0
       ∧ ∃ mv md,
           mv ∈ moves active_pokemon
           ∧ get_move E (Some (move_id mv)) = Some md
           ∧ action_move_id action
             = Some (if truthy_opt (md_id md) then default "" (md_id md)
                     else move_id mv)
           ∧ (contains (lower (if truthy_str (md_name md) then md_name md
                               else default "" (md_id md))) cmd = true
              ∨ contains (if truthy_opt (md_id md) then default "" (md_id md)
                          else move_id mv) cmd = true)).
Proof.
  intros cmd. split; [done|]. split.
  - intros w Hw Hin. unfold parse.
    destruct (negb (truthy_str command)); [done|]. cbv zeta. fold cmd.
    assert (existsb (λ w, contains w cmd) ["switch"; "swap"; "go "] = true)
      as ->; [|done].
    apply existsb_exists. exists w. split; [|done]. by apply list_elem_of_In.
  - intros action. unfold parse.
    destruct (negb (truthy_str command)); [done|]. cbv zeta. fold cmd.
    destruct (existsb _ _); [done|]. intros Hparse.
    apply parse_moves_spec in Hparse as (mv & md & Hin & Hmd & -> & Hmatch).
    split; [done|]. split; [done|]. split; [done|].
    by exists mv, md.
Qed.

Lemma parse_result_witness :
  let command :=
    ("Tackle " ++ String (ascii_of_nat 201) " GO "
     ++ String (ascii_of_nat 160) "")%string in
  strip (lower command) = ("tackle " ++ String (ascii_of_nat 233) " go")%string
  ∧ parse plain_engine command (hundred_hp ["normal"]) 7 = Some (move_tackle 7)
  ∧ action_type (move_tackle 7) = A_move.
Proof.
  intros command.
  assert (parse plain_engine command (hundred_hp ["normal"]) 7
          = Some (move_tackle 7)) as Hparse by (vm_compute; reflexivity).
  split; [vm_compute; reflexivity|]. split; [exact Hparse|].
  exact (proj1 (proj2 (proj2 (parse_result plain_engine command
                                (hundred_hp ["normal"]) 7))
                 (move_tackle 7) Hparse)).
Defined.

(** [strip] removes the no-break space and the other Latin-1 white space,
    [lower] lowers the accented capitals: a command that ends in "go", a
    space and a no-break space holds no "go " once stripped, whereas "go "
    followed by a word is a switch intent. *)
Lemma strip_lower_latin1 :
  strip (String (ascii_of_nat 133) " a b" ++ String (ascii_of_nat 160) "")%string
  = "a b"
  ∧ lower (String (ascii_of_nat 201) "CLAT") = String (ascii_of_nat 233) "clat"
  ∧ lower (String (ascii_of_nat 215) (String (ascii_of_nat 223) ""))
    = String (ascii_of_nat 215) (String (ascii_of_nat 223) "")
  ∧ parse plain_engine "tackle, go pikachu" (hundred_hp ["normal"]) 7 = None.
Proof. by vm_compute. Qed.

(** ** Damage through the held items *)

Lemma try_focus_items_bounds (items_db : option ItemsDB) (draws : nat → Q)
    (defender : Pokemon) (damage : Z) (g : nat) :
  let r := HeldItemManager._try_focus_items items_db draws defender damage g in
  r.1.1.1 ≤ damage ∧ (1 ≤ damage → 1 ≤ r.1.1.1).
Proof.
  cbv zeta. unfold HeldItemManager._try_focus_items.
  destruct ((damage <? current_hp defender) || (current_hp defender <=? 0))
    eqn:Hskip; [cbn; lia|].
  apply orb_false_iff in Hskip as [Hlethal _].
  destruct (HeldItemManager._get_item items_db defender) as [item|];
    [|cbn; lia].
  destruct (truthy_opt _ && _); [cbn; lia|].
  destruct (negb _); [cbn; lia|].
  destruct (requires_full_hp _ && _); [cbn; lia|].
  destruct (match activation_chance (effect_data item) with
            | Some _ => _ | None => _ end) as [failed g1].
  destruct failed; [cbn; lia|].
  destruct (current_hp defender <=? 1) eqn:Hone; cbn; lia.
Qed.

(** Dividing a positive integer of at most 53 bits by a number above 1 and
    taking the ceiling does not exceed the integer. *)
Lemma round64_quotient_le (d : Z) (q : Q) :
  0 < d ≤ 2 ^ 53 → (1 < q)%Q →
  Qceiling (float_value (round64 (inject_Z d / q))) ≤ d.
Proof.
  intros Hd Hq.
  assert (0 < q)%Q as Hq0 by (apply Qlt_trans with 1%Q; [reflexivity|exact Hq]).
  assert (0 < inject_Z d / q)%Q as Hpos.
  { apply Qlt_shift_div_l; [exact Hq0|]. rewrite Qmult_0_l.
    unfold Qlt, inject_Z. cbn. lia. }
  assert (inject_Z d / q <= inject_Z d)%Q as Hle.
  { apply Qle_shift_div_r; [exact Hq0|].
    rewrite <- (Qmult_1_r (inject_Z d)) at 1.
    rewrite (Qmult_comm (inject_Z d) 1), (Qmult_comm (inject_Z d) q).
    apply Qmult_le_compat_r; [by apply Qlt_le_weak|].
    unfold Qle, inject_Z. cbn. lia. }
  destruct (round64_le _ d Hpos Hle ltac:(lia)) as (r & -> & _ & Hr).
  cbn [float_value]. rewrite <- (Qceiling_Z d). by apply Qceiling_resp_le.
Qed.

Lemma py_ceil_truediv_le (d : Z) (m : pynum) :
  0 < d ≤ 2 ^ 53 → py_gtb m 1 = true → py_ceil (py_truediv (P_int d) m) ≤ d.
Proof.
  intros Hd Hgt. unfold py_ceil. destruct m as [y|f].
  - cbn [py_gtb] in Hgt. cbn [py_truediv].
    assert ((y =? 0) = false) as -> by lia.
    apply round64_quotient_le; [done|].
    unfold Qlt, inject_Z. cbn. lia.
  - cbn [py_gtb] in Hgt. cbn [py_truediv to_float].
    rewrite (float_of_Z_exact d) by lia.
    change (float_of_Z 1) with (round64 (inject_Z 1)) in Hgt.
    rewrite (round64_inject_Z 1) in Hgt by lia.
    destruct f as [q|negative|]; cbn [fltb] in Hgt; [| |done].
    + apply negb_true_iff in Hgt.
      assert (1 < q)%Q as Hq.
      { apply Qnot_le_lt. intros Hle. apply Qle_bool_iff in Hle.
        exact (eq_true_false_abs _ Hle Hgt). }
      cbn [fdiv].
      assert (Qeq_bool q 0 = false) as ->.
      { destruct (Qeq_bool q 0) eqn:Hz; [|done]. apply Qeq_bool_iff in Hz.
        rewrite Hz in Hq. unfold Qlt in Hq. cbn in Hq. lia. }
      exact (round64_quotient_le d q Hd Hq).
    + cbn [fdiv float_value]. change (Qceiling 0) with 0. lia.
Qed.

(** X25.  When the attacker holds no usable item, the held-item pass over
    a damage of at most 53 bits never raises it and never takes a positive
    damage below 1; a damage of 0 or less, and any such damage when the
    defender holds no usable item either, passes through unchanged, without
    a message, a random draw or a change to the defender. *)
Theorem modify_damage_bounds (items_db : option ItemsDB) (draws : nat → Q)
    (attacker defender : Pokemon) (move_data : MoveData) (damage : Z)
    (g : nat) :
  HeldItemManager._get_item items_db attacker = None →
  damage ≤ 2 ^ 53 →
  let r := HeldItemManager.modify_damage items_db draws attacker defender
             move_data damage g in
  (damage ≤ 0 → r = (damage, [], defender, g))
  ∧ (0 < damage → 1 ≤ r.1.1.1 ≤ damage)
  ∧ (HeldItemManager._get_item items_db defender = None →
     r = (damage, [], defender, g)).
Proof.
  intros Hattacker Hbound. cbv zeta. unfold HeldItemManager.modify_damage.
  destruct (damage <=? 0) eqn:Hsign.
  { split; [done|]. split; [lia|done]. }
  split; [lia|]. cbv zeta.
  assert (py_round (P_float (fmul (float_of_Z damage)
                                  (HeldItemManager._power_multiplier items_db
                                     attacker move_data))) = damage) as ->.
  { unfold HeldItemManager._power_multiplier. rewrite Hattacker.
    apply (py_round_mul_one damage). lia. }
  split.
  - intros Hpos.
    set (damage2 := if py_gtb _ 1 then _ else damage).
    assert (1 ≤ damage2 ≤ damage) as Hd2.
    { subst damage2.
      destruct (py_gtb _ 1) eqn:Hbulk; [|lia].
      pose proof (py_ceil_truediv_le damage _ ltac:(lia) Hbulk). lia. }
    pose proof (try_focus_items_bounds items_db draws defender damage2 g) as Hf.
    destruct (HeldItemManager._try_focus_items items_db draws defender damage2 g)
      as [[[damage3 survival] defender'] g'].
    cbn [fst] in Hf |- *. lia.
  - intros Hdefender.
    unfold HeldItemManager._defense_multiplier,
      HeldItemManager._try_focus_items.
    rewrite Hdefender.
    assert (py_gtb (P_float (fl 1)) 1 = false) as -> by (by vm_compute).
    by destruct ((damage <? current_hp defender) || (current_hp defender <=? 0)).
Qed.

Lemma modify_damage_bounds_witness :
  HeldItemManager.modify_damage (Some sample_items) (fun _ => 0%Q)
    (hundred_hp ["normal"]) (hundred_hp ["normal"]) tackle 10 0
  = (10, [], hundred_hp ["normal"], 0%nat).
Proof.
  assert (10 ≤ 2 ^ 53) as Hbound by (by vm_compute).
  apply (modify_damage_bounds (Some sample_items) (fun _ => 0%Q)
           (hundred_hp ["normal"]) (hundred_hp ["normal"]) tackle 10 0
           eq_refl Hbound).
  reflexivity.
Defined.

(** Beyond 53 bits the pass is a float product with 1.0, which keeps the
    nearest double only. *)
Lemma modify_damage_beyond_53_bits :
  (HeldItemManager.modify_damage (Some sample_items) (fun _ => 0%Q)
     (hundred_hp ["normal"]) (hundred_hp ["normal"]) tackle (2 ^ 53 + 1) 0).1.1.1
  = 2 ^ 53
  ∧ (HeldItemManager.modify_damage (Some sample_items) (fun _ => 0%Q)
       (hundred_hp ["normal"]) (hundred_hp ["normal"]) tackle (2 ^ 53 + 3) 0).1.1.1
    = 2 ^ 53 + 4.
Proof. by vm_compute. Qed.

(** ** Fleeing *)

(** X26.  A successful flee from a wild battle ends the turn there: the
    battle is over and marked as fled, without a winner, one random draw is
    taken, and none of the actions scheduled after the flee runs. *)
Theorem flee_ends_turn (E : BattleEngine) (b : BattleState)
    (action : BattleAction) (rest : list BattleAction) (g : nat)
    (sw : list Msg) (actives : list nat) :
  let x := battler b (side_of b (action_battler_id action)) in
  battle_type b = WILD →
  is_over b = false → wild_dazed b = false →
  phase b ≠ FORCED_SWITCH →
  action_type action = A_flee →
  get_active_pokemon x = Some actives →
  actives ≠ [] → all_fainted x actives = false →
  (random_source E g < 1 # 2)%Q →
  ∃ b',
    run_actions E (action :: rest) b g sw = Some (b', S g, sw)
    ∧ b' = set_turn_log
             (set_winner (set_fled (set_is_over b true) true) None)
             (turn_log b ++ [M_got_away]).
Proof.
  intros x Hwild Hover Hdazed Hphase Hflee Hactives Hne Hfainted Hdraw.
  eexists. split; [|reflexivity].
  cbn [run_actions]. rewrite Hover, Hdazed. cbn [orb]. fold x.
  rewrite Hactives. cbn [mbind option_bind].
  rewrite (bool_decide_eq_false_2 _ Hne), Hfainted. cbn [orb].
  rewrite (bool_decide_eq_false_2 _ Hphase). cbn [andb].
  unfold _execute_action. rewrite Hflee. unfold _execute_flee.
  rewrite (bool_decide_eq_true_2 _ Hwild). cbn [negb]. unfold random.
  assert (Qle_bool (1 # 2) (random_source E g) = false) as ->.
  { apply not_true_is_false. intros Hle. apply Qle_bool_iff in Hle.
    by apply Qle_not_lt in Hle. }
  cbn [negb mbind option_bind].
  rewrite bool_decide_eq_false_2 by done.
  apply run_actions_stops. done.
Qed.

Lemma flee_ends_turn_witness :
  ∃ b', run_actions plain_engine [flee_action 7; move_tackle (-1)] wild_ready
          0 [] = Some (b', 1%nat, [])
        ∧ is_over b' = true.
Proof.
  pose proof (flee_ends_turn plain_engine wild_ready (flee_action 7)
                [move_tackle (-1)] 0 [] [0%nat]) as H.
  cbv zeta in H.
  destruct H as (b' & Hrun & ->);
    [reflexivity|reflexivity|reflexivity|discriminate|reflexivity|reflexivity
    |discriminate|reflexivity|reflexivity|].
  eexists. split; [exact Hrun|reflexivity].
Defined.
